(** * Collector activity dashboard: the loading pipeline and its metrics

    A shallow embedding of [dashboard_local.py].  The script reads two
    spreadsheets through pandas, reconciles the visit log with the agent
    roster and derives the tables behind the charts.

    Conventions of the embedding.
    - Text is [string]; a character is one code unit.  Whitespace and
      letter case follow Python's [str] on the ASCII range.
    - A spreadsheet cell is a [cell]: missing ([NaN], [None], [NaT]),
      text, integer, timestamp or calendar date.  Binary floating point
      cells are outside the model.
    - The true division of the comparison averages is the division of
      binary64, on Rocq's primitive floats; the lightness of the heat map
      is taken in [Q].
    - A [DataFrame] keeps its column labels and its rows; every row carries
      the label of the pandas index, which survives filtering.
    - Streamlit's [st.warning], [st.error] and [st.info] calls are returned
      as a list of [message]s next to the value (explicit output passing).
    - An exception raised inside a [try] block is a value of [exn] in the
      left summand of [Exc]. *)

From Stdlib Require Import String Ascii List ZArith QArith Lia Bool.
From Stdlib Require Import Sorted Permutation DecimalString Lqa.
From Stdlib Require Uint63 PrimFloat FloatOps SpecFloat.
Import ListNotations.

Close Scope Q_scope.
Open Scope nat_scope.
Open Scope list_scope.
Open Scope string_scope.

(** ** Python [str] operations *)

Module PyStr.

(** [str.isspace] for one ASCII character: TAB, LF, VT, FF, CR, the four
    separators FS, GS, RS, US and the blank. *)
Definition isspace (c : ascii) : bool :=
  let n := nat_of_ascii c in
  (((9 <=? n) && (n <=? 13)) || ((28 <=? n) && (n <=? 32)))%nat.

Definition isdigit (c : ascii) : bool :=
  let n := nat_of_ascii c in ((48 <=? n) && (n <=? 57))%nat.

Definition islower (c : ascii) : bool :=
  let n := nat_of_ascii c in ((97 <=? n) && (n <=? 122))%nat.

Definition is_empty (s : string) : bool :=
  match s with EmptyString => true | String _ _ => false end.

Fixpoint lstrip (s : string) : string :=
  match s with
  | EmptyString => EmptyString
  | String c s' => if isspace c then lstrip s' else s
  end.

Fixpoint rstrip (s : string) : string :=
  match s with
  | EmptyString => EmptyString
  | String c s' =>
      let t := rstrip s' in
      if is_empty t && isspace c then EmptyString else String c t
  end.

(** [s.strip()] *)
Definition strip (s : string) : string := rstrip (lstrip s).

Definition upper_char (c : ascii) : ascii :=
  if islower c then ascii_of_nat (nat_of_ascii c - 32) else c.

(** [s.upper()] *)
Fixpoint upper (s : string) : string :=
  match s with
  | EmptyString => EmptyString
  | String c s' => String (upper_char c) (upper s')
  end.

(** [needle in hay] *)
Fixpoint contains (needle hay : string) : bool :=
  String.prefix needle hay ||
  match hay with
  | EmptyString => false
  | String _ hay' => contains needle hay'
  end.

(** [s.split(sep)] for a non-empty separator, scanning left to right.
    [skip] counts the characters of a separator just recognised that
    are still to be passed over; [cur] is the piece being collected. *)
Fixpoint split_go (sep : string) (skip : nat) (cur s : string)
  : list string :=
  match s with
  | EmptyString => [cur]
  | String c s' =>
      match skip with
      | S k => split_go sep k cur s'
      | O =>
          if String.prefix sep s
          then cur :: split_go sep (String.length sep - 1) EmptyString s'
          else split_go sep 0 (cur ++ String c EmptyString) s'
      end
  end.

Definition split (sep s : string) : list string :=
  split_go sep 0 EmptyString s.

(** [str(n)] for an integer *)
Definition of_Z (z : Z) : string := NilZero.string_of_int (Z.to_int z).

(** [int(s)] for a run of decimal digits *)
Definition digit_value (c : ascii) : Z := Z.of_nat (nat_of_ascii c - 48).

Fixpoint int_go (acc : Z) (s : string) : Z :=
  match s with
  | EmptyString => acc
  | String c s' => int_go (10 * acc + digit_value c)%Z s'
  end.

Definition int (s : string) : Z := int_go 0%Z s.

(** The first maximal run of digits, the group of [re.search('(\d+)')]. *)
Fixpoint take_digits (s : string) : string :=
  match s with
  | EmptyString => EmptyString
  | String c s' => if isdigit c then String c (take_digits s') else EmptyString
  end.

Fixpoint search_digits (s : string) : option string :=
  match s with
  | EmptyString => None
  | String c s' => if isdigit c then Some (take_digits s) else search_digits s'
  end.

(** ["0" * (width - len(s)) + s], as in [%02d] *)
Fixpoint zeros (n : nat) : string :=
  match n with O => EmptyString | S k => String "0" (zeros k) end.

Definition zfill (width : nat) (s : string) : string :=
  zeros (width - String.length s) ++ s.

End PyStr.

(** A text that does not start with whitespace. *)
Definition starts_clean (s : string) : Prop :=
  match s with
  | EmptyString => True
  | String c _ => PyStr.isspace c = false
  end.

(** ** Exceptions and messages *)

(** The exceptions the modelled code can raise.  [ReadError] stands for
    whatever [pd.read_excel] raises on a failed download or an unreadable
    workbook. *)
Inductive exn :=
| KeyError (key : string)
| IndexError
| ReadError (detail : string).

Definition Exc (A : Type) : Type := (exn + A)%type.

Definition ret {A : Type} (a : A) : Exc A := inr a.
Definition raise {A : Type} (e : exn) : Exc A := inl e.

Definition bind {A B : Type} (m : Exc A) (k : A -> Exc B) : Exc B :=
  match m with
  | inl e => inl e
  | inr a => k a
  end.

Notation "x <- m ;; k" := (bind m (fun x => k))
  (at level 61, m at next level, right associativity).

(** What the script shows to the user.
    - [WarnBadLink]: the [st.warning] of [get_gdrive_download_url], "the
      link is not a valid Google Drive sharing link".
    - [ErrMissingColumns]: the [st.error] of the required-column check,
      "the visit log lacks required columns".
    - [ErrLoad]: the [st.error] of the [except] clause, "error while reading
      the Google Drive files", with the exception's text.
    - [InfoNoAnalysisData]: the [st.info] "no case record in the chosen
      range of dates".
    - [InfoPickComparison]: the [st.info] asking for at least one collector
      in the comparison group.
    - [InfoNoComparisonData]: the [st.info] "the comparison group has no
      records in this period". *)
Inductive message :=
| WarnBadLink (share_link : string)
| ErrMissingColumns
| ErrLoad (e : exn)
| InfoNoAnalysisData
| InfoPickComparison
| InfoNoComparisonData.

(** ** Timestamps *)

Record datetime := mk_datetime
  { year : Z; month : Z; day : Z; hour : Z; minute : Z; second : Z }.

Record date := mk_date { d_year : Z; d_month : Z; d_day : Z }.

Definition option_bind {A B : Type} (o : option A) (k : A -> option B)
  : option B :=
  match o with
  | Some a => k a
  | None => None
  end.

Notation "x <?- o ;; k" := (option_bind o (fun x => k))
  (at level 61, o at next level, right associativity).

Module Strptime.

Fixpoint all_digits (s : string) : bool :=
  match s with
  | EmptyString => true
  | String c s' => PyStr.isdigit c && all_digits s'
  end.

(** The text before and after the first occurrence of the character [sep]. *)
Fixpoint cut (sep : ascii) (s : string) : option (string * string) :=
  match s with
  | EmptyString => None
  | String c s' =>
      if Ascii.eqb c sep then Some (EmptyString, s')
      else match cut sep s' with
           | Some (a, b) => Some (String c a, b)
           | None => None
           end
  end.

(** A numeric directive written with one or two digits, value in
    [lo .. hi]: [%m] is [1[0-2]|0[1-9]|[1-9]], [%H] is [2[0-3]|[0-1]\d|\d],
    [%M] is [[0-5]\d|\d] and [%S] is [6[0-1]|[0-5]\d|\d]. *)
Definition field (lo hi : Z) (s : string) : option Z :=
  let n := String.length s in
  let v := PyStr.int s in
  if (1 <=? n)%nat && (n <=? 2)%nat && all_digits s
     && (lo <=? v)%Z && (v <=? hi)%Z
  then Some v else None.

(** [%d] is [3[0-1]|[1-2]\d|0[1-9]|[1-9]| [1-9]]: like the others, or a
    blank and a digit other than zero. *)
Definition day_field (s : string) : option Z :=
  match s with
  | String " " (String c EmptyString) => field 1 9 (String c EmptyString)
  | _ => field 1 31 s
  end.

Definition is_leap (y : Z) : bool :=
  (((y mod 4 =? 0) && negb (y mod 100 =? 0)) || (y mod 400 =? 0))%Z.

Definition days_in_month (y m : Z) : Z :=
  if (m =? 2)%Z then (if is_leap y then 29 else 28)%Z
  else if ((m =? 4) || (m =? 6) || (m =? 9) || (m =? 11))%Z then 30%Z
  else 31%Z.

(** Parsing with the format ['%d/%m/%Y %H:%M:%S'].  The whole text has to
    match; the blank of the format stands for one or more whitespace
    characters; [%Y] is four digits.  A match that is no calendar date
    (day beyond the month, year 0, second beyond 59) is no timestamp.
    The range limits of the library's 64-bit clock are not modelled. *)
Definition parse (s : string) : option datetime :=
  p1 <?- cut "/" s ;;
  p2 <?- cut "/" (snd p1) ;;
  let ys := String.substring 0 4 (snd p2) in
  let after_year := String.substring 4 (String.length (snd p2) - 4) (snd p2) in
  let time := PyStr.lstrip after_year in
  p3 <?- cut ":" time ;;
  p4 <?- cut ":" (snd p3) ;;
  d <?- day_field (fst p1) ;;
  m <?- field 1 12 (fst p2) ;;
  H <?- field 0 23 (fst p3) ;;
  M <?- field 0 59 (fst p4) ;;
  S <?- field 0 61 (snd p4) ;;
  let y := PyStr.int ys in
  if (String.length ys =? 4)%nat && all_digits ys
     && (String.length time <? String.length after_year)%nat
     && (1 <=? y)%Z && (d <=? days_in_month y m)%Z && (S <=? 59)%Z
  then Some (mk_datetime y m d H M S)
  else None.

End Strptime.

(** ** Cells and element-wise operations *)

Inductive cell :=
| NaN
| Str (s : string)
| Int (z : Z)
| Timestamp (t : datetime)
| Date (d : date).

Definition datetime_eqb (a b : datetime) : bool :=
  ((year a =? year b) && (month a =? month b) && (day a =? day b)
   && (hour a =? hour b) && (minute a =? minute b)
   && (second a =? second b))%Z.

Definition date_eqb (a b : date) : bool :=
  ((d_year a =? d_year b) && (d_month a =? d_month b)
   && (d_day a =? d_day b))%Z.

(** Equality of two cells as [isin] and [value_counts] see it (a missing
    value matches a missing value there). *)
Definition cell_eqb (a b : cell) : bool :=
  match a, b with
  | NaN, NaN => true
  | Str s, Str t => String.eqb s t
  | Int x, Int y => (x =? y)%Z
  | Timestamp x, Timestamp y => datetime_eqb x y
  | Date x, Date y => date_eqb x y
  | _, _ => false
  end.

(** [pd.isna] *)
Definition isna (c : cell) : bool :=
  match c with
  | NaN => true
  | _ => false
  end.

Definition two (z : Z) : string := PyStr.zfill 2 (PyStr.of_Z z).

Definition date_str (y m d : Z) : string :=
  PyStr.zfill 4 (PyStr.of_Z y) ++ "-" ++ two m ++ "-" ++ two d.

(** [str(x)] of a cell's value *)
Definition str (c : cell) : string :=
  match c with
  | NaN => "nan"
  | Str s => s
  | Int z => PyStr.of_Z z
  | Timestamp t =>
      date_str (year t) (month t) (day t) ++ " " ++
      two (hour t) ++ ":" ++ two (minute t) ++ ":" ++ two (second t)
  | Date d => date_str (d_year d) (d_month d) (d_day d)
  end.

(** [.astype(str)], element-wise *)
Definition astype_str (c : cell) : cell := Str (str c).

(** The [.str] accessor gives a missing value on anything but text. *)
Definition str_strip (c : cell) : cell :=
  match c with
  | Str s => Str (PyStr.strip s)
  | _ => NaN
  end.

Definition str_upper (c : cell) : cell :=
  match c with
  | Str s => Str (PyStr.upper s)
  | _ => NaN
  end.

(** [.str.split(sep).str[0]] *)
Definition str_split_first (sep : string) (c : cell) : cell :=
  match c with
  | Str s => match PyStr.split sep s with
             | piece :: _ => Str piece
             | [] => NaN
             end
  | _ => NaN
  end.

(** [.str.extract('(\d+)')] *)
Definition str_extract_digits (c : cell) : cell :=
  match c with
  | Str s => match PyStr.search_digits s with
             | Some d => Str d
             | None => NaN
             end
  | _ => NaN
  end.

(** [.fillna(v)] *)
Definition fillna (v c : cell) : cell := if isna c then v else c.

(** [.astype(int)] on the cells that reach it: digit runs and integers. *)
Definition astype_int (c : cell) : Z :=
  match c with
  | Str s => PyStr.int s
  | Int z => z
  | _ => 0%Z
  end.

(** [pd.to_datetime(..., format='%d/%m/%Y %H:%M:%S', errors='coerce')],
    element-wise: a timestamp passes, anything else is parsed from its
    text, and what does not parse is [NaT]. *)
Definition to_datetime (c : cell) : cell :=
  match c with
  | NaN => NaN
  | Timestamp t => Timestamp t
  | Date d => Timestamp (mk_datetime (d_year d) (d_month d) (d_day d) 0 0 0)
  | _ => match Strptime.parse (str c) with
         | Some t => Timestamp t
         | None => NaN
         end
  end.

(** [.dt.date] *)
Definition dt_date (c : cell) : cell :=
  match c with
  | Timestamp t => Date (mk_date (year t) (month t) (day t))
  | _ => NaN
  end.

(** [.isin(values)] *)
Definition isin (values : list cell) (c : cell) : bool :=
  existsb (cell_eqb c) values.

(** [.unique()]: the distinct values in order of first appearance. *)
Fixpoint unique_go (seen l : list cell) : list cell :=
  match l with
  | [] => []
  | c :: l' =>
      if isin seen c then unique_go seen l'
      else c :: unique_go (c :: seen) l'
  end.

Definition unique (l : list cell) : list cell := unique_go [] l.

(** ** Data frames *)

(** A row maps column labels to cells; a label that is not there reads as
    a missing value. *)
Definition row : Type := list (string * cell).

Fixpoint get (name : string) (r : row) : cell :=
  match r with
  | [] => NaN
  | (k, v) :: r' => if String.eqb k name then v else get name r'
  end.

Fixpoint set (name : string) (v : cell) (r : row) : row :=
  match r with
  | [] => [(name, v)]
  | (k, x) :: r' =>
      if String.eqb k name then (k, v) :: r' else (k, x) :: set name v r'
  end.

Record DataFrame := mk_frame
  { columns : list string;
    rows : list (nat * row) }.

(** [name in df.columns] *)
Definition has_column (name : string) (df : DataFrame) : bool :=
  existsb (String.eqb name) (columns df).

(** [df.empty] *)
Definition empty (df : DataFrame) : bool :=
  match rows df with
  | [] => true
  | _ :: _ => false
  end.

(** [df.columns = df.columns.str.strip()] *)
Definition strip_columns (df : DataFrame) : DataFrame :=
  mk_frame (map PyStr.strip (columns df))
           (map (fun ir => (fst ir,
                            map (fun kv => (PyStr.strip (fst kv), snd kv))
                                (snd ir)))
                (rows df)).

(** [df[name]] read as a column: [KeyError] when the label is absent. *)
Definition series (name : string) (df : DataFrame) : Exc (list cell) :=
  if has_column name df
  then ret (map (fun ir => get name (snd ir)) (rows df))
  else raise (KeyError name).

(** [df[name] = f(df)] for an element-wise [f]: the column is replaced, or
    added as the last one. *)
Definition assign (name : string) (f : row -> cell) (df : DataFrame)
  : DataFrame :=
  mk_frame (if has_column name df then columns df else columns df ++ [name])
           (map (fun ir => (fst ir, set name (f (snd ir)) (snd ir))) (rows df)).

(** [df[cols].copy()] *)
Definition select (cols : list string) (df : DataFrame) : DataFrame :=
  mk_frame cols
           (map (fun ir => (fst ir, map (fun c => (c, get c (snd ir))) cols))
                (rows df)).

(** [df[mask]] for an element-wise mask: rows keep their index label. *)
Definition keep (mask : row -> bool) (df : DataFrame) : DataFrame :=
  mk_frame (columns df) (filter (fun ir => mask (snd ir)) (rows df)).

(** [df.dropna(subset=cols, inplace=True)] *)
Definition dropna (subset : list string) (df : DataFrame) : DataFrame :=
  keep (fun r => forallb (fun c => negb (isna (get c r))) subset) df.

(** [df.rename(columns={old: new}, inplace=True)] *)
Definition rename (old new : string) (df : DataFrame) : DataFrame :=
  let f := fun k : string => if String.eqb k old then new else k in
  mk_frame (map f (columns df))
           (map (fun ir => (fst ir, map (fun kv => (f (fst kv), snd kv))
                                        (snd ir)))
                (rows df)).

(** A Python [dict] with cells as keys: a later pair replaces an earlier
    one with the same key. *)
Definition dict : Type := list (cell * cell).

Fixpoint dict_set (k v : cell) (d : dict) : dict :=
  match d with
  | [] => [(k, v)]
  | (k', v') :: d' =>
      if cell_eqb k' k then (k', v) :: d' else (k', v') :: dict_set k v d'
  end.

Fixpoint dict_get (k : cell) (d : dict) : option cell :=
  match d with
  | [] => None
  | (k', v) :: d' => if cell_eqb k' k then Some v else dict_get k d'
  end.

(** [df.set_index(key)[value].to_dict()]: [KeyError] on an absent label. *)
Definition to_dict (key value : string) (df : DataFrame) : Exc dict :=
  if negb (has_column key df) then raise (KeyError key)
  else if negb (has_column value df) then raise (KeyError value)
  else ret (fold_left (fun d ir => dict_set (get key (snd ir))
                                            (get value (snd ir)) d)
                      (rows df) []).

(** [series.map(d)], element-wise: a key that is not in [d] gives a
    missing value. *)
Definition map_dict (d : dict) (c : cell) : cell :=
  match dict_get c d with
  | Some v => v
  | None => NaN
  end.

(** [sort_values(key)], ascending.  pandas leaves the order of rows with
    equal keys to the sorting routine; this one keeps their order. *)
Fixpoint insert_by {A : Type} (key : A -> Z) (x : A) (l : list A) : list A :=
  match l with
  | [] => [x]
  | y :: l' => if (key x <=? key y)%Z then x :: l else y :: insert_by key x l'
  end.

Definition sort_values {A : Type} (key : A -> Z) (l : list A) : list A :=
  fold_right (insert_by key) [] l.

(** [series.value_counts()]: every distinct value that is not missing
    with the number of its occurrences, the most frequent first. *)
Definition count_cell (c : cell) (l : list cell) : Z :=
  Z.of_nat (List.length (filter (cell_eqb c) l)).

Definition value_counts (l : list cell) : list (cell * Z) :=
  let present := filter (fun c => negb (isna c)) l in
  sort_values (fun vc => (- snd vc)%Z)
              (map (fun c => (c, count_cell c present)) (unique present)).

(** ** The source resolver *)

(** [if not x] on the resolver's result: [None] and the empty text. *)
Definition falsy (x : option string) : bool :=
  match x with
  | None => true
  | Some s => PyStr.is_empty s
  end.

(** [l[i]] on a Python list *)
Definition item {A : Type} (l : list A) (i : nat) : Exc A :=
  match nth_error l i with
  | Some a => ret a
  | None => raise IndexError
  end.

(** [share_link.split('/d/')[1].split('/')[0]] *)
Definition file_id_of (share_link : string) : Exc string :=
  after <- item (PyStr.split "/d/" share_link) 1 ;;
  item (PyStr.split "/" after) 0.

Definition get_gdrive_download_url (share_link : string)
  : Exc (option string * list message) :=
  if PyStr.contains "spreadsheets/d/" share_link then
    file_id <- file_id_of share_link ;;
    ret (Some ("https://docs.google.com/spreadsheets/d/" ++ file_id
               ++ "/export?format=xlsx"), [])
  else if PyStr.contains "file/d/" share_link then
    file_id <- file_id_of share_link ;;
    ret (Some ("https://drive.google.com/uc?export=download&id=" ++ file_id),
         [])
  else ret (None, [WarnBadLink share_link]).

(** ** Loading and normalising the two tables *)

Definition required_cols : list string :=
  ["Collector"; "Create Time"; "Neg Pos Unit"; "Aging"; "Contact Summary";
   "Customer Name"].

(** Lines 61 to 66: the six columns, the rows with the three
    load-critical cells present, the trimmed collector text and the
    agent id in front of its first dash. *)
Definition clean_collectors (visit_logs_df : DataFrame) : DataFrame :=
  let visit_logs_df := select required_cols visit_logs_df in
  let visit_logs_df :=
    dropna ["Create Time"; "Collector"; "Aging"] visit_logs_df in
  let visit_logs_df :=
    assign "Collector"
           (fun r => str_strip (astype_str (get "Collector" r)))
           visit_logs_df in
  assign "Collector ID"
         (fun r => str_strip (str_split_first "-" (get "Collector" r)))
         visit_logs_df.

(** Lines 68 and 69: only rows of agents on the roster stay. *)
Definition match_roster (ids : list cell) (visit_logs_df : DataFrame)
  : DataFrame :=
  let valid_collector_ids := unique ids in
  keep (fun r => isin valid_collector_ids (get "Collector ID" r))
       visit_logs_df.

(** Lines 71 to 73: cancelled repossessions go. *)
Definition drop_cancelled (visit_logs_df : DataFrame) : DataFrame :=
  if has_column "Neg Pos Unit" visit_logs_df then
    let visit_logs_df :=
      assign "Neg Pos Unit" (fun r => astype_str (get "Neg Pos Unit" r))
             visit_logs_df in
    keep (fun r => negb (cell_eqb (str_strip (get "Neg Pos Unit" r))
                                  (Str "CancelRepossession")))
         visit_logs_df
  else visit_logs_df.

(** Lines 75 to 77: the timestamps are parsed, rows without one go, the
    calendar date is added. *)
Definition parse_times (visit_logs_df : DataFrame) : DataFrame :=
  let visit_logs_df :=
    assign "Create Time" (fun r => to_datetime (get "Create Time" r))
           visit_logs_df in
  let visit_logs_df := dropna ["Create Time"] visit_logs_df in
  assign "Date" (fun r => dt_date (get "Create Time" r)) visit_logs_df.

(** What [load_data_from_gdrive] hands back: the pair of frames, each
    possibly [None], and the messages shown on the way. *)
Definition loaded : Type :=
  ((option DataFrame * option DataFrame) * list message)%type.

Section Loader.

(** [pd.read_excel(url, header=h)]: the workbook behind [url] with its
    header on physical row [h], or the exception of a failed read. *)
Variable read_excel : string -> nat -> Exc DataFrame.

(** The roster part of the [try] block: the frame as it is returned and
    the lookup from agent id to display name. *)
Definition load_groups (group_download_url : string)
  : Exc (DataFrame * dict) :=
  groups_df <- read_excel group_download_url 0 ;;
  let groups_df := strip_columns groups_df in
  _ <- series "ID" groups_df ;;
  let groups_df :=
    assign "ID" (fun r => str_strip (astype_str (get "ID" r))) groups_df in
  let groups_df :=
    if has_column "Collector" groups_df
       && negb (has_column "Agent Name" groups_df)
    then rename "Collector" "Agent Name" groups_df
    else groups_df in
  collectors_info <- to_dict "ID" "Agent Name" groups_df ;;
  ret (groups_df, collectors_info).

(** The visit log between the column check and the [return]. *)
Definition normalize (groups_df : DataFrame) (collectors_info : dict)
  (visit_logs_df : DataFrame) : Exc DataFrame :=
  let visit_logs_df := clean_collectors visit_logs_df in
  ids <- series "ID" groups_df ;;
  let visit_logs_df := match_roster ids visit_logs_df in
  let visit_logs_df := drop_cancelled visit_logs_df in
  let visit_logs_df := parse_times visit_logs_df in
  let visit_logs_df :=
    assign "Collector Name"
           (fun r => map_dict collectors_info (get "Collector ID" r))
           visit_logs_df in
  group_map <- to_dict "ID" "Group" groups_df ;;
  let visit_logs_df :=
    assign "Group" (fun r => map_dict group_map (get "Collector ID" r))
           visit_logs_df in
  let visit_logs_df :=
    assign "Aging"
           (fun r => str_upper (str_strip (astype_str (get "Aging" r))))
           visit_logs_df in
  ret visit_logs_df.

(** The body of the [try] block. *)
Definition load_try (visit_download_url group_download_url : string)
  : Exc loaded :=
  g <- load_groups group_download_url ;;
  let groups_df := fst g in
  let collectors_info := snd g in
  visit_logs_df <- read_excel visit_download_url 1 ;;
  let visit_logs_df := strip_columns visit_logs_df in
  if negb (forallb (fun col => has_column col visit_logs_df) required_cols)
  then ret ((None, None), [ErrMissingColumns])
  else
    visit_logs_df <- normalize groups_df collectors_info visit_logs_df ;;
    ret ((Some visit_logs_df, Some groups_df), []).

(** [try: ... except Exception as e: st.error(...); return None, None] *)
Definition except (body : Exc loaded) : loaded :=
  match body with
  | inr result => result
  | inl e => ((None, None), [ErrLoad e])
  end.

Definition load_data_from_gdrive (visit_url group_url : string)
  : Exc loaded :=
  v <- get_gdrive_download_url visit_url ;;
  g <- get_gdrive_download_url group_url ;;
  let visit_download_url := fst v in
  let group_download_url := fst g in
  let shown := (snd v ++ snd g)%list in
  if falsy visit_download_url || falsy group_download_url
  then ret ((None, None), shown)
  else
    match visit_download_url, group_download_url with
    | Some vurl, Some gurl =>
        let result := except (load_try vurl gurl) in
        ret (fst result, (shown ++ snd result)%list)
    | _, _ => ret ((None, None), shown)
    end.

End Loader.

(** ** The calendar heat map *)

Inductive color :=
| Hex (code : string)
| Hsl (hue saturation : Z) (lightness : Q).

(** [x or 1] on a number *)
Definition or_one (x : Z) : Z := if (x =? 0)%Z then 1%Z else x.

Definition get_heatmap_color (count max_count : Z) : color :=
  if (count =? 0)%Z then Hex "#F3F4F6"
  else
    let normalized :=
      (inject_Z count / inject_Z (or_one max_count) * 0.9 + 0.1)%Q in
    let lightness := (95 - normalized * 55)%Q in
    Hsl 220 80 lightness.

(** ** Counts and averages by aging bucket *)

Record aging_row (C : Type) := mk_aging_row
  { Aging : cell; Count : C; AgingSort : Z }.

Arguments mk_aging_row {C} _ _ _.
Arguments Aging {C} _.
Arguments Count {C} _.
Arguments AgingSort {C} _.

(** [table['Aging'].str.extract('(\d+)').fillna(0).astype(int)] for one
    label *)
Definition aging_sort (label : cell) : Z :=
  astype_int (fillna (Int 0) (str_extract_digits label)).

(** Lines 324 to 327 and their copies: count the labels, add the sort key
    and order by it.  [scale] is what is done to the counts in between:
    nothing in the personal view, the division in the comparison view. *)
Definition by_aging_bucket {C : Type} (scale : Z -> C) (aging : list cell)
  : list (aging_row C) :=
  let counted :=
    map (fun vc => mk_aging_row (fst vc) (scale (snd vc))
                                (aging_sort (fst vc)))
        (value_counts aging) in
  sort_values AgingSort counted.


(** The cast of an [int64] to [float64]: the nearest double, the number
    itself below [2^53].  Counts and sizes are not negative and, as
    [int64] has them, below [2^63]. *)
Definition float_of_int (z : Z) : PrimFloat.float :=
  PrimFloat.of_uint63 (Uint63.of_Z z).

(** Line 414, [count / len(comparison_collectors)] on an [int64] column:
    both sides are cast to [float64] and divided in binary64. *)
Definition true_divide (n size : Z) : PrimFloat.float :=
  PrimFloat.div (float_of_int n) (float_of_int size).

(** The number that a double stands for, [m * 2^e] with its sign; none
    for an infinity or a NaN. *)
Definition float_value (x : PrimFloat.float) : option Q :=
  match FloatOps.Prim2SF x with
  | SpecFloat.S754_zero _ => Some 0%Q
  | SpecFloat.S754_finite s m e =>
      let magnitude :=
        if (0 <=? e)%Z then inject_Z (Z.pos m * 2 ^ e)
        else Qmake (Z.pos m) (Z.to_pos (2 ^ (- e))) in
      Some (if s then Qopp magnitude else magnitude)
  | _ => None
  end.

(** The comparison view: [aging_counts_comp], each count divided by the
    size of the comparison group. *)
Definition aging_counts_comp (comp_data : DataFrame)
  (comparison_collectors : list cell)
  : Exc (option (list (aging_row PrimFloat.float)) * list message) :=
  match comparison_collectors with
  | [] => ret (None, [InfoPickComparison])
  | _ :: _ =>
      names <- series "Collector Name" comp_data ;;
      let comparison_data :=
        keep (fun r => isin comparison_collectors (get "Collector Name" r))
             comp_data in
      if empty comparison_data then ret (None, [InfoNoComparisonData])
      else
        aging <- series "Aging" comparison_data ;;
        let size := Z.of_nat (List.length comparison_collectors) in
        ret (Some (by_aging_bucket (fun n => true_divide n size) aging), [])
  end.

(** ** The loader read row by row *)

(** What [normalize] makes of one row of the visit log: [None] when a
    filter drops it, the ten cells of the normalised record otherwise.
    [normalize_rows] below proves that [normalize] does exactly this to
    every row, in order. *)
Definition normalized_row (valid : list cell) (collectors_info group_map : dict)
  (r0 : row) : option row :=
  let collector := str_strip (astype_str (get "Collector" r0)) in
  let collector_id := str_strip (str_split_first "-" collector) in
  let unit := astype_str (get "Neg Pos Unit" r0) in
  let time := to_datetime (get "Create Time" r0) in
  if isna (get "Create Time" r0) || isna (get "Collector" r0)
     || isna (get "Aging" r0)
  then None
  else if negb (isin valid collector_id) then None
  else if cell_eqb (str_strip unit) (Str "CancelRepossession") then None
  else if isna time then None
  else Some [("Collector", collector);
             ("Create Time", time);
             ("Neg Pos Unit", unit);
             ("Aging", str_upper (str_strip (astype_str (get "Aging" r0))));
             ("Contact Summary", get "Contact Summary" r0);
             ("Customer Name", get "Customer Name" r0);
             ("Collector ID", collector_id);
             ("Date", dt_date time);
             ("Collector Name", map_dict collectors_info collector_id);
             ("Group", map_dict group_map collector_id)].

Definition on_indexed (f : row -> option row) (ir : nat * row)
  : list (nat * row) :=
  match f (snd ir) with
  | Some r => [(fst ir, r)]
  | None => []
  end.

(** ** Sample workbooks *)

Definition visit_columns : list string :=
  ["Collector"; "Create Time"; "Neg Pos Unit"; "Aging"; "Contact Summary";
   "Customer Name"].

Definition visit_row (collector time unit aging summary customer : cell)
  : row :=
  [("Collector", collector); ("Create Time", time); ("Neg Pos Unit", unit);
   ("Aging", aging); ("Contact Summary", summary);
   ("Customer Name", customer)].

(** The roster and the visit log of the worked example. *)
Definition roster_101 : DataFrame :=
  mk_frame ["ID"; "Agent Name"; "Group"]
           [(0, [("ID", Str "101"); ("Agent Name", Str "A-Smith");
                 ("Group", Str "T1")])].

Definition visit_101 : DataFrame :=
  mk_frame visit_columns
           [(0, visit_row (Str "101-A-Smith") (Str "01/06/2024 09:00:00")
                          (Str "Visit") (Str "m3") (Str "ok")
                          (Str "Cust1"))].

(** The same visit with a blank aging cell. *)
Definition visit_blank_aging : DataFrame :=
  mk_frame visit_columns
           [(0, visit_row (Str "101-A-Smith") (Str "01/06/2024 09:00:00")
                          (Str "Visit") (Str "  ") (Str "ok")
                          (Str "Cust1"))].

(** Two visits, the first a cancelled repossession spelled as the
    sentinel, the second spelled in lower case. *)
Definition visit_cancelled : DataFrame :=
  mk_frame visit_columns
           [(0, visit_row (Str "101-A-Smith") (Str "01/06/2024 09:00:00")
                          (Str " CancelRepossession ") (Str "m3") (Str "ok")
                          (Str "Cust1"));
            (1, visit_row (Str "101-A-Smith") (Str "02/06/2024 10:30:00")
                          (Str "cancelrepossession") (Str "m3") (Str "ok")
                          (Str "Cust2"))].

(** A visit log without its [Aging] column, a roster without its [ID]
    column. *)
Definition visit_no_aging : DataFrame :=
  mk_frame ["Collector"; "Create Time"; "Neg Pos Unit"; "Contact Summary";
            "Customer Name"]
           [(0, [("Collector", Str "101-A-Smith");
                 ("Create Time", Str "01/06/2024 09:00:00");
                 ("Neg Pos Unit", Str "Visit"); ("Contact Summary", Str "ok");
                 ("Customer Name", Str "Cust1")])].

Definition roster_no_id : DataFrame :=
  mk_frame ["Agent Name"; "Group"]
           [(0, [("Agent Name", Str "A-Smith"); ("Group", Str "T1")])].

Definition visit_link : string :=
  "https://docs.google.com/spreadsheets/d/VISIT/edit?usp=sharing".

Definition group_link : string :=
  "https://drive.google.com/file/d/GROUP/view".

Definition visit_address : string :=
  "https://docs.google.com/spreadsheets/d/VISIT/export?format=xlsx".

Definition group_address : string :=
  "https://drive.google.com/uc?export=download&id=GROUP".

(** A drive that holds [visit] and [groups] behind the two addresses and
    nothing else. *)
Definition drive (visit groups : Exc DataFrame) (url : string) (header : nat)
  : Exc DataFrame :=
  if String.eqb url group_address then groups
  else if String.eqb url visit_address then visit
  else raise (ReadError "HTTP Error 404: Not Found").

(** The normalised table of the worked example. *)
Definition normalized_101 : DataFrame :=
  mk_frame ["Collector"; "Create Time"; "Neg Pos Unit"; "Aging";
            "Contact Summary"; "Customer Name"; "Collector ID"; "Date";
            "Collector Name"; "Group"]
           [(0, [("Collector", Str "101-A-Smith");
                 ("Create Time", Timestamp (mk_datetime 2024 6 1 9 0 0));
                 ("Neg Pos Unit", Str "Visit");
                 ("Aging", Str "M3");
                 ("Contact Summary", Str "ok");
                 ("Customer Name", Str "Cust1");
                 ("Collector ID", Str "101");
                 ("Date", Date (mk_date 2024 6 1));
                 ("Collector Name", Str "A-Smith");
                 ("Group", Str "T1")])].

(** A visit whose collector cell has no dash. *)
Definition visit_dashless : DataFrame :=
  mk_frame visit_columns
           [(0, visit_row (Str "  101 ") (Str "01/06/2024 09:00:00")
                          (Str "Visit") (Str "m3") (Str "ok")
                          (Str "Cust1"))].

(** A month of records for the charts. *)
Definition sample_records : DataFrame :=
  mk_frame ["Aging"; "Collector Name"]
           [(0, [("Aging", Str "M3"); ("Collector Name", Str "A-Smith")]);
            (1, [("Aging", Str "M2"); ("Collector Name", Str "B-Jones")]);
            (2, [("Aging", Str "M3"); ("Collector Name", Str "B-Jones")]);
            (3, [("Aging", Str "LEGAL"); ("Collector Name", Str "A-Smith")]);
            (4, [("Aging", Str "M10"); ("Collector Name", Str "C-Wu")])].

(** A comparison group of 49 collectors, of whom the first has the one
    record on file. *)
Definition group_of_49 : list cell :=
  map (fun k => Str ("C-" ++ PyStr.of_Z (Z.of_nat k))) (seq 1 49).

Definition lone_record : DataFrame :=
  mk_frame ["Aging"; "Collector Name"]
           [(0, [("Aging", Str "M3"); ("Collector Name", Str "C-1")])].

(** ** Well-formed frames and more sample workbooks *)

(** Every cell of every row sits under one of the frame's column labels,
    as in any frame that pandas builds. *)
Definition well_formed (df : DataFrame) : Prop :=
  forall ir, In ir (rows df) ->
  forall kv, In kv (snd ir) -> In (fst kv) (columns df).

(** A roster in the legacy layout, the names under [Collector]; its ids
    are numbers and its header cells carry stray blanks. *)
Definition roster_legacy : DataFrame :=
  mk_frame [" ID"; "Collector "; "Group"]
           [(0, [(" ID", Int 101); ("Collector ", Str "A-Smith");
                 ("Group", Str "T1")]);
            (1, [(" ID", Int 102); ("Collector ", Str "B-Jones");
                 ("Group", Str "T2")])].

(** Rosters without a name column, and without the team column. *)
Definition roster_no_name : DataFrame :=
  mk_frame ["ID"; "Group"]
           [(0, [("ID", Str "101"); ("Group", Str "T1")])].

Definition roster_no_group : DataFrame :=
  mk_frame ["ID"; "Agent Name"]
           [(0, [("ID", Str "101"); ("Agent Name", Str "A-Smith")])].

(** A visit whose unit type cell is empty. *)
Definition visit_no_unit : DataFrame :=
  mk_frame visit_columns
           [(0, visit_row (Str "101-A-Smith") (Str "01/06/2024 09:00:00")
                          NaN (Str "m3") NaN (Str "Cust1"))].

(** Four visits: one good, one of an agent who is not on the roster, one
    with a timestamp in another notation, one good again. *)
Definition visit_mixed : DataFrame :=
  mk_frame visit_columns
           [(0, visit_row (Str "101-A-Smith") (Str "01/06/2024 09:00:00")
                          (Str "Visit") (Str "m3") (Str "ok")
                          (Str "Cust1"));
            (1, visit_row (Str "999-Nobody") (Str "01/06/2024 10:00:00")
                          (Str "Visit") (Str "m2") (Str "ok")
                          (Str "Cust2"));
            (2, visit_row (Str "101-A-Smith") (Str "2024-06-02 09:00:00")
                          (Str "Visit") (Str "m4") (Str "ok")
                          (Str "Cust3"));
            (3, visit_row (Str "101-A-Smith") (Str "03/06/2024 09:00:00")
                          (Str "Call") (Str "m6+") (Str "ok")
                          (Str "Cust4"))].

(** ** Colours of the aging buckets *)

Record colors := mk_colors { border : string; bg : string }.

Definition default_colors : colors :=
  mk_colors "#6B7280" "rgba(107, 114, 128, 0.1)".

Definition color_map : list (string * colors) :=
  [("M2", mk_colors "#FBBF24" "rgba(251, 191, 36, 0.15)");
   ("M3", mk_colors "#F97316" "rgba(249, 115, 22, 0.15)");
   ("M4", mk_colors "#EF4444" "rgba(239, 68, 68, 0.15)");
   ("M5", mk_colors "#BE123C" "rgba(190, 18, 60, 0.15)")].

(** [d.get(key, default)] on a dictionary with text keys *)
Fixpoint get_or {A : Type} (d : list (string * A)) (key : string)
  (default : A) : A :=
  match d with
  | [] => default
  | (k, v) :: d' => if String.eqb k key then v else get_or d' key default
  end.

Definition get_aging_colors (aging_status : cell) : colors :=
  match aging_status with
  | Str text =>
      let aging_status := PyStr.upper (PyStr.strip text) in
      if PyStr.contains "M6" aging_status
      then mk_colors "#86198F" "rgba(134, 25, 143, 0.15)"
      else get_or color_map aging_status default_colors
  | _ => default_colors
  end.

(** ** The month view: counts by day and their colours *)

(** [.dt.year] and [.dt.month] *)
Definition dt_year (c : cell) : cell :=
  match c with
  | Timestamp t => Int (year t)
  | _ => NaN
  end.

Definition dt_month (c : cell) : cell :=
  match c with
  | Timestamp t => Int (month t)
  | _ => NaN
  end.

(** The order of calendar dates, for sorting by date. *)
Definition date_key (c : cell) : Z :=
  match c with
  | Date d => (d_year d * 10000 + d_month d * 100 + d_day d)%Z
  | _ => 0%Z
  end.

(** [series.groupby(series).size()] on a column of dates: every date that
    occurs, with the number of its rows, in the order of the dates. *)
Definition groupby_size (keys : list cell) : list (cell * Z) :=
  let present := filter (fun c => negb (isna c)) keys in
  sort_values (fun kc => date_key (fst kc))
              (map (fun c => (c, count_cell c present)) (unique present)).

(** Line 274: the records of the month on display, counted by day. *)
Definition daily_counts (base_filtered_data : DataFrame) (y m : Z)
  : Exc (list (cell * Z)) :=
  _ <- series "Create Time" base_filtered_data ;;
  let of_month :=
    keep (fun r => cell_eqb (dt_year (get "Create Time" r)) (Int y)
                   && cell_eqb (dt_month (get "Create Time" r)) (Int m))
         base_filtered_data in
  dates <- series "Date" of_month ;;
  ret (groupby_size dates).

(** [daily_counts.max() if not daily_counts.empty else 1] *)
Definition max_count_of (counts : list (cell * Z)) : Z :=
  match counts with
  | [] => 1%Z
  | (_, n) :: rest => fold_left Z.max (map snd rest) n
  end.

(** [daily_counts.get(day, 0)] *)
Fixpoint count_on (counts : list (cell * Z)) (day : cell) : Z :=
  match counts with
  | [] => 0%Z
  | (k, n) :: rest => if cell_eqb k day then n else count_on rest day
  end.

(** Lines 289 and 290: the colour of a day of the month. *)
Definition day_color (counts : list (cell * Z)) (day : cell) : color :=
  get_heatmap_color (count_on counts day) (max_count_of counts).

(** ** The week view: the cards of a day *)


(** A week of records for the calendar. *)
Definition sample_week : DataFrame :=
  mk_frame ["Create Time"; "Date"; "Aging"]
    [(0, [("Create Time", Timestamp (mk_datetime 2024 6 3 9 0 0));
          ("Date", Date (mk_date 2024 6 3)); ("Aging", Str "M3")]);
     (1, [("Create Time", Timestamp (mk_datetime 2024 6 3 11 30 0));
          ("Date", Date (mk_date 2024 6 3)); ("Aging", Str "M6+")]);
     (2, [("Create Time", Timestamp (mk_datetime 2024 6 4 9 0 0));
          ("Date", Date (mk_date 2024 6 4)); ("Aging", Str "M2")]);
     (3, [("Create Time", Timestamp (mk_datetime 2024 6 3 15 0 0));
          ("Date", Date (mk_date 2024 6 3)); ("Aging", Str "LEGAL")]);
     (4, [("Create Time", Timestamp (mk_datetime 2024 7 1 9 0 0));
          ("Date", Date (mk_date 2024 7 1)); ("Aging", Str "M4")])].

(** ** The calendar of the tracking tab *)

(** The dates of the session are values of [datetime.date], whose
    arithmetic is the library's and not part of the source.  It is
    modelled by the day after and the day before a day, with the
    library's ordinal and weekday beside them; that the ordinal of the
    day [n] days later is [n] more is proved below.

    [datetime.date] holds a day that is on the calendar, in a year from 1
    to 9999. *)
Definition on_calendar (d : date) : bool :=
  ((1 <=? d_month d) && (d_month d <=? 12) && (1 <=? d_day d)
   && (d_day d <=? Strptime.days_in_month (d_year d) (d_month d)))%Z.

Definition in_range (d : date) : bool :=
  ((1 <=? d_year d) && (d_year d <=? 9999))%Z.

Definition next_day (d : date) : date :=
  if (d_day d <? Strptime.days_in_month (d_year d) (d_month d))%Z
  then mk_date (d_year d) (d_month d) (d_day d + 1)
  else if (d_month d <? 12)%Z
       then mk_date (d_year d) (d_month d + 1) 1
       else mk_date (d_year d + 1) 1 1.

Definition prev_day (d : date) : date :=
  if (1 <? d_day d)%Z
  then mk_date (d_year d) (d_month d) (d_day d - 1)
  else if (1 <? d_month d)%Z
       then mk_date (d_year d) (d_month d - 1)
                    (Strptime.days_in_month (d_year d) (d_month d - 1))
       else mk_date (d_year d - 1) 12 31.

(** The day [n] days after [d], before it for a negative [n]. *)
Definition shift (d : date) (n : Z) : date :=
  if (0 <=? n)%Z then Nat.iter (Z.to_nat n) next_day d
  else Nat.iter (Z.to_nat (- n)) prev_day d.

(** [d + timedelta(days=n)]: [None] stands for the [OverflowError] of a
    result outside the years 1 to 9999. *)
Definition add_days (d : date) (n : Z) : option date :=
  let r := shift d n in
  if in_range r then Some r else None.

(** [d.replace(day=k)]: [None] stands for the [ValueError] of a day that
    the month does not have.  The year and the month are those of [d]. *)
Definition replace_day (d : date) (k : Z) : option date :=
  let r := mk_date (d_year d) (d_month d) k in
  if on_calendar r then Some r else None.

(** [d.toordinal()]: day 1 is the first of January of year 1. *)
Definition days_before_year (y : Z) : Z :=
  (365 * (y - 1) + (y - 1) / 4 - (y - 1) / 100 + (y - 1) / 400)%Z.

Definition days_before_month (y m : Z) : Z :=
  (nth (Z.to_nat (m - 1))
       [0; 31; 59; 90; 120; 151; 181; 212; 243; 273; 304; 334] 0
   + (if (2 <? m) && Strptime.is_leap y then 1 else 0))%Z.

Definition toordinal (d : date) : Z :=
  (days_before_year (d_year d) + days_before_month (d_year d) (d_month d)
   + d_day d)%Z.

(** [d.weekday()]: 0 is Monday. *)
Definition weekday (d : date) : Z := ((toordinal d + 6) mod 7)%Z.

(** Lines 222 to 225, the "previous month" button: the day before the
    first of the month on display.  The source takes the detour of a
    [datetime] at midnight, which [replace], the subtraction and [date()]
    leave at midnight; its date part is followed here. *)
Definition previous_month (current_date : date) : option date :=
  first_day_of_current_month <?- replace_day current_date 1 ;;
  add_days first_day_of_current_month (-1).

(** Lines 236 to 239, the "next month" button: four days after the 28th
    of the month on display, set back to the first of its month. *)
Definition next_month (current_date : date) : option date :=
  first_day_of_current_month <?- replace_day current_date 1 ;;
  day_28 <?- replace_day first_day_of_current_month 28 ;;
  later <?- add_days day_28 4 ;;
  replace_day later 1.

(** Lines 220 and 234, the "previous week" and "next week" buttons. *)
Definition previous_week (current_date : date) : option date :=
  add_days current_date (-7).

Definition next_week (current_date : date) : option date :=
  add_days current_date 7.

(** Lines 243 to 247: the Monday of the week on display and its seven
    days.  The last of them is also the [end_of_week] of line 244. *)
Definition start_of_week (current_date : date) : option date :=
  add_days current_date (- weekday current_date).

Fixpoint days_from (start : date) (offsets : list Z) : option (list date) :=
  match offsets with
  | [] => Some []
  | i :: rest =>
      day <?- add_days start i ;;
      days <?- days_from start rest ;;
      Some (day :: days)
  end.

Definition days_of_week (current_date : date) : option (list date) :=
  start <?- start_of_week current_date ;;
  days_from start [0; 1; 2; 3; 4; 5; 6]%Z.

(** The order of dates: by year, then month, then day. *)
Definition date_ltb (a b : date) : bool :=
  ((d_year a <? d_year b)
   || ((d_year a =? d_year b)
       && ((d_month a <? d_month b)
           || ((d_month a =? d_month b) && (d_day a <? d_day b)))))%Z.

(** ** The month view: the grid of days *)

(** A cell of the grid: a day of the month on display with its count and
    colour, or a greyed day of a neighbouring month. *)
Inductive month_cell :=
| OfMonth (day : date) (count : Z) (background : color)
| Greyed (day : date).

Definition cell_day (c : month_cell) : date :=
  match c with
  | OfMonth day _ _ => day
  | Greyed day => day
  end.

Definition of_month (c : month_cell) : bool :=
  match c with
  | OfMonth _ _ _ => true
  | Greyed _ => false
  end.

(** Lines 288 to 304: the cell drawn for [current_day]. *)
Definition draw_cell (counts : list (cell * Z)) (m : Z) (current_day : date)
  : month_cell :=
  if (d_month current_day =? m)%Z
  then OfMonth current_day (count_on counts (Date current_day))
               (day_color counts (Date current_day))
  else Greyed current_day.

(** What drawing the grid comes to: the weeks drawn, the [OverflowError]
    of a day after the year 9999, or more weeks than the bound given. *)
Inductive drawn :=
| Grid (weeks : list (list month_cell))
| Overflow
| Unfinished.

(** Lines 286 to 305: [n] cells from [current_day] on, and the day after
    them. *)
Fixpoint draw_week (n : nat) (counts : list (cell * Z)) (m : Z)
    (current_day : date) : option (list month_cell * date) :=
  match n with
  | O => Some ([], current_day)
  | S n' =>
      let c := draw_cell counts m current_day in
      next <?- add_days current_day 1 ;;
      rest <?- draw_week n' counts m next ;;
      Some (c :: fst rest, snd rest)
  end.

(** Lines 284 to 307: weeks are drawn until the day after a week is of
    another month and after the first of the month. *)
Fixpoint draw_weeks (fuel : nat) (counts : list (cell * Z))
    (first_day_of_month : date) (current_day : date) : drawn :=
  match fuel with
  | O => Unfinished
  | S fuel' =>
      match draw_week 7 counts (d_month first_day_of_month) current_day with
      | None => Overflow
      | Some (week, current_day) =>
          if negb (d_month current_day =? d_month first_day_of_month)%Z
             && date_ltb first_day_of_month current_day
          then Grid [week]
          else match draw_weeks fuel' counts first_day_of_month current_day
               with
               | Grid weeks => Grid (week :: weeks)
               | other => other
               end
      end
  end.

(** Lines 276 to 307: the grid of the month of [current_month_date].
    [replace(day=1)] raises on no date; the branch is there for the
    type. *)
Definition month_grid (fuel : nat) (counts : list (cell * Z))
    (current_month_date : date) : drawn :=
  match replace_day current_month_date 1 with
  | None => Overflow
  | Some first_day_of_month =>
      match add_days first_day_of_month (- weekday first_day_of_month) with
      | None => Overflow
      | Some start_of_calendar =>
          draw_weeks fuel counts first_day_of_month start_of_calendar
      end
  end.

(** ** The session: the view and the day on display *)

Inductive view := WeekView | MonthView.

Record session_state := mk_session
  { view_mode : view; current_date : date }.

(** Lines 147 to 150: the callback of the button under a day of the
    month view. *)
Definition switch_to_week_view (date_to_view : date) (st : session_state)
  : session_state :=
  {| view_mode := WeekView; current_date := date_to_view |}.

(** ** Measures of the calendar, for the properties below *)

Definition year_length (y : Z) : Z :=
  if Strptime.is_leap y then 366%Z else 365%Z.

(** The first day of the month after the month of [d]. *)
Definition month_after (d : date) : date :=
  if (d_month d <? 12)%Z then mk_date (d_year d) (d_month d + 1) 1
  else mk_date (d_year d + 1) 1 1.

(** The last day of the month before the month of [d]. *)
Definition month_before (d : date) : date :=
  if (1 <? d_month d)%Z
  then mk_date (d_year d) (d_month d - 1)
               (Strptime.days_in_month (d_year d) (d_month d - 1))
  else mk_date (d_year d - 1) 12 31.

(** The seven cells from the day [j] days after [first]. *)
Definition week_at (counts : list (cell * Z)) (first : date) (j : Z)
  : list month_cell :=
  map (fun t => draw_cell counts (d_month first)
                          (shift first (j + Z.of_nat t)))
      (seq 0 7).

(** The number of weeks that hold the month [m] of the year [y]. *)
Definition weeks_of (y m : Z) : nat :=
  Z.to_nat ((weekday (mk_date y m 1) + Strptime.days_in_month y m + 6) / 7).

(** ** The sidebar and the records on display *)

(** The text with the given UTF-8 bytes. *)
Definition utf8 (bytes : list nat) : string :=
  fold_right (fun b s => String (ascii_of_nat b) s) EmptyString bytes.

(** The "all teams" and "all collectors" entries of the two select
    boxes, by the bytes of their UTF-8 text. *)
Definition all_groups : string :=
  utf8 [230; 137; 128; 230; 156; 137; 229; 156; 152; 233; 154; 138].

Definition all_collectors : string :=
  utf8 [230; 137; 128; 230; 156; 137; 229; 130; 172; 230; 148; 182;
        229; 147; 161].

(** [column == value], element by element: an empty cell equals
    nothing. *)
Definition eq_value (value c : cell) : bool :=
  negb (isna c) && cell_eqb c value.

(** Line 191: the ids that the roster lists under the team. *)
Definition collector_ids_in_group (groups_info : DataFrame)
    (selected_group : cell) : Exc (list cell) :=
  _ <- series "Group" groups_info ;;
  series "ID"
         (keep (fun r => eq_value selected_group (get "Group" r))
               groups_info).

(** Line 192: the records of these ids. *)
Definition filtered_collectors (visit_logs groups_info : DataFrame)
    (selected_group : cell) : Exc DataFrame :=
  collector_ids_in_group <-
    collector_ids_in_group groups_info selected_group ;;
  _ <- series "Collector ID" visit_logs ;;
  ret (keep (fun r => isin collector_ids_in_group (get "Collector ID" r))
            visit_logs).

(** Line 193, up to the sorting: the names offered for a team other than
    "all teams".  Sorting changes their order, or raises when they are
    not all text. *)
Definition collector_names (visit_logs groups_info : DataFrame)
    (selected_group : cell) : Exc (list cell) :=
  filtered_collectors <-
    filtered_collectors visit_logs groups_info selected_group ;;
  names <- series "Collector Name" filtered_collectors ;;
  ret (unique (filter (fun c => negb (isna c)) names)).

(** Lines 201 to 205: the records on display for the two selections. *)
Definition base_filtered_data (visit_logs : DataFrame)
    (selected_group selected_collector_name : cell) : Exc DataFrame :=
  let base_filtered_data := visit_logs in
  base_filtered_data <-
    (if negb (cell_eqb selected_group (Str all_groups))
     then
       _ <- series "Group" base_filtered_data ;;
       ret (keep (fun r => eq_value selected_group (get "Group" r))
                 base_filtered_data)
     else ret base_filtered_data) ;;
  if negb (cell_eqb selected_collector_name (Str all_collectors))
  then
    _ <- series "Collector Name" base_filtered_data ;;
    ret (keep (fun r => eq_value selected_collector_name
                                 (get "Collector Name" r))
              base_filtered_data)
  else ret base_filtered_data.

(** ** The short name of a collector *)

(** [l[-1]] *)
Fixpoint item_last {A : Type} (l : list A) : Exc A :=
  match l with
  | [] => raise IndexError
  | [a] => ret a
  | _ :: l' => item_last l'
  end.

(** Lines 127 and 380: [name.split('-')[-1]], the name shown on a card
    and in the heading of the comparison, for a name that is text. *)
Definition short_name (name : string) : Exc string :=
  item_last (PyStr.split "-" name).

(** * Properties *)

(** ** Text *)

Example strip_example : PyStr.strip "  101-A Smith " = "101-A Smith".
Proof. reflexivity. Qed.

Example split_example :
  PyStr.split "-" "101-A-Smith" = ["101"; "A"; "Smith"]
  /\ PyStr.split "-" "" = [""]
  /\ PyStr.split "/d/" "https://drive.google.com/file/d/abc/view"
     = ["https://drive.google.com/file"; "abc/view"].
Proof. repeat split; reflexivity. Qed.

Example search_digits_example :
  PyStr.search_digits "M10X2" = Some "10"
  /\ PyStr.search_digits "LEGAL" = None.
Proof. split; reflexivity. Qed.

Example of_Z_example :
  PyStr.of_Z 101 = "101" /\ PyStr.of_Z 0 = "0" /\ PyStr.of_Z (-5) = "-5".
Proof. repeat split; reflexivity. Qed.

Example parse_example :
  Strptime.parse "01/06/2024 09:00:00" = Some (mk_datetime 2024 6 1 9 0 0)
  /\ Strptime.parse "1/6/2024   9:5:7" = Some (mk_datetime 2024 6 1 9 5 7)
  /\ Strptime.parse "31/02/2024 09:00:00" = None
  /\ Strptime.parse "2024-06-01 09:00:00" = None
  /\ Strptime.parse "01/06/24 09:00:00" = None.
Proof. repeat split; reflexivity. Qed.

Lemma isspace_upper_char (c : ascii) :
  PyStr.isspace (PyStr.upper_char c) = PyStr.isspace c.
Proof. destruct c as [[] [] [] [] [] [] [] []]; reflexivity. Qed.

Lemma upper_char_idem (c : ascii) :
  PyStr.upper_char (PyStr.upper_char c) = PyStr.upper_char c.
Proof. destruct c as [[] [] [] [] [] [] [] []]; reflexivity. Qed.

Lemma upper_idem (s : string) : PyStr.upper (PyStr.upper s) = PyStr.upper s.
Proof.
  induction s as [|c s IH]; simpl; [reflexivity|].
  now rewrite upper_char_idem, IH.
Qed.

Lemma is_empty_upper (s : string) :
  PyStr.is_empty (PyStr.upper s) = PyStr.is_empty s.
Proof. destruct s; reflexivity. Qed.

Lemma lstrip_upper (s : string) :
  PyStr.lstrip (PyStr.upper s) = PyStr.upper (PyStr.lstrip s).
Proof.
  induction s as [|c s IH]; simpl; [reflexivity|].
  rewrite isspace_upper_char.
  destruct (PyStr.isspace c); [exact IH | reflexivity].
Qed.

Lemma rstrip_upper (s : string) :
  PyStr.rstrip (PyStr.upper s) = PyStr.upper (PyStr.rstrip s).
Proof.
  induction s as [|c s IH]; simpl; [reflexivity|].
  rewrite IH, is_empty_upper, isspace_upper_char.
  destruct (PyStr.is_empty (PyStr.rstrip s) && PyStr.isspace c); reflexivity.
Qed.

Lemma strip_upper (s : string) :
  PyStr.strip (PyStr.upper s) = PyStr.upper (PyStr.strip s).
Proof. unfold PyStr.strip. now rewrite lstrip_upper, rstrip_upper. Qed.

Lemma rstrip_idem (s : string) : PyStr.rstrip (PyStr.rstrip s) = PyStr.rstrip s.
Proof.
  induction s as [|c s IH]; simpl; [reflexivity|].
  destruct (PyStr.is_empty (PyStr.rstrip s) && PyStr.isspace c) eqn:E;
    [reflexivity|].
  simpl. now rewrite IH, E.
Qed.

Lemma lstrip_starts_clean (s : string) : starts_clean (PyStr.lstrip s).
Proof.
  induction s as [|c s IH]; simpl; [exact I|].
  destruct (PyStr.isspace c) eqn:E; [exact IH | exact E].
Qed.

Lemma rstrip_starts_clean (s : string) :
  starts_clean s -> starts_clean (PyStr.rstrip s).
Proof.
  destruct s as [|c s]; simpl; [trivial|].
  intros H. rewrite H, andb_false_r. exact H.
Qed.

Lemma lstrip_clean (s : string) : starts_clean s -> PyStr.lstrip s = s.
Proof. destruct s as [|c s]; simpl; [trivial|]. now intros ->. Qed.

Lemma strip_idem (s : string) : PyStr.strip (PyStr.strip s) = PyStr.strip s.
Proof.
  unfold PyStr.strip.
  rewrite (lstrip_clean (PyStr.rstrip (PyStr.lstrip s))).
  - apply rstrip_idem.
  - apply rstrip_starts_clean, lstrip_starts_clean.
Qed.

Lemma strip_upper_strip (s : string) :
  PyStr.strip (PyStr.upper (PyStr.strip s)) = PyStr.upper (PyStr.strip s).
Proof. now rewrite strip_upper, strip_idem. Qed.

Lemma append_empty_r (s : string) : s ++ "" = s.
Proof. induction s as [|c s IH]; simpl; [reflexivity | now rewrite IH]. Qed.

Lemma append_assoc (a b c : string) : (a ++ b) ++ c = a ++ (b ++ c).
Proof. induction a as [|x a IH]; simpl; [reflexivity | now rewrite IH]. Qed.

(** Without the separator in it, a text is its own single piece. *)
Lemma split_go_absent (sep : string) (s cur : string) :
  PyStr.contains sep s = false ->
  PyStr.split_go sep 0 cur s = [cur ++ s].
Proof.
  revert cur. induction s as [|c s IH]; intros cur H.
  - simpl. now rewrite append_empty_r.
  - cbn [PyStr.contains] in H. apply orb_false_iff in H as [Hp Hc].
    cbn [PyStr.split_go]. rewrite Hp, (IH _ Hc), append_assoc. reflexivity.
Qed.

Lemma split_absent (sep s : string) :
  PyStr.contains sep s = false -> PyStr.split sep s = [s].
Proof. intros H. unfold PyStr.split. now rewrite split_go_absent. Qed.

(** With the separator in it, a text has at least two pieces. *)
Lemma split_go_nonempty (sep : string) (s : string) (k : nat) (cur : string) :
  PyStr.split_go sep k cur s <> [].
Proof.
  revert k cur. induction s as [|c s IH]; intros k cur; cbn [PyStr.split_go].
  - discriminate.
  - destruct k; [|apply IH].
    destruct (String.prefix sep (String c s)); [discriminate | apply IH].
Qed.

Lemma split_go_present (x : ascii) (sep' : string) (s cur : string) :
  PyStr.contains (String x sep') s = true ->
  exists a b rest,
    PyStr.split_go (String x sep') 0 cur s = a :: b :: rest.
Proof.
  revert cur. induction s as [|c s IH]; intros cur H.
  - discriminate H.
  - cbn [PyStr.contains] in H. cbn [PyStr.split_go].
    destruct (String.prefix (String x sep') (String c s)) eqn:Hp.
    + destruct (PyStr.split_go (String x sep')
                  (String.length (String x sep') - 1) "" s) as [|b rest] eqn:E.
      * now apply split_go_nonempty in E.
      * now exists cur, b, rest.
    + simpl in H. now apply IH.
Qed.

Lemma prefix_contains (a b s : string) :
  String.prefix (a ++ b) s = true -> PyStr.contains b s = true.
Proof.
  revert s. induction a as [|x a IH]; intros s H.
  - simpl in H. destruct s; cbn [PyStr.contains]; now rewrite H.
  - destruct s as [|c s]; simpl in H; [discriminate|].
    destruct (Ascii.ascii_dec x c); [|discriminate].
    cbn [PyStr.contains]. rewrite (IH _ H). apply orb_true_r.
Qed.

Lemma contains_suffix (a b s : string) :
  PyStr.contains (a ++ b) s = true -> PyStr.contains b s = true.
Proof.
  induction s as [|c s IH]; intros H.
  - cbn [PyStr.contains] in H. rewrite orb_false_r in H.
    now apply prefix_contains in H.
  - cbn [PyStr.contains] in H. apply orb_true_iff in H as [H|H].
    + now apply prefix_contains in H.
    + cbn [PyStr.contains]. rewrite (IH H). apply orb_true_r.
Qed.

(** ** The source resolver *)

Lemma item_second {A : Type} (a b : A) (rest : list A) :
  item (a :: b :: rest) 1 = inr b.
Proof. reflexivity. Qed.

Lemma file_id_of_total (share_link : string) :
  PyStr.contains "/d/" share_link = true ->
  exists file_id, file_id_of share_link = inr file_id.
Proof.
  intros H. unfold file_id_of, PyStr.split.
  destruct (split_go_present _ _ _ "" H) as (a & b & rest & ->).
  rewrite item_second. cbn [bind].
  destruct (PyStr.split_go "/" 0 "" b) as [|piece pieces] eqn:E.
  - now apply split_go_nonempty in E.
  - exists piece. reflexivity.
Qed.

(** The resolver never raises, and what it resolves to is an address
    shown without any message. *)
Lemma get_gdrive_download_url_total (share_link : string) :
  (exists url, get_gdrive_download_url share_link = inr (Some url, [])
               /\ falsy (Some url) = false)
  \/ get_gdrive_download_url share_link
     = inr (None, [WarnBadLink share_link]).
Proof.
  unfold get_gdrive_download_url.
  destruct (PyStr.contains "spreadsheets/d/" share_link) eqn:H1.
  - left. apply (contains_suffix "spreadsheets" "/d/") in H1.
    destruct (file_id_of_total _ H1) as (file_id & ->).
    eexists. split; reflexivity.
  - destruct (PyStr.contains "file/d/" share_link) eqn:H2.
    + left. apply (contains_suffix "file" "/d/") in H2.
      destruct (file_id_of_total _ H2) as (file_id & ->).
      eexists. split; reflexivity.
    + right. reflexivity.
Qed.

(** ** Rows and frames *)

Lemma cell_eqb_eq (a b : cell) : cell_eqb a b = true <-> a = b.
Proof.
  split.
  - destruct a as [|s|x|[y1 m1 d1 h1 n1 s1]|[y1 m1 d1]],
             b as [|t|y|[y2 m2 d2 h2 n2 s2]|[y2 m2 d2]];
      simpl; try discriminate; try reflexivity.
    + intros H. apply String.eqb_eq in H. now subst.
    + intros H. apply Z.eqb_eq in H. now subst.
    + unfold datetime_eqb; simpl. intros H.
      repeat (apply andb_true_iff in H as [H ?]).
      repeat match goal with E : (_ =? _)%Z = true |- _ =>
                               apply Z.eqb_eq in E end.
      now subst.
    + unfold date_eqb; simpl. intros H.
      repeat (apply andb_true_iff in H as [H ?]).
      repeat match goal with E : (_ =? _)%Z = true |- _ =>
                               apply Z.eqb_eq in E end.
      now subst.
  - intros <-.
    destruct a as [|s|x|[y1 m1 d1 h1 n1 s1]|[y1 m1 d1]]; simpl.
    + reflexivity.
    + apply String.eqb_refl.
    + apply Z.eqb_refl.
    + unfold datetime_eqb; simpl. now rewrite !Z.eqb_refl.
    + unfold date_eqb; simpl. now rewrite !Z.eqb_refl.
Qed.

Lemma cell_eqb_refl (a : cell) : cell_eqb a a = true.
Proof. now apply cell_eqb_eq. Qed.

Lemma cell_eqb_sym (a b : cell) : cell_eqb a b = cell_eqb b a.
Proof.
  destruct (cell_eqb a b) eqn:E.
  - apply cell_eqb_eq in E. subst. symmetry. apply cell_eqb_refl.
  - destruct (cell_eqb b a) eqn:E'; [|reflexivity].
    apply cell_eqb_eq in E'. subst. now rewrite cell_eqb_refl in E.
Qed.

Lemma isin_In (values : list cell) (c : cell) :
  isin values c = true <-> In c values.
Proof.
  unfold isin. rewrite existsb_exists. split.
  - intros (x & Hx & E). apply cell_eqb_eq in E. now subst.
  - intros H. exists c. split; [exact H | apply cell_eqb_refl].
Qed.

Lemma unique_go_In (l seen : list cell) (c : cell) :
  In c (unique_go seen l) <-> In c l /\ ~ In c seen.
Proof.
  revert seen. induction l as [|x l IH]; intros seen; simpl.
  - tauto.
  - destruct (isin seen x) eqn:E.
    + apply isin_In in E. rewrite IH. split.
      * tauto.
      * intros [[<-|H] Hn]; [contradiction | tauto].
    + assert (Hx : ~ In x seen).
      { intros H. apply isin_In in H. congruence. }
      simpl. rewrite IH. simpl. split.
      * intros [<-|[H Hn]]; [tauto|]. split; [tauto|]. intros ?. tauto.
      * intros [[<-|H] Hn]; [tauto|].
        destruct (cell_eqb x c) eqn:Exc.
        -- apply cell_eqb_eq in Exc. tauto.
        -- right. split; [exact H|]. intros [->|?]; [|contradiction].
           now rewrite cell_eqb_refl in Exc.
Qed.

Lemma unique_In (l : list cell) (c : cell) : In c (unique l) <-> In c l.
Proof. unfold unique. rewrite unique_go_In. simpl. tauto. Qed.

Lemma isin_unique (l : list cell) (c : cell) :
  isin (unique l) c = true <-> In c l.
Proof. now rewrite isin_In, unique_In. Qed.

Lemma normalize_rows (groups_df : DataFrame) (collectors_info : dict)
  (visit_logs_df out : DataFrame) :
  normalize groups_df collectors_info visit_logs_df = inr out ->
  exists ids group_map,
    series "ID" groups_df = inr ids
    /\ to_dict "ID" "Group" groups_df = inr group_map
    /\ rows out
       = flat_map (on_indexed (normalized_row (unique ids) collectors_info
                                              group_map))
                  (rows visit_logs_df).
Proof.
  unfold normalize. intros H.
  destruct (series "ID" groups_df) as [e|ids]; [discriminate|].
  cbn [bind] in H.
  destruct (to_dict "ID" "Group" groups_df) as [e|group_map]; [discriminate|].
  cbn [bind ret] in H. injection H as <-.
  exists ids, group_map. repeat split.
  unfold clean_collectors, match_roster, drop_cancelled, parse_times.
  simpl.
  induction (rows visit_logs_df) as [|[i r0] l IH]; [reflexivity|].
  cbn [flat_map]. rewrite <- IH. clear IH.
  unfold on_indexed, normalized_row. simpl.
  destruct (isna (get "Create Time" r0)); [reflexivity|].
  destruct (isna (get "Collector" r0)); [reflexivity|].
  destruct (isna (get "Aging" r0)); [reflexivity|].
  simpl.
  destruct (isin (unique ids) _); simpl; [|reflexivity].
  destruct (PyStr.strip (str (get "Neg Pos Unit" r0)) =? "CancelRepossession");
    simpl; [reflexivity|].
  destruct (isna (to_datetime _)); simpl; reflexivity.
Qed.

Lemma in_flat_map_indexed (f : row -> option row) (l : list (nat * row))
  (i : nat) (r : row) :
  In (i, r) (flat_map (on_indexed f) l)
  <-> exists r0, In (i, r0) l /\ f r0 = Some r.
Proof.
  rewrite in_flat_map. unfold on_indexed. split.
  - intros ([j r0] & Hin & H). simpl in H.
    destruct (f r0) as [r'|] eqn:E; [|contradiction].
    destruct H as [H|[]]. injection H as -> ->. now exists r0.
  - intros (r0 & Hin & E). exists (i, r0). split; [exact Hin|].
    simpl. rewrite E. now left.
Qed.

(** Reading [normalized_row] backwards: what a kept row says about the
    raw row it comes from. *)
Lemma normalized_row_inv (valid : list cell) (collectors_info group_map : dict)
  (r0 r : row) :
  normalized_row valid collectors_info group_map r0 = Some r ->
  isna (get "Create Time" r0) = false
  /\ isna (get "Collector" r0) = false
  /\ isna (get "Aging" r0) = false
  /\ isin valid (get "Collector ID" r) = true
  /\ PyStr.strip (str (get "Neg Pos Unit" r0)) <> "CancelRepossession"
  /\ isna (get "Create Time" r) = false
  /\ get "Collector" r = Str (PyStr.strip (str (get "Collector" r0)))
  /\ get "Collector ID" r
     = str_strip (str_split_first "-" (get "Collector" r))
  /\ get "Create Time" r = to_datetime (get "Create Time" r0)
  /\ get "Neg Pos Unit" r = Str (str (get "Neg Pos Unit" r0))
  /\ get "Aging" r
     = Str (PyStr.upper (PyStr.strip (str (get "Aging" r0))))
  /\ get "Date" r = dt_date (get "Create Time" r)
  /\ get "Collector Name" r = map_dict collectors_info (get "Collector ID" r)
  /\ get "Group" r = map_dict group_map (get "Collector ID" r).
Proof.
  unfold normalized_row.
  destruct (isna (get "Create Time" r0)) eqn:E1; [discriminate|].
  destruct (isna (get "Collector" r0)) eqn:E2; [discriminate|].
  destruct (isna (get "Aging" r0)) eqn:E3; [discriminate|].
  cbn [orb].
  destruct (isin valid _) eqn:E4; [|discriminate]. cbn [negb].
  destruct (cell_eqb _ (Str "CancelRepossession")) eqn:E5; [discriminate|].
  destruct (isna (to_datetime _)) eqn:E6; [discriminate|].
  intros H. injection H as <-.
  repeat split; try reflexivity; try assumption.
  intros Heq. unfold astype_str, str_strip in E5. cbn [cell_eqb] in E5.
  rewrite Heq in E5. discriminate E5.
Qed.

(** ** The loader *)

Section LoaderFacts.

Variable read_excel : string -> nat -> Exc DataFrame.

Lemma resolved_truthy (share_link url : string) (shown : list message) :
  get_gdrive_download_url share_link = inr (Some url, shown) ->
  shown = [] /\ falsy (Some url) = false.
Proof.
  intros H.
  destruct (get_gdrive_download_url_total share_link) as [(u & E & F)|E];
    rewrite E in H; [|discriminate].
  injection H as -> <-. now split.
Qed.

(** With both links resolved, the loader is its [try] block under the
    [except] clause. *)
Lemma load_resolved (visit_url group_url vurl gurl : string) :
  get_gdrive_download_url visit_url = inr (Some vurl, []) ->
  get_gdrive_download_url group_url = inr (Some gurl, []) ->
  load_data_from_gdrive read_excel visit_url group_url
  = inr (except (load_try read_excel vurl gurl)).
Proof.
  intros Hv Hg. unfold load_data_from_gdrive.
  rewrite Hv, Hg. cbn [bind fst snd app].
  destruct (resolved_truthy _ _ _ Hv) as [_ ->].
  destruct (resolved_truthy _ _ _ Hg) as [_ ->].
  cbn [orb ret]. now destruct (except (load_try read_excel vurl gurl)).
Qed.

(** With a link that does not resolve, the loader stops before any
    read. *)
Lemma load_unresolved (visit_url group_url : string) :
  get_gdrive_download_url visit_url = inr (None, [WarnBadLink visit_url])
  \/ get_gdrive_download_url group_url = inr (None, [WarnBadLink group_url]) ->
  exists shown,
    load_data_from_gdrive read_excel visit_url group_url
    = inr ((None, None), shown).
Proof.
  intros H. unfold load_data_from_gdrive.
  destruct (get_gdrive_download_url_total visit_url) as [(u & Ev & Fv)|Ev],
           (get_gdrive_download_url_total group_url) as [(w & Eg & Fg)|Eg];
    rewrite Ev, Eg; cbn [bind fst snd].
  - destruct H as [H|H]; [rewrite Ev in H | rewrite Eg in H]; discriminate.
  - rewrite Fv. cbn [falsy orb]. eexists. reflexivity.
  - cbn [falsy orb]. eexists. reflexivity.
  - cbn [falsy orb]. eexists. reflexivity.
Qed.

Lemma load_try_cases (vurl gurl : string) :
  (exists e, load_try read_excel vurl gurl = inl e)
  \/ load_try read_excel vurl gurl = inr ((None, None), [ErrMissingColumns])
  \/ (exists groups_df collectors_info raw visit,
        load_groups read_excel gurl = inr (groups_df, collectors_info)
        /\ read_excel vurl 1 = inr raw
        /\ forallb (fun col => has_column col (strip_columns raw))
                   required_cols = true
        /\ normalize groups_df collectors_info (strip_columns raw) = inr visit
        /\ load_try read_excel vurl gurl
           = inr ((Some visit, Some groups_df), [])).
Proof.
  unfold load_try.
  destruct (load_groups read_excel gurl) as [e|[groups_df ci]] eqn:Eg;
    cbn [bind]; [left; now exists e|].
  destruct (read_excel vurl 1) as [e|raw] eqn:Er;
    cbn [bind]; [left; now exists e|].
  destruct (forallb _ required_cols) eqn:Ec; cbn [negb].
  - cbn [fst snd].
    destruct (normalize groups_df ci (strip_columns raw)) as [e|visit] eqn:En;
      cbn [bind]; [left; now exists e|].
    right; right. exists groups_df, ci, raw, visit. now repeat split.
  - right; left. reflexivity.
Qed.

(** What a successful load went through. *)
Lemma load_success_inv (visit_url group_url : string)
  (visit groups : DataFrame) (shown : list message) :
  load_data_from_gdrive read_excel visit_url group_url
  = inr ((Some visit, Some groups), shown) ->
  exists vurl gurl collectors_info raw,
    get_gdrive_download_url visit_url = inr (Some vurl, [])
    /\ get_gdrive_download_url group_url = inr (Some gurl, [])
    /\ load_groups read_excel gurl = inr (groups, collectors_info)
    /\ read_excel vurl 1 = inr raw
    /\ normalize groups collectors_info (strip_columns raw) = inr visit
    /\ shown = [].
Proof.
  intros H.
  destruct (get_gdrive_download_url_total visit_url) as [(vurl & Ev & _)|Ev];
    [|destruct (load_unresolved visit_url group_url (or_introl Ev)) as [s E];
      rewrite E in H; discriminate].
  destruct (get_gdrive_download_url_total group_url) as [(gurl & Eg & _)|Eg];
    [|destruct (load_unresolved visit_url group_url (or_intror Eg)) as [s E];
      rewrite E in H; discriminate].
  rewrite (load_resolved _ _ _ _ Ev Eg) in H.
  destruct (load_try_cases vurl gurl)
    as [[e E]|[E|(g & ci & raw & v & Hg & Hr & _ & Hn & E)]];
    rewrite E in H; cbn [except] in H; try discriminate.
  injection H as <- <- <-.
  exists vurl, gurl, ci, raw. now repeat split.
Qed.

Lemma load_groups_inv (gurl : string) (groups : DataFrame)
  (collectors_info : dict) :
  load_groups read_excel gurl = inr (groups, collectors_info) ->
  to_dict "ID" "Agent Name" groups = inr collectors_info.
Proof.
  unfold load_groups. intros H.
  destruct (read_excel gurl 0) as [e|raw]; [discriminate|]. cbn [bind] in H.
  destruct (series "ID" (strip_columns raw)) as [e|ids];
    [discriminate|]. cbn [bind] in H.
  match type of H with
  | bind (to_dict _ _ ?g) _ = _ =>
      destruct (to_dict "ID" "Agent Name" g) as [e|ci] eqn:E;
      [discriminate|]; cbn [bind ret] in H
  end.
  injection H as <- <-. exact E.
Qed.

End LoaderFacts.

Lemma to_datetime_cases (c : cell) :
  to_datetime c = NaN \/ exists t, to_datetime c = Timestamp t.
Proof.
  destruct c as [|s|z|t|d]; cbn [to_datetime].
  - now left.
  - destruct (Strptime.parse _) as [t|]; [right; now exists t | now left].
  - destruct (Strptime.parse _) as [t|]; [right; now exists t | now left].
  - right. now exists t.
  - right. eexists. reflexivity.
Qed.

(** ** Dictionaries *)

Lemma dict_get_set_same (k v : cell) (d : dict) :
  dict_get k (dict_set k v d) = Some v.
Proof.
  induction d as [|[k' v'] d IH]; simpl.
  - now rewrite cell_eqb_refl.
  - destruct (cell_eqb k' k) eqn:E; simpl; rewrite E; [reflexivity | exact IH].
Qed.

Lemma dict_get_set_other (k k0 v : cell) (d : dict) :
  cell_eqb k0 k = false -> dict_get k (dict_set k0 v d) = dict_get k d.
Proof.
  intros Hne. induction d as [|[k' v'] d IH]; simpl.
  - now rewrite Hne.
  - destruct (cell_eqb k' k0) eqn:E; simpl.
    + apply cell_eqb_eq in E. subst k'. now rewrite Hne.
    + destruct (cell_eqb k' k); [reflexivity | exact IH].
Qed.

Lemma dict_get_set_some (k k0 v : cell) (d : dict) :
  (exists x, dict_get k d = Some x) ->
  exists x, dict_get k (dict_set k0 v d) = Some x.
Proof.
  intros H. destruct (cell_eqb k0 k) eqn:E.
  - apply cell_eqb_eq in E. subst. exists v. apply dict_get_set_same.
  - now rewrite dict_get_set_other.
Qed.

Lemma fold_dict_set_keys (key value : row -> cell) (l : list (nat * row))
  (d : dict) (k : cell) :
  (exists ir, In ir l /\ key (snd ir) = k) \/ (exists x, dict_get k d = Some x) ->
  exists x,
    dict_get k (fold_left (fun d ir => dict_set (key (snd ir))
                                                (value (snd ir)) d) l d)
    = Some x.
Proof.
  revert d. induction l as [|ir0 l IH]; intros d H; simpl.
  - destruct H as [(ir & [] & _)|H]. exact H.
  - apply IH. destruct H as [(ir & [<-|Hin] & Hk)|H].
    + right. rewrite Hk. eexists. apply dict_get_set_same.
    + left. now exists ir.
    + right. now apply dict_get_set_some.
Qed.

(** Every value of the key column is a key of the dictionary. *)
Lemma to_dict_keys (key value : string) (df : DataFrame) (d : dict)
  (ids : list cell) :
  to_dict key value df = inr d ->
  series key df = inr ids ->
  forall k, In k ids -> exists x, dict_get k d = Some x.
Proof.
  unfold to_dict, series. intros Hd Hs k Hk.
  destruct (has_column key df); [|discriminate]. cbn [negb] in Hd.
  destruct (has_column value df); [|discriminate]. cbn [negb ret] in Hd.
  injection Hd as <-. injection Hs as <-.
  apply (fold_dict_set_keys (get key) (get value)). left.
  apply in_map_iff in Hk as (ir & Hk & Hin). now exists ir.
Qed.

Lemma upper_empty (s : string) : PyStr.upper s = "" <-> s = "".
Proof. destruct s; simpl; split; intros H; try reflexivity; discriminate. Qed.

Lemma in_strip_columns (df : DataFrame) (i : nat) (r : row) :
  In (i, r) (rows (strip_columns df)) ->
  In i (map fst (rows df)).
Proof.
  unfold strip_columns. cbn [rows]. intros H.
  apply in_map_iff in H as ([j r0] & E & Hin). injection E as <- _.
  apply in_map_iff. now exists (j, r0).
Qed.

Lemma strip_columns_index (df : DataFrame) :
  map fst (rows (strip_columns df)) = map fst (rows df).
Proof.
  unfold strip_columns. cbn [rows]. rewrite map_map. reflexivity.
Qed.

(** With distinct index labels, a label names one row. *)
Lemma NoDup_index_unique (l : list (nat * row)) (i : nat) (r r' : row) :
  NoDup (map fst l) -> In (i, r) l -> In (i, r') l -> r = r'.
Proof.
  induction l as [|[j x] l IH]; simpl; [contradiction|].
  intros Hnd H H'. inversion Hnd as [|? ? Hj Hnd']; subst.
  destruct H as [H|H], H' as [H'|H'].
  - congruence.
  - injection H as -> ->. exfalso. apply Hj.
    apply in_map_iff. now exists (i, r').
  - injection H' as -> ->. exfalso. apply Hj.
    apply in_map_iff. now exists (i, r).
  - now apply IH.
Qed.

(** ** The claims on the loader *)

(** C1, as amended.  In the table that [load_data_from_gdrive] returns,
    every row has an agent id that is an [ID] of the returned roster and a
    key of the id-to-name lookup, a timestamp that is the parse of its raw
    cell, and an aging bucket that is trimmed upper-case text: the text of
    a raw aging cell that was not missing, trimmed and upper-cased.  The
    bucket is empty exactly when that raw text is all whitespace. *)
Theorem normalized_row_invariants
  (read_excel : string -> nat -> Exc DataFrame) (visit_url group_url : string)
  (visit groups : DataFrame) (shown : list message) :
  load_data_from_gdrive read_excel visit_url group_url
  = inr ((Some visit, Some groups), shown) ->
  exists vurl raw ids collectors_info,
    get_gdrive_download_url visit_url = inr (Some vurl, [])
    /\ read_excel vurl 1 = inr raw
    /\ series "ID" groups = inr ids
    /\ to_dict "ID" "Agent Name" groups = inr collectors_info
    /\ forall i r, In (i, r) (rows visit) ->
         exists r0 name t a,
           In (i, r0) (rows (strip_columns raw))
           /\ In (get "Collector ID" r) ids
           /\ dict_get (get "Collector ID" r) collectors_info = Some name
           /\ get "Create Time" r = Timestamp t
           /\ to_datetime (get "Create Time" r0) = Timestamp t
           /\ get "Aging" r = Str a
           /\ PyStr.strip a = a
           /\ PyStr.upper a = a
           /\ isna (get "Aging" r0) = false
           /\ a = PyStr.upper (PyStr.strip (str (get "Aging" r0)))
           /\ (a = "" <-> PyStr.strip (str (get "Aging" r0)) = "").
Proof.
  intros H.
  apply load_success_inv in H
    as (vurl & gurl & ci & raw & Hv & Hg & Hgroups & Hraw & Hnorm & ->).
  apply load_groups_inv in Hgroups.
  apply normalize_rows in Hnorm as (ids & gm & Hids & Hgm & Hrows).
  exists vurl, raw, ids, ci. repeat (split; [assumption|]).
  intros i r Hin. rewrite Hrows in Hin.
  apply in_flat_map_indexed in Hin as (r0 & Hin0 & Hrow).
  apply normalized_row_inv in Hrow
    as (_ & _ & Ha & Hid & _ & Ht & _ & _ & Htime & _ & Haging & _).
  apply isin_unique in Hid.
  destruct (to_dict_keys _ _ _ _ _ Hgroups Hids _ Hid) as [name Hname].
  destruct (to_datetime_cases (get "Create Time" r0)) as [E|[t E]].
  { rewrite E in Htime. rewrite Htime in Ht. discriminate Ht. }
  exists r0, name, t, (PyStr.upper (PyStr.strip (str (get "Aging" r0)))).
  repeat split; try assumption.
  - now rewrite Htime.
  - apply strip_upper_strip.
  - apply upper_idem.
  - apply upper_empty.
  - apply upper_empty.
Qed.

Lemma normalized_row_invariants_witness :
  load_data_from_gdrive (drive (inr visit_101) (inr roster_101))
                        visit_link group_link
  = inr ((Some normalized_101, Some roster_101), [])
  /\ exists vurl raw ids collectors_info,
       get_gdrive_download_url visit_link = inr (Some vurl, [])
       /\ drive (inr visit_101) (inr roster_101) vurl 1 = inr raw
       /\ series "ID" roster_101 = inr ids
       /\ to_dict "ID" "Agent Name" roster_101 = inr collectors_info
       /\ forall i r, In (i, r) (rows normalized_101) ->
            exists r0 name t a,
              In (i, r0) (rows (strip_columns raw))
              /\ In (get "Collector ID" r) ids
              /\ dict_get (get "Collector ID" r) collectors_info = Some name
              /\ get "Create Time" r = Timestamp t
              /\ to_datetime (get "Create Time" r0) = Timestamp t
              /\ get "Aging" r = Str a
              /\ PyStr.strip a = a
              /\ PyStr.upper a = a
              /\ isna (get "Aging" r0) = false
              /\ a = PyStr.upper (PyStr.strip (str (get "Aging" r0)))
              /\ (a = "" <-> PyStr.strip (str (get "Aging" r0)) = "").
Proof.
  split; [vm_compute; reflexivity|].
  apply (normalized_row_invariants
           (drive (inr visit_101) (inr roster_101)) visit_link group_link
           normalized_101 roster_101 []).
  vm_compute. reflexivity.
Defined.

(** C1 as stated fails: a raw aging cell of blanks is not dropped, its row
    is kept with an empty aging bucket. *)
Lemma blank_aging_is_carried :
  exists visit r,
    load_data_from_gdrive (drive (inr visit_blank_aging) (inr roster_101))
                          visit_link group_link
    = inr ((Some visit, Some roster_101), [])
    /\ rows visit = [(0, r)]
    /\ get "Aging" r = Str "".
Proof.
  eexists. eexists. split; [vm_compute; reflexivity|].
  split; reflexivity.
Qed.

Section LoaderSteps.

Variable read_excel : string -> nat -> Exc DataFrame.

Lemma load_groups_missing_id (gurl : string) (roster : DataFrame) :
  read_excel gurl 0 = inr roster ->
  has_column "ID" (strip_columns roster) = false ->
  load_groups read_excel gurl = inl (KeyError "ID").
Proof.
  intros Hr Hid. unfold load_groups, series. rewrite Hr. cbn [bind].
  rewrite Hid. reflexivity.
Qed.

Lemma load_try_groups_raise (vurl gurl : string) (e : exn) :
  load_groups read_excel gurl = inl e ->
  load_try read_excel vurl gurl = inl e.
Proof. intros H. unfold load_try. rewrite H. reflexivity. Qed.

Lemma load_try_visit_raise (vurl gurl : string) (groups : DataFrame)
  (collectors_info : dict) (e : exn) :
  load_groups read_excel gurl = inr (groups, collectors_info) ->
  read_excel vurl 1 = inl e ->
  load_try read_excel vurl gurl = inl e.
Proof. intros Hg Hv. unfold load_try. rewrite Hg. cbn [bind]. now rewrite Hv. Qed.

Lemma load_try_checked (vurl gurl : string) (groups raw : DataFrame)
  (collectors_info : dict) :
  load_groups read_excel gurl = inr (groups, collectors_info) ->
  read_excel vurl 1 = inr raw ->
  load_try read_excel vurl gurl
  = if forallb (fun col => has_column col (strip_columns raw)) required_cols
    then
      visit <- normalize groups collectors_info (strip_columns raw) ;;
      ret ((Some visit, Some groups), [])
    else ret ((None, None), [ErrMissingColumns]).
Proof.
  intros Hg Hv. unfold load_try. rewrite Hg. cbn [bind]. rewrite Hv.
  cbn [bind fst snd]. now destruct (forallb _ required_cols).
Qed.

End LoaderSteps.

(** C3.  With the roster and the visit log of the worked example behind
    the two links, the loader returns one normalised record, with agent id
    101, aging bucket M3, date 2024-06-01 and team T1. *)
Theorem worked_example
  (read_excel : string -> nat -> Exc DataFrame)
  (visit_url group_url vurl gurl : string) :
  get_gdrive_download_url visit_url = inr (Some vurl, []) ->
  get_gdrive_download_url group_url = inr (Some gurl, []) ->
  read_excel gurl 0 = inr roster_101 ->
  read_excel vurl 1 = inr visit_101 ->
  load_data_from_gdrive read_excel visit_url group_url
  = inr ((Some normalized_101, Some roster_101), [])
  /\ exists r,
       rows normalized_101 = [(0, r)]
       /\ get "Collector ID" r = Str "101"
       /\ get "Aging" r = Str "M3"
       /\ get "Date" r = Date (mk_date 2024 6 1)
       /\ get "Group" r = Str "T1".
Proof.
  intros Hv Hg Hroster Hvisit. split.
  - rewrite (load_resolved _ _ _ _ _ Hv Hg).
    assert (Hgroups : load_groups read_excel gurl
                      = inr (roster_101,
                             [(Str "101", Str "A-Smith")])).
    { unfold load_groups. rewrite Hroster. reflexivity. }
    rewrite (load_try_checked _ _ _ _ _ _ Hgroups Hvisit). reflexivity.
  - eexists. split; [reflexivity|]. repeat split.
Qed.

Lemma worked_example_witness :
  get_gdrive_download_url visit_link = inr (Some visit_address, [])
  /\ get_gdrive_download_url group_link = inr (Some group_address, [])
  /\ load_data_from_gdrive (drive (inr visit_101) (inr roster_101))
                           visit_link group_link
     = inr ((Some normalized_101, Some roster_101), []).
Proof.
  split; [reflexivity|]. split; [reflexivity|].
  apply (worked_example (drive (inr visit_101) (inr roster_101))
                        visit_link group_link visit_address group_address);
    reflexivity.
Defined.

(** C2, as amended.  A row whose unit type, as text and trimmed, is
    exactly [CancelRepossession] is not in the table the loader returns:
    every row of the table stems from a raw row with the same index label
    whose trimmed unit type differs from the sentinel, and, the index
    labels of the raw table being distinct, no row of the table carries
    the label of a raw row with the sentinel.  Surrounding whitespace is
    ignored, letter case is not. *)
Theorem cancelled_rows_excluded
  (read_excel : string -> nat -> Exc DataFrame) (visit_url group_url : string)
  (visit groups : DataFrame) (shown : list message) :
  load_data_from_gdrive read_excel visit_url group_url
  = inr ((Some visit, Some groups), shown) ->
  exists vurl raw,
    get_gdrive_download_url visit_url = inr (Some vurl, [])
    /\ read_excel vurl 1 = inr raw
    /\ (forall i r, In (i, r) (rows visit) ->
          exists r0,
            In (i, r0) (rows (strip_columns raw))
            /\ get "Neg Pos Unit" r = Str (str (get "Neg Pos Unit" r0))
            /\ PyStr.strip (str (get "Neg Pos Unit" r0))
               <> "CancelRepossession")
    /\ (NoDup (map fst (rows raw)) ->
        forall i r0,
          In (i, r0) (rows (strip_columns raw)) ->
          PyStr.strip (str (get "Neg Pos Unit" r0)) = "CancelRepossession" ->
          ~ In i (map fst (rows visit))).
Proof.
  intros H.
  apply load_success_inv in H
    as (vurl & gurl & ci & raw & Hv & Hg & Hgroups & Hraw & Hnorm & ->).
  apply normalize_rows in Hnorm as (ids & gm & Hids & Hgm & Hrows).
  exists vurl, raw. repeat (split; [assumption|]).
  assert (Hkept : forall i r, In (i, r) (rows visit) ->
            exists r0,
              In (i, r0) (rows (strip_columns raw))
              /\ get "Neg Pos Unit" r = Str (str (get "Neg Pos Unit" r0))
              /\ PyStr.strip (str (get "Neg Pos Unit" r0))
                 <> "CancelRepossession").
  { intros i r Hin. rewrite Hrows in Hin.
    apply in_flat_map_indexed in Hin as (r0 & Hin0 & Hrow).
    apply normalized_row_inv in Hrow
      as (_ & _ & _ & _ & Hunit & _ & _ & _ & _ & Hu & _).
    now exists r0. }
  split; [exact Hkept|].
  intros Hnd i r0 Hin0 Hsentinel Hin.
  apply in_map_iff in Hin as ([j r] & Hj & Hin). simpl in Hj. subst j.
  destruct (Hkept i r Hin) as (r1 & Hin1 & _ & Hne).
  rewrite <- strip_columns_index in Hnd.
  rewrite (NoDup_index_unique _ _ _ _ Hnd Hin0 Hin1) in Hsentinel.
  contradiction.
Qed.

(** The table made of [visit_cancelled]: the row spelled in lower case. *)
Lemma load_visit_cancelled :
  load_data_from_gdrive (drive (inr visit_cancelled) (inr roster_101))
                        visit_link group_link
  = inr ((Some
            (mk_frame (columns normalized_101)
               [(1, [("Collector", Str "101-A-Smith");
                     ("Create Time", Timestamp (mk_datetime 2024 6 2 10 30 0));
                     ("Neg Pos Unit", Str "cancelrepossession");
                     ("Aging", Str "M3");
                     ("Contact Summary", Str "ok");
                     ("Customer Name", Str "Cust2");
                     ("Collector ID", Str "101");
                     ("Date", Date (mk_date 2024 6 2));
                     ("Collector Name", Str "A-Smith");
                     ("Group", Str "T1")])]),
          Some roster_101), []).
Proof. vm_compute. reflexivity. Qed.

Lemma cancelled_rows_excluded_witness :
  exists visit,
    load_data_from_gdrive (drive (inr visit_cancelled) (inr roster_101))
                          visit_link group_link
    = inr ((Some visit, Some roster_101), [])
    /\ NoDup (map fst (rows visit_cancelled))
    /\ ~ In 0 (map fst (rows visit)).
Proof.
  eexists. split; [exact load_visit_cancelled|].
  assert (Hnd : NoDup (map fst (rows visit_cancelled))).
  { simpl. repeat constructor; simpl; intuition discriminate. }
  split; [exact Hnd|].
  destruct (cancelled_rows_excluded _ _ _ _ _ _ load_visit_cancelled)
    as (vurl & raw & Hv & Hraw & _ & Hex).
  injection Hv as <-. injection Hraw as <-.
  exact (Hex Hnd 0 _ (or_introl eq_refl) eq_refl).
Defined.

(** C2 as stated fails: the sentinel in another letter case does not
    exclude its row. *)
Lemma lower_case_sentinel_is_kept :
  exists visit r,
    load_data_from_gdrive (drive (inr visit_cancelled) (inr roster_101))
                          visit_link group_link
    = inr ((Some visit, Some roster_101), [])
    /\ In (1, r) (rows visit)
    /\ get "Neg Pos Unit" r = Str "cancelrepossession"
    /\ PyStr.upper (PyStr.strip "cancelrepossession")
       = PyStr.upper "CancelRepossession".
Proof.
  eexists. eexists. split; [vm_compute; reflexivity|].
  split; [left; reflexivity|]. split; reflexivity.
Qed.

(** C5, as amended.  With both links resolved: when the roster has no
    [ID] column, the [KeyError] is caught by the [except] clause and the
    loader returns [(None, None)] with the load error; when the roster
    loads and the visit log lacks one of the six required columns, the
    loader returns [(None, None)] with the missing-column error.  No
    frame is returned in either case. *)
Theorem missing_column_fails
  (read_excel : string -> nat -> Exc DataFrame)
  (visit_url group_url vurl gurl : string) :
  get_gdrive_download_url visit_url = inr (Some vurl, []) ->
  get_gdrive_download_url group_url = inr (Some gurl, []) ->
  (forall roster,
     read_excel gurl 0 = inr roster ->
     has_column "ID" (strip_columns roster) = false ->
     load_data_from_gdrive read_excel visit_url group_url
     = inr ((None, None), [ErrLoad (KeyError "ID")]))
  /\ (forall groups collectors_info raw col,
        load_groups read_excel gurl = inr (groups, collectors_info) ->
        read_excel vurl 1 = inr raw ->
        In col required_cols ->
        has_column col (strip_columns raw) = false ->
        load_data_from_gdrive read_excel visit_url group_url
        = inr ((None, None), [ErrMissingColumns])).
Proof.
  intros Hv Hg. rewrite (load_resolved _ _ _ _ _ Hv Hg). split.
  - intros roster Hr Hid.
    rewrite (load_try_groups_raise _ _ _ _
               (load_groups_missing_id _ _ _ Hr Hid)).
    reflexivity.
  - intros groups ci raw col Hgroups Hraw Hcol Hmiss.
    rewrite (load_try_checked _ _ _ _ _ _ Hgroups Hraw).
    destruct (forallb _ required_cols) eqn:E; [|reflexivity].
    rewrite forallb_forall in E. rewrite (E col Hcol) in Hmiss.
    discriminate Hmiss.
Qed.

Lemma missing_column_fails_witness :
  load_data_from_gdrive (drive (inr visit_101) (inr roster_no_id))
                        visit_link group_link
  = inr ((None, None), [ErrLoad (KeyError "ID")])
  /\ load_data_from_gdrive (drive (inr visit_no_aging) (inr roster_101))
                           visit_link group_link
     = inr ((None, None), [ErrMissingColumns]).
Proof.
  split.
  - apply (proj1 (missing_column_fails
                    (drive (inr visit_101) (inr roster_no_id))
                    visit_link group_link visit_address group_address
                    eq_refl eq_refl)
                 roster_no_id);
      reflexivity.
  - apply (proj2 (missing_column_fails
                    (drive (inr visit_no_aging) (inr roster_101))
                    visit_link group_link visit_address group_address
                    eq_refl eq_refl)
                 roster_101 [(Str "101", Str "A-Smith")] visit_no_aging
                 "Aging");
      [reflexivity | reflexivity | simpl; tauto | reflexivity].
Defined.

(** C5 as stated fails: a roster without its [ID] column does not end in
    the missing-column error but in the load error of the [except]
    clause. *)
Lemma roster_without_id_is_load_error :
  exists shown,
    load_data_from_gdrive (drive (inr visit_101) (inr roster_no_id))
                          visit_link group_link
    = inr ((None, None), shown)
    /\ shown = [ErrLoad (KeyError "ID")]
    /\ ~ In ErrMissingColumns shown.
Proof.
  eexists. split; [vm_compute; reflexivity|]. split; [reflexivity|].
  simpl. intros [H|[]]. discriminate H.
Qed.

(** C7.  With both links resolved, an exception raised in the [try]
    block, by either read or by anything after it, makes the loader
    return [(None, None)] with that exception as the load error.  A link
    that does not resolve makes it return [(None, None)] before any read.
    And whatever happens, the loader returns either [(None, None)] or
    both frames, never one without the other. *)
Theorem load_is_all_or_nothing
  (read_excel : string -> nat -> Exc DataFrame) (visit_url group_url : string) :
  (forall vurl gurl e,
     get_gdrive_download_url visit_url = inr (Some vurl, []) ->
     get_gdrive_download_url group_url = inr (Some gurl, []) ->
     load_try read_excel vurl gurl = inl e ->
     load_data_from_gdrive read_excel visit_url group_url
     = inr ((None, None), [ErrLoad e]))
  /\ (forall vurl gurl e,
        read_excel gurl 0 = inl e ->
        load_try read_excel vurl gurl = inl e)
  /\ (forall vurl gurl groups collectors_info e,
        load_groups read_excel gurl = inr (groups, collectors_info) ->
        read_excel vurl 1 = inl e ->
        load_try read_excel vurl gurl = inl e)
  /\ (get_gdrive_download_url visit_url
      = inr (None, [WarnBadLink visit_url])
      \/ get_gdrive_download_url group_url
         = inr (None, [WarnBadLink group_url]) ->
      exists shown,
        load_data_from_gdrive read_excel visit_url group_url
        = inr ((None, None), shown))
  /\ ((exists shown,
         load_data_from_gdrive read_excel visit_url group_url
         = inr ((None, None), shown))
      \/ (exists visit groups,
            load_data_from_gdrive read_excel visit_url group_url
            = inr ((Some visit, Some groups), []))).
Proof.
  split; [|split; [|split; [|split]]].
  - intros vurl gurl e Hv Hg He.
    rewrite (load_resolved _ _ _ _ _ Hv Hg), He. reflexivity.
  - intros vurl gurl e He. apply load_try_groups_raise.
    unfold load_groups. now rewrite He.
  - intros vurl gurl groups ci e Hgroups He.
    exact (load_try_visit_raise _ _ _ _ _ _ Hgroups He).
  - apply load_unresolved.
  - destruct (get_gdrive_download_url_total visit_url)
      as [(vurl & Ev & _)|Ev];
      [|left; exact (load_unresolved _ _ _ (or_introl Ev))].
    destruct (get_gdrive_download_url_total group_url)
      as [(gurl & Eg & _)|Eg];
      [|left; exact (load_unresolved _ _ _ (or_intror Eg))].
    rewrite (load_resolved _ _ _ _ _ Ev Eg).
    destruct (load_try_cases read_excel vurl gurl)
      as [[e E]|[E|(g & ci & raw & v & _ & _ & _ & _ & E)]]; rewrite E.
    + left. eexists. reflexivity.
    + left. eexists. reflexivity.
    + right. exists v, g. reflexivity.
Qed.

Lemma load_is_all_or_nothing_witness :
  load_try (drive (inl (ReadError "HTTP Error 403: Forbidden"))
                  (inr roster_101))
           visit_address group_address
  = inl (ReadError "HTTP Error 403: Forbidden")
  /\ load_data_from_gdrive
       (drive (inl (ReadError "HTTP Error 403: Forbidden")) (inr roster_101))
       visit_link group_link
     = inr ((None, None), [ErrLoad (ReadError "HTTP Error 403: Forbidden")]).
Proof.
  split; [reflexivity|].
  apply (proj1 (load_is_all_or_nothing
                  (drive (inl (ReadError "HTTP Error 403: Forbidden"))
                         (inr roster_101))
                  visit_link group_link)
               visit_address group_address);
    reflexivity.
Defined.

(** ** The claim on the source resolver *)

(** C8.  A sharing link with neither marker in it resolves to [None]:
    the resolver shows the warning about the link, returns no address
    and raises nothing. *)
Theorem unrecognised_link_unresolved (share_link : string) :
  PyStr.contains "spreadsheets/d/" share_link = false ->
  PyStr.contains "file/d/" share_link = false ->
  get_gdrive_download_url share_link = inr (None, [WarnBadLink share_link]).
Proof.
  intros H1 H2. unfold get_gdrive_download_url. now rewrite H1, H2.
Qed.

Lemma unrecognised_link_unresolved_witness :
  PyStr.contains "spreadsheets/d/" "https://example.com/sheet.xlsx" = false
  /\ PyStr.contains "file/d/" "https://example.com/sheet.xlsx" = false
  /\ get_gdrive_download_url "https://example.com/sheet.xlsx"
     = inr (None, [WarnBadLink "https://example.com/sheet.xlsx"]).
Proof.
  split; [reflexivity|]. split; [reflexivity|].
  apply (unrecognised_link_unresolved "https://example.com/sheet.xlsx");
    reflexivity.
Defined.

(** ** The claim on the agent id *)

Lemma in_rows_assign (name : string) (f : row -> cell) (df : DataFrame)
  (i : nat) (r : row) :
  In (i, r) (rows (assign name f df))
  <-> exists r1, In (i, r1) (rows df) /\ r = set name (f r1) r1.
Proof.
  unfold assign. cbn [rows]. rewrite in_map_iff. split.
  - intros ([j r1] & E & Hin). injection E as <- <-. now exists r1.
  - intros (r1 & Hin & ->). now exists (i, r1).
Qed.

Lemma in_rows_keep (mask : row -> bool) (df : DataFrame) (i : nat) (r : row) :
  In (i, r) (rows (keep mask df))
  <-> In (i, r) (rows df) /\ mask r = true.
Proof. unfold keep. cbn [rows]. now rewrite filter_In. Qed.

Lemma in_rows_select (cols : list string) (df : DataFrame) (i : nat) (r : row) :
  In (i, r) (rows (select cols df))
  <-> exists r0, In (i, r0) (rows df)
                 /\ r = map (fun c => (c, get c r0)) cols.
Proof.
  unfold select. cbn [rows]. rewrite in_map_iff. split.
  - intros ([j r0] & E & Hin). injection E as <- <-. now exists r0.
  - intros (r0 & Hin & ->). now exists (i, r0).
Qed.

(** The rows that [clean_collectors] keeps, read off the raw row. *)
Lemma in_rows_clean_collectors (df : DataFrame) (i : nat) (r : row) :
  In (i, r) (rows (clean_collectors df))
  <-> exists r0,
        In (i, r0) (rows df)
        /\ isna (get "Create Time" r0) = false
        /\ isna (get "Collector" r0) = false
        /\ isna (get "Aging" r0) = false
        /\ r = [("Collector", Str (PyStr.strip (str (get "Collector" r0))));
                ("Create Time", get "Create Time" r0);
                ("Neg Pos Unit", get "Neg Pos Unit" r0);
                ("Aging", get "Aging" r0);
                ("Contact Summary", get "Contact Summary" r0);
                ("Customer Name", get "Customer Name" r0);
                ("Collector ID",
                 str_strip (str_split_first "-"
                    (Str (PyStr.strip (str (get "Collector" r0))))))].
Proof.
  unfold clean_collectors, dropna.
  rewrite in_rows_assign. split.
  - intros (r2 & H & ->).
    apply in_rows_assign in H as (r1 & H & ->).
    apply in_rows_keep in H as [H Hna].
    apply in_rows_select in H as (r0 & H & ->).
    simpl in Hna.
    destruct (isna (get "Create Time" r0)) eqn:E1; [discriminate|].
    destruct (isna (get "Collector" r0)) eqn:E2; [discriminate|].
    destruct (isna (get "Aging" r0)) eqn:E3; [discriminate|].
    exists r0. repeat split; assumption.
  - intros (r0 & H & H1 & H2 & H3 & ->).
    eexists. split.
    + apply in_rows_assign. eexists. split.
      * apply in_rows_keep. split.
        -- apply in_rows_select. exists r0. split; [exact H | reflexivity].
        -- simpl. now rewrite H1, H2, H3.
      * reflexivity.
    + reflexivity.
Qed.

(** C10.  For a row that reaches the roster match, with [t] its trimmed
    collector text: when [t] has no dash in it, the agent id is [t]
    itself, and the row passes the roster match if and only if [t] is one
    of the roster's ids. *)
Theorem dashless_collector_is_its_id (df : DataFrame) (ids : list cell)
  (i : nat) (r : row) :
  In (i, r) (rows (clean_collectors df)) ->
  exists r0 t,
    In (i, r0) (rows df)
    /\ isna (get "Collector" r0) = false
    /\ t = PyStr.strip (str (get "Collector" r0))
    /\ get "Collector" r = Str t
    /\ (PyStr.contains "-" t = false ->
        get "Collector ID" r = Str t
        /\ (In (i, r) (rows (match_roster ids (clean_collectors df)))
            <-> In (Str t) ids)).
Proof.
  intros Hin.
  pose proof Hin as Hin'.
  apply in_rows_clean_collectors in Hin'
    as (r0 & H0 & _ & Hna & _ & Hr).
  exists r0, (PyStr.strip (str (get "Collector" r0))).
  split; [exact H0|]. split; [exact Hna|]. split; [reflexivity|].
  split; [now subst r|].
  intros Hdash.
  assert (Hid : get "Collector ID" r
                = Str (PyStr.strip (str (get "Collector" r0)))).
  { subst r. cbn [get String.eqb Ascii.eqb Bool.eqb].
    unfold str_split_first, str_strip.
    now rewrite (split_absent _ _ Hdash), strip_idem. }
  split; [exact Hid|].
  unfold match_roster. rewrite in_rows_keep, Hid, isin_unique. tauto.
Qed.

Lemma dashless_collector_is_its_id_witness :
  exists r,
    In (0, r) (rows (clean_collectors visit_dashless))
    /\ get "Collector ID" r = Str "101"
    /\ In (0, r) (rows (match_roster [Str "101"]
                                     (clean_collectors visit_dashless))).
Proof.
  eexists. split; [left; reflexivity|].
  destruct (dashless_collector_is_its_id visit_dashless [Str "101"] 0 _
              (or_introl eq_refl))
    as (r0 & t & _ & _ & _ & Ht & H).
  injection Ht as <-.
  destruct (H eq_refl) as [Hid Hiff].
  split; [exact Hid|]. apply Hiff. left. reflexivity.
Defined.

(** ** Sorting and counting *)

Section SortValues.

Context {A : Type} (key : A -> Z).

Lemma insert_by_perm (x : A) (l : list A) :
  Permutation (insert_by key x l) (x :: l).
Proof.
  induction l as [|y l IH]; simpl; [reflexivity|].
  destruct (key x <=? key y)%Z; [reflexivity|].
  rewrite IH. apply perm_swap.
Qed.

Lemma sort_values_perm (l : list A) : Permutation (sort_values key l) l.
Proof.
  induction l as [|x l IH]; simpl; [reflexivity|].
  rewrite insert_by_perm. now constructor.
Qed.

Lemma in_sort_values (l : list A) (x : A) :
  In x (sort_values key l) <-> In x l.
Proof.
  split; apply Permutation_in;
    [apply sort_values_perm | symmetry; apply sort_values_perm].
Qed.




End SortValues.

Lemma filter_eqb_present (c : cell) (l : list cell) :
  isna c = false ->
  filter (cell_eqb c) (filter (fun x => negb (isna x)) l)
  = filter (cell_eqb c) l.
Proof.
  intros Hc. induction l as [|x l IH]; simpl; [reflexivity|].
  destruct (isna x) eqn:Ex; simpl.
  - destruct (cell_eqb c x) eqn:E; [|exact IH].
    apply cell_eqb_eq in E. subst. congruence.
  - now rewrite IH.
Qed.

(** A row of [value_counts]: a value that occurs and is not missing, with
    the number of its occurrences. *)
Lemma in_value_counts (l : list cell) (c : cell) (n : Z) :
  In (c, n) (value_counts l)
  <-> In c l /\ isna c = false /\ n = count_cell c l.
Proof.
  unfold value_counts. rewrite in_sort_values, in_map_iff. split.
  - intros (x & E & Hin). injection E as -> <-.
    apply unique_In, filter_In in Hin as [Hin Hna].
    apply negb_true_iff in Hna.
    unfold count_cell. now rewrite filter_eqb_present.
  - intros (Hin & Hna & ->). exists c. split.
    + unfold count_cell. now rewrite filter_eqb_present.
    + apply unique_In, filter_In. split; [exact Hin|]. now rewrite Hna.
Qed.

Lemma in_by_aging_bucket {C : Type} (scale : Z -> C) (aging : list cell)
  (row : aging_row C) :
  In row (by_aging_bucket scale aging)
  <-> exists c, In c aging /\ isna c = false
                /\ row = mk_aging_row c (scale (count_cell c aging))
                                      (aging_sort c).
Proof.
  unfold by_aging_bucket. rewrite in_sort_values, in_map_iff. split.
  - intros ([c n] & <- & Hin). apply in_value_counts in Hin as (H1 & H2 & ->).
    now exists c.
  - intros (c & H1 & H2 & ->). exists (c, count_cell c aging).
    split; [reflexivity|]. now apply in_value_counts.
Qed.





(** ** The claims on the charts *)

Lemma aging_counts_comp_inv (comp_data : DataFrame) (group : list cell)
  (table : list (aging_row PrimFloat.float)) (shown : list message) :
  aging_counts_comp comp_data group = inr (Some table, shown) ->
  shown = []
  /\ table
     = by_aging_bucket
         (fun n => true_divide n (Z.of_nat (List.length group)))
         (map (fun ir => get "Aging" (snd ir))
              (filter (fun ir => isin group (get "Collector Name" (snd ir)))
                      (rows comp_data))).
Proof.
  unfold aging_counts_comp. destruct group as [|c group]; [discriminate|].
  destruct (series "Collector Name" comp_data) as [e|names];
    [discriminate|]. cbn [bind].
  destruct (empty _); [discriminate|].
  unfold series.
  destruct (has_column "Aging" _); [|discriminate]. cbn [bind ret].
  intros H. injection H as <- <-. split; reflexivity.
Qed.

Lemma aging_counts_comp_eq (comp_data : DataFrame) (group : list cell) :
  group <> [] ->
  has_column "Collector Name" comp_data = true ->
  has_column "Aging" comp_data = true ->
  aging_counts_comp comp_data group
  = match filter (fun ir => isin group (get "Collector Name" (snd ir)))
                 (rows comp_data) with
    | [] => inr (None, [InfoNoComparisonData])
    | m :: members =>
        inr (Some (by_aging_bucket
                     (fun n => true_divide n (Z.of_nat (List.length group)))
                     (map (fun ir => get "Aging" (snd ir)) (m :: members))),
             [])
    end.
Proof.
  intros Hgroup Hname Haging. unfold aging_counts_comp.
  destruct group as [|c0 group]; [contradiction|].
  unfold series, empty, keep. rewrite Hname. cbn [bind ret rows columns].
  destruct (filter _ (rows comp_data)) as [|m members]; [reflexivity|].
  unfold has_column in *. cbn [columns]. rewrite Haging. reflexivity.
Qed.



Lemma length_filter_map {X Y : Type} (f : X -> Y) (p : Y -> bool)
  (l : list X) :
  List.length (filter p (map f l))
  = List.length (filter (fun x => p (f x)) l).
Proof.
  induction l as [|x l IH]; simpl; [reflexivity|].
  destruct (p (f x)); simpl; now rewrite IH.
Qed.

(** C4, as amended.  With an empty comparison group nothing is
    averaged: the notice asking for at least one collector is shown.  With
    a group of [N >= 1] collectors, whose records are the [members],
    either no record is theirs and the notice of that is shown, or the
    table has, for every bucket in it, the binary64 quotient of the
    number of member records of that bucket by [N], and it has every
    bucket that a member record carries. *)
Theorem comparison_average :
  (forall comp_data,
     aging_counts_comp comp_data [] = inr (None, [InfoPickComparison]))
  /\ (forall comp_data group,
        group <> [] ->
        has_column "Collector Name" comp_data = true ->
        has_column "Aging" comp_data = true ->
        let N := Z.of_nat (List.length group) in
        let members :=
          filter (fun ir => isin group (get "Collector Name" (snd ir)))
                 (rows comp_data) in
        (1 <= N)%Z
        /\ ((members = []
             /\ aging_counts_comp comp_data group
                = inr (None, [InfoNoComparisonData]))
            \/ (exists table,
                  aging_counts_comp comp_data group = inr (Some table, [])
                  /\ (forall row, In row table ->
                        let n :=
                          Z.of_nat
                            (List.length
                               (filter (fun ir =>
                                          cell_eqb (Aging row)
                                                   (get "Aging" (snd ir)))
                                       members)) in
                        Count row
                        = PrimFloat.div (float_of_int n) (float_of_int N))
                  /\ (forall ir, In ir members ->
                        isna (get "Aging" (snd ir)) = false ->
                        exists row,
                          In row table
                          /\ Aging row = get "Aging" (snd ir))))).
Proof.
  split; [reflexivity|].
  intros comp_data group Hgroup Hname Haging N members.
  assert (HN : (1 <= N)%Z).
  { subst N. destruct group; [contradiction | simpl; lia]. }
  split; [exact HN|].
  rewrite (aging_counts_comp_eq _ _ Hgroup Hname Haging). fold members.
  destruct members as [|m members'] eqn:Em; [left; now split|].
  right. rewrite <- Em. eexists. split; [reflexivity|].
  fold N. split.
  - intros row Hin. apply in_by_aging_bucket in Hin as (c & _ & _ & ->).
    cbn [Count Aging]. unfold count_cell, true_divide.
    rewrite length_filter_map. reflexivity.
  - intros ir Hin Hna. eexists. split.
    + apply in_by_aging_bucket. exists (get "Aging" (snd ir)).
      split; [|split; [exact Hna | reflexivity]].
      apply in_map_iff. now exists ir.
    + reflexivity.
Qed.

Lemma comparison_average_witness :
  exists table,
    aging_counts_comp sample_records [Str "A-Smith"; Str "B-Jones"]
    = inr (Some table, [])
    /\ forall row, In row table ->
         Count row
         = PrimFloat.div
             (float_of_int
                (Z.of_nat
                   (List.length
                      (filter (fun ir => cell_eqb (Aging row)
                                                  (get "Aging" (snd ir)))
                              (filter (fun ir =>
                                         isin [Str "A-Smith"; Str "B-Jones"]
                                              (get "Collector Name" (snd ir)))
                                      (rows sample_records))))))
             (float_of_int 2).
Proof.
  assert (Hgroup : [Str "A-Smith"; Str "B-Jones"] <> []) by discriminate.
  destruct (proj2 comparison_average sample_records
                  [Str "A-Smith"; Str "B-Jones"] Hgroup eq_refl eq_refl)
    as [_ [[Hm _]|(table & Ht & Hrows & _)]].
  - discriminate Hm.
  - exists table. split; [exact Ht|].
    intros row Hin. exact (Hrows row Hin).
Defined.

(** C4 as stated fails: the average is a double, the one nearest to the
    quotient, and not the quotient itself.  One record in a group of 49
    gives the double [5882252574524729 / 2^58], which is not [1/49], and
    49 times this average is not 1 either. *)
Lemma average_of_49_is_rounded :
  aging_counts_comp lone_record group_of_49
  = inr (Some [mk_aging_row (Str "M3")
                            (PrimFloat.div (float_of_int 1) (float_of_int 49))
                            3%Z], [])
  /\ List.length group_of_49 = 49
  /\ float_value (PrimFloat.div (float_of_int 1) (float_of_int 49))
     = Some (5882252574524729 # 288230376151711744)%Q
  /\ ~ (5882252574524729 # 288230376151711744 == 1 # 49)%Q
  /\ PrimFloat.eqb
       (PrimFloat.mul (PrimFloat.div (float_of_int 1) (float_of_int 49))
                      (float_of_int 49))
       (float_of_int 1)
     = false.
Proof.
  split; [vm_compute; reflexivity|]. split; [reflexivity|].
  split; [vm_compute; reflexivity|]. split.
  - intros H. vm_compute in H. discriminate H.
  - vm_compute. reflexivity.
Qed.

(** C9.  A day without records gets the empty colour whatever the
    maximum is.  A day whose count is the maximum, with that maximum at
    least 1, gets lightness 40, and no day with a count from 1 up to the
    maximum gets a lower lightness: it is the darkest colour of the
    month. *)
Theorem heatmap_extremes :
  (forall max_count, get_heatmap_color 0 max_count = Hex "#F3F4F6")
  /\ (forall max_count,
        (1 <= max_count)%Z ->
        exists lightness,
          get_heatmap_color max_count max_count = Hsl 220 80 lightness
          /\ (lightness == 40)%Q
          /\ forall count,
               count <> 0%Z -> (count <= max_count)%Z ->
               exists l,
                 get_heatmap_color count max_count = Hsl 220 80 l
                 /\ (40 <= l)%Q).
Proof.
  split; [reflexivity|].
  intros max_count Hmax.
  assert (Hor : or_one max_count = max_count).
  { unfold or_one. destruct (Z.eqb_spec max_count 0); [lia | reflexivity]. }
  assert (Hpos : (0 < inject_Z max_count)%Q).
  { unfold Qlt, inject_Z. simpl. lia. }
  unfold get_heatmap_color. rewrite Hor.
  destruct (Z.eqb_spec max_count 0) as [E|_]; [lia|].
  eexists. split; [reflexivity|]. split.
  - field. intros H0. rewrite H0 in Hpos. now apply Qlt_irrefl in Hpos.
  - intros count Hc Hle.
    destruct (Z.eqb_spec count 0) as [E|_]; [contradiction|].
    eexists. split; [reflexivity|].
    assert (Hx : (inject_Z count / inject_Z max_count <= 1)%Q).
    { apply Qle_shift_div_r; [exact Hpos|].
      rewrite Qmult_1_l. rewrite <- Zle_Qle. exact Hle. }
    set (x := (inject_Z count / inject_Z max_count)%Q) in *.
    lra.
Qed.

Lemma heatmap_extremes_witness :
  exists lightness,
    get_heatmap_color 3 3 = Hsl 220 80 lightness /\ (lightness == 40)%Q.
Proof.
  assert (H3 : (1 <= 3)%Z) by discriminate.
  destruct (proj2 heatmap_extremes 3%Z H3) as (lightness & Hc & Hl & _).
  exists lightness. split; [exact Hc | exact Hl].
Defined.

(** * Further properties of the code *)

(** ** Cells of a row *)

Lemma get_set_same (name : string) (v : cell) (r : row) :
  get name (set name v r) = v.
Proof.
  induction r as [|[k x] r IH]; simpl.
  - now rewrite String.eqb_refl.
  - destruct (String.eqb k name) eqn:E; simpl; rewrite E;
      [reflexivity | exact IH].
Qed.

Lemma get_set_other (name other : string) (v : cell) (r : row) :
  other <> name -> get name (set other v r) = get name r.
Proof.
  intros Hne. induction r as [|[k x] r IH]; simpl.
  - destruct (String.eqb_spec other name); [contradiction | reflexivity].
  - destruct (String.eqb_spec k other) as [->|Hk]; simpl.
    + destruct (String.eqb_spec other name); [contradiction | reflexivity].
    + destruct (String.eqb k name); [reflexivity | exact IH].
Qed.

Lemma keys_set (name : string) (v : cell) (r : row) (k : string) :
  In k (map fst (set name v r)) -> k = name \/ In k (map fst r).
Proof.
  induction r as [|[k0 x] r IH]; simpl.
  - intros [<-|[]]. now left.
  - destruct (String.eqb k0 name); simpl.
    + intros [<-|H]; right; [now left | now right].
    + intros [<-|H]; [right; now left|].
      destruct (IH H) as [->|H']; [now left | right; now right].
Qed.

(** Reading a renamed row under the new label gives the cell that stood
    under the old one, when no cell stood under the new label before. *)
Lemma get_renamed (old new : string) (r : row) :
  ~ In new (map fst r) ->
  get new (map (fun kv => (if String.eqb (fst kv) old then new else fst kv,
                           snd kv)) r)
  = get old r.
Proof.
  induction r as [|[k x] r IH]; simpl; intros Hnew; [reflexivity|].
  destruct (String.eqb_spec k old) as [->|Hk].
  - now rewrite String.eqb_refl.
  - destruct (String.eqb_spec k new) as [->|Hk'].
    + exfalso. apply Hnew. now left.
    + apply IH. intros H. apply Hnew. now right.
Qed.

Lemma get_renamed_other (old new name : string) (r : row) :
  name <> old -> name <> new ->
  get name (map (fun kv => (if String.eqb (fst kv) old then new else fst kv,
                            snd kv)) r)
  = get name r.
Proof.
  intros Ho Hn. induction r as [|[k x] r IH]; simpl; [reflexivity|].
  destruct (String.eqb_spec k old) as [->|Hk].
  - destruct (String.eqb_spec new name) as [E|_]; [now subst|].
    destruct (String.eqb_spec old name) as [E|_]; [now subst | exact IH].
  - destruct (String.eqb k name); [reflexivity | exact IH].
Qed.

Lemma has_column_In (name : string) (df : DataFrame) :
  has_column name df = true <-> In name (columns df).
Proof.
  unfold has_column. rewrite existsb_exists. split.
  - intros (x & Hx & E). apply String.eqb_eq in E. now subst.
  - intros H. exists name. split; [exact H | apply String.eqb_refl].
Qed.

Lemma has_column_assign_same (name : string) (f : row -> cell)
  (df : DataFrame) (col : string) :
  has_column name df = true ->
  has_column col (assign name f df) = has_column col df.
Proof. intros H. unfold assign, has_column in *. cbn [columns]. now rewrite H. Qed.

(** ** The roster *)

Section RosterFacts.

Variable read_excel : string -> nat -> Exc DataFrame.

(** What [load_groups] returns when the roster has its [ID] column: the
    frame with trimmed text ids, the names under [Agent Name], and the
    lookup made of it. *)
Lemma load_groups_eq (gurl : string) (raw : DataFrame) :
  read_excel gurl 0 = inr raw ->
  has_column "ID" (strip_columns raw) = true ->
  let with_ids :=
    assign "ID" (fun r => str_strip (astype_str (get "ID" r)))
           (strip_columns raw) in
  let groups :=
    if has_column "Collector" (strip_columns raw)
       && negb (has_column "Agent Name" (strip_columns raw))
    then rename "Collector" "Agent Name" with_ids
    else with_ids in
  load_groups read_excel gurl
  = (collectors_info <- to_dict "ID" "Agent Name" groups ;;
     ret (groups, collectors_info)).
Proof.
  intros Hr Hid. unfold load_groups, series. rewrite Hr. cbn [bind].
  rewrite Hid. cbn [bind ret].
  now rewrite !(has_column_assign_same _ _ _ _ Hid).
Qed.

End RosterFacts.

Lemma has_column_rename_new (old new : string) (df : DataFrame) :
  has_column old df = true -> has_column new (rename old new df) = true.
Proof.
  intros H. apply has_column_In. apply has_column_In in H.
  unfold rename. cbn [columns]. apply in_map_iff. exists old.
  now rewrite String.eqb_refl.
Qed.

Lemma has_column_rename_old (old new : string) (df : DataFrame) :
  old <> new -> has_column old (rename old new df) = false.
Proof.
  intros Hne. destruct (has_column old (rename old new df)) eqn:E;
    [|reflexivity].
  apply has_column_In in E. unfold rename in E. cbn [columns] in E.
  apply in_map_iff in E as (k & Hk & _).
  destruct (String.eqb_spec k old); congruence.
Qed.

Lemma has_column_rename_other (old new name : string) (df : DataFrame) :
  name <> old -> name <> new ->
  has_column name (rename old new df) = has_column name df.
Proof.
  intros Ho Hn.
  destruct (has_column name df) eqn:E.
  - apply has_column_In. apply has_column_In in E.
    unfold rename. cbn [columns]. apply in_map_iff. exists name.
    split; [|exact E]. destruct (String.eqb_spec name old); congruence.
  - destruct (has_column name (rename old new df)) eqn:E'; [|reflexivity].
    apply has_column_In in E'. unfold rename in E'. cbn [columns] in E'.
    apply in_map_iff in E' as (k & Hk & Hin).
    destruct (String.eqb_spec k old); [congruence|]. subst k.
    apply has_column_In in Hin. congruence.
Qed.

Lemma to_dict_ok (key value : string) (df : DataFrame) :
  has_column key df = true -> has_column value df = true ->
  to_dict key value df
  = inr (fold_left (fun d ir => dict_set (get key (snd ir))
                                         (get value (snd ir)) d)
                   (rows df) []).
Proof. intros Hk Hv. unfold to_dict. now rewrite Hk, Hv. Qed.

(** X1.  A roster in the legacy layout, with the names under [Collector]
    and no [Agent Name] column, loads: in the frame that comes back the
    column is called [Agent Name], every row keeps its label, has its id
    as trimmed text and its legacy name under the new label, and the
    id-to-name lookup knows every id. *)
Theorem legacy_roster_is_aliased
  (read_excel : string -> nat -> Exc DataFrame) (gurl : string)
  (raw : DataFrame) :
  read_excel gurl 0 = inr raw ->
  well_formed (strip_columns raw) ->
  has_column "ID" (strip_columns raw) = true ->
  has_column "Collector" (strip_columns raw) = true ->
  has_column "Agent Name" (strip_columns raw) = false ->
  exists groups collectors_info,
    load_groups read_excel gurl = inr (groups, collectors_info)
    /\ has_column "Agent Name" groups = true
    /\ has_column "Collector" groups = false
    /\ map fst (rows groups) = map fst (rows (strip_columns raw))
    /\ forall i r, In (i, r) (rows (strip_columns raw)) ->
         exists r' name,
           In (i, r') (rows groups)
           /\ get "ID" r' = Str (PyStr.strip (str (get "ID" r)))
           /\ get "Agent Name" r' = get "Collector" r
           /\ dict_get (get "ID" r') collectors_info = Some name.
Proof.
  intros Hr Hwf Hid Hcol Hname.
  rewrite (load_groups_eq _ _ _ Hr Hid). rewrite Hcol, Hname. cbn [andb negb].
  set (with_ids := assign "ID" (fun r => str_strip (astype_str (get "ID" r)))
                          (strip_columns raw)).
  set (groups := rename "Collector" "Agent Name" with_ids).
  assert (Hcol' : has_column "Collector" with_ids = true).
  { unfold with_ids. now rewrite (has_column_assign_same _ _ _ _ Hid). }
  assert (Hid' : has_column "ID" groups = true).
  { unfold groups. rewrite has_column_rename_other; try discriminate.
    unfold with_ids. now rewrite (has_column_assign_same _ _ _ _ Hid). }
  assert (Hname' : has_column "Agent Name" groups = true).
  { now apply has_column_rename_new. }
  rewrite (to_dict_ok _ _ _ Hid' Hname'). cbn [bind ret].
  eexists. eexists. split; [reflexivity|].
  split; [exact Hname'|].
  split; [now apply has_column_rename_old|].
  split.
  { unfold groups, with_ids, rename, assign. cbn [rows].
    now rewrite !map_map. }
  intros i r Hin.
  set (r1 := set "ID" (str_strip (astype_str (get "ID" r))) r).
  set (r' := map (fun kv => (if String.eqb (fst kv) "Collector"
                             then "Agent Name" else fst kv, snd kv)) r1).
  assert (Hin' : In (i, r') (rows groups)).
  { unfold groups, with_ids, rename, assign. cbn [rows].
    rewrite map_map. apply in_map_iff. now exists (i, r). }
  assert (HID : get "ID" r' = Str (PyStr.strip (str (get "ID" r)))).
  { unfold r'. rewrite get_renamed_other; try discriminate.
    unfold r1. now rewrite get_set_same. }
  assert (Hkeys : ~ In "Agent Name" (map fst r1)).
  { intros H. apply keys_set in H as [H|H]; [discriminate|].
    apply in_map_iff in H as (kv & E & Hkv).
    pose proof (Hwf _ Hin kv Hkv) as Hc. cbn [snd] in Hc.
    rewrite E in Hc. apply has_column_In in Hc. congruence. }
  destruct (fold_dict_set_keys (get "ID") (get "Agent Name") (rows groups) []
              (get "ID" r')) as [name Hname2].
  { left. now exists (i, r'). }
  exists r', name. split; [exact Hin'|]. split; [exact HID|].
  split; [|exact Hname2].
  unfold r'. rewrite (get_renamed _ _ _ Hkeys).
  unfold r1. now rewrite get_set_other.
Qed.

Lemma legacy_roster_is_aliased_witness :
  exists groups collectors_info,
    load_groups (drive (inr visit_101) (inr roster_legacy)) group_address
    = inr (groups, collectors_info)
    /\ has_column "Agent Name" groups = true
    /\ dict_get (Str "102") collectors_info = Some (Str "B-Jones").
Proof.
  assert (Hwf : well_formed (strip_columns roster_legacy)).
  { intros ir Hir kv Hkv. simpl in Hir.
    destruct Hir as [<-|[<-|[]]]; simpl in Hkv;
      repeat (destruct Hkv as [<-|Hkv]; [simpl; tauto|]);
      contradiction. }
  destruct (legacy_roster_is_aliased
              (drive (inr visit_101) (inr roster_legacy)) group_address
              roster_legacy eq_refl Hwf eq_refl eq_refl eq_refl)
    as (groups & ci & Hload & Hname & _).
  exists groups, ci. split; [exact Hload|]. split; [exact Hname|].
  vm_compute in Hload. injection Hload as <- <-. reflexivity.
Defined.

Section RosterColumns.

Variable read_excel : string -> nat -> Exc DataFrame.

(** With the [ID] column and a name column under either label, the
    roster loads; the frame keeps [ID] and has [Group] exactly when the
    workbook has it. *)
Lemma load_groups_named (gurl : string) (raw : DataFrame) :
  read_excel gurl 0 = inr raw ->
  has_column "ID" (strip_columns raw) = true ->
  has_column "Agent Name" (strip_columns raw) = true
  \/ has_column "Collector" (strip_columns raw) = true ->
  exists groups collectors_info,
    load_groups read_excel gurl = inr (groups, collectors_info)
    /\ has_column "ID" groups = true
    /\ has_column "Group" groups = has_column "Group" (strip_columns raw).
Proof.
  intros Hr Hid Hname. rewrite (load_groups_eq _ _ _ Hr Hid).
  set (with_ids := assign "ID" (fun r => str_strip (astype_str (get "ID" r)))
                          (strip_columns raw)).
  assert (Hsame : forall col, has_column col with_ids
                              = has_column col (strip_columns raw)).
  { intros col. unfold with_ids. now apply has_column_assign_same. }
  destruct (has_column "Agent Name" (strip_columns raw)) eqn:En.
  - rewrite andb_false_r.
    rewrite (to_dict_ok "ID" "Agent Name" with_ids);
      [|now rewrite Hsame | now rewrite Hsame].
    cbn [bind ret]. eexists. eexists. split; [reflexivity|].
    split; [now rewrite Hsame | apply Hsame].
  - destruct Hname as [Hname|Hname]; [discriminate|].
    rewrite Hname. cbn [andb negb].
    assert (Hid' : has_column "ID" (rename "Collector" "Agent Name" with_ids)
                   = true).
    { rewrite has_column_rename_other; try discriminate. now rewrite Hsame. }
    rewrite (to_dict_ok "ID" "Agent Name" _ Hid').
    + cbn [bind ret]. eexists. eexists. split; [reflexivity|].
      split; [exact Hid'|].
      rewrite has_column_rename_other; try discriminate. apply Hsame.
    + apply has_column_rename_new. now rewrite Hsame.
Qed.

Lemma load_groups_unnamed (gurl : string) (raw : DataFrame) :
  read_excel gurl 0 = inr raw ->
  has_column "ID" (strip_columns raw) = true ->
  has_column "Agent Name" (strip_columns raw) = false ->
  has_column "Collector" (strip_columns raw) = false ->
  load_groups read_excel gurl = inl (KeyError "Agent Name").
Proof.
  intros Hr Hid Hn Hc. rewrite (load_groups_eq _ _ _ Hr Hid).
  rewrite Hc. cbn [andb]. unfold to_dict.
  rewrite !(has_column_assign_same _ _ _ _ Hid), Hid, Hn. reflexivity.
Qed.

Lemma normalize_without_group (groups visit : DataFrame) (ci : dict) :
  has_column "ID" groups = true ->
  has_column "Group" groups = false ->
  normalize groups ci visit = inl (KeyError "Group").
Proof.
  intros Hid Hg. unfold normalize, series, to_dict.
  rewrite Hid, Hg. reflexivity.
Qed.

End RosterColumns.

(** X2.  With both links resolved and the roster's [ID] column there: a
    roster with neither [Agent Name] nor [Collector] ends the load in the
    error of the [except] clause, naming [Agent Name]; a roster with a
    name column but no [Group] column ends it in the same way, naming
    [Group], once the visit log has passed the column check, whatever
    its rows are.  In both cases [(None, None)] comes back. *)
Theorem roster_column_errors
  (read_excel : string -> nat -> Exc DataFrame)
  (visit_url group_url vurl gurl : string) (raw : DataFrame) :
  get_gdrive_download_url visit_url = inr (Some vurl, []) ->
  get_gdrive_download_url group_url = inr (Some gurl, []) ->
  read_excel gurl 0 = inr raw ->
  has_column "ID" (strip_columns raw) = true ->
  (has_column "Agent Name" (strip_columns raw) = false ->
   has_column "Collector" (strip_columns raw) = false ->
   load_data_from_gdrive read_excel visit_url group_url
   = inr ((None, None), [ErrLoad (KeyError "Agent Name")]))
  /\ (forall visit,
        has_column "Agent Name" (strip_columns raw) = true
        \/ has_column "Collector" (strip_columns raw) = true ->
        has_column "Group" (strip_columns raw) = false ->
        read_excel vurl 1 = inr visit ->
        forallb (fun col => has_column col (strip_columns visit))
                required_cols = true ->
        load_data_from_gdrive read_excel visit_url group_url
        = inr ((None, None), [ErrLoad (KeyError "Group")])).
Proof.
  intros Hv Hg Hr Hid. rewrite (load_resolved _ _ _ _ _ Hv Hg). split.
  - intros Hn Hc.
    rewrite (load_try_groups_raise _ _ _ _
               (load_groups_unnamed _ _ _ Hr Hid Hn Hc)).
    reflexivity.
  - intros visit Hname Hgroup Hvisit Hcols.
    destruct (load_groups_named _ _ _ Hr Hid Hname)
      as (groups & ci & Hload & Hid' & Hg').
    rewrite (load_try_checked _ _ _ _ _ _ Hload Hvisit), Hcols.
    rewrite normalize_without_group; [reflexivity | exact Hid'|].
    now rewrite Hg'.
Qed.

Lemma roster_column_errors_witness :
  load_data_from_gdrive (drive (inr visit_101) (inr roster_no_name))
                        visit_link group_link
  = inr ((None, None), [ErrLoad (KeyError "Agent Name")])
  /\ load_data_from_gdrive (drive (inr visit_101) (inr roster_no_group))
                           visit_link group_link
     = inr ((None, None), [ErrLoad (KeyError "Group")]).
Proof.
  split.
  - apply (proj1 (roster_column_errors
                    (drive (inr visit_101) (inr roster_no_name))
                    visit_link group_link visit_address group_address
                    roster_no_name eq_refl eq_refl eq_refl eq_refl));
      reflexivity.
  - apply (proj2 (roster_column_errors
                    (drive (inr visit_101) (inr roster_no_group))
                    visit_link group_link visit_address group_address
                    roster_no_group eq_refl eq_refl eq_refl eq_refl)
                 visit_101);
      try reflexivity.
    left. reflexivity.
Defined.

(** ** Which rows the loader keeps *)

Lemma normalized_row_some (valid : list cell) (collectors_info group_map : dict)
  (r0 : row) :
  isna (get "Create Time" r0) = false ->
  isna (get "Collector" r0) = false ->
  isna (get "Aging" r0) = false ->
  isin valid (str_strip (str_split_first "-"
                (Str (PyStr.strip (str (get "Collector" r0)))))) = true ->
  PyStr.strip (str (get "Neg Pos Unit" r0)) <> "CancelRepossession" ->
  to_datetime (get "Create Time" r0) <> NaN ->
  exists r,
    normalized_row valid collectors_info group_map r0 = Some r
    /\ get "Collector" r = Str (PyStr.strip (str (get "Collector" r0)))
    /\ get "Create Time" r = to_datetime (get "Create Time" r0)
    /\ get "Neg Pos Unit" r = Str (str (get "Neg Pos Unit" r0))
    /\ get "Contact Summary" r = get "Contact Summary" r0
    /\ get "Customer Name" r = get "Customer Name" r0
    /\ get "Date" r = dt_date (to_datetime (get "Create Time" r0)).
Proof.
  intros H1 H2 H3 H4 H5 H6. unfold normalized_row.
  rewrite H1, H2, H3. cbn [orb].
  unfold astype_str at 1. cbn [str_strip]. rewrite H4. cbn [negb].
  unfold astype_str at 1. cbn [str_strip cell_eqb].
  destruct (String.eqb_spec (PyStr.strip (str (get "Neg Pos Unit" r0)))
                            "CancelRepossession") as [E|_];
    [contradiction|].
  destruct (to_datetime (get "Create Time" r0)) eqn:Et;
    try contradiction; cbn [isna];
    (eexists; split; [reflexivity|]; repeat split).
Qed.

Section LoaderRows.

Variable read_excel : string -> nat -> Exc DataFrame.

(** The rows of a loaded table, read off the raw visit log. *)
Lemma load_success_rows (visit_url group_url : string)
  (visit groups : DataFrame) (shown : list message) :
  load_data_from_gdrive read_excel visit_url group_url
  = inr ((Some visit, Some groups), shown) ->
  exists vurl raw ids collectors_info group_map,
    get_gdrive_download_url visit_url = inr (Some vurl, [])
    /\ read_excel vurl 1 = inr raw
    /\ series "ID" groups = inr ids
    /\ to_dict "ID" "Agent Name" groups = inr collectors_info
    /\ to_dict "ID" "Group" groups = inr group_map
    /\ rows visit
       = flat_map (on_indexed (normalized_row (unique ids) collectors_info
                                              group_map))
                  (rows (strip_columns raw)).
Proof.
  intros H.
  apply load_success_inv in H
    as (vurl & gurl & ci & raw & Hv & Hg & Hgroups & Hraw & Hnorm & ->).
  apply load_groups_inv in Hgroups.
  apply normalize_rows in Hnorm as (ids & gm & Hids & Hgm & Hrows).
  exists vurl, raw, ids, ci, gm. now repeat split.
Qed.

End LoaderRows.

(** X3.  A raw row passes into the loaded table, under its own label,
    as soon as its timestamp, collector and aging cells are there, its
    agent id is on the roster, its trimmed unit type is not the sentinel
    and its timestamp parses.  In the table it has its collector text
    trimmed and its summary and customer cells as they were, missing
    ones included. *)
Theorem passing_rows_are_kept
  (read_excel : string -> nat -> Exc DataFrame) (visit_url group_url : string)
  (visit groups : DataFrame) (shown : list message) :
  load_data_from_gdrive read_excel visit_url group_url
  = inr ((Some visit, Some groups), shown) ->
  exists vurl raw ids,
    get_gdrive_download_url visit_url = inr (Some vurl, [])
    /\ read_excel vurl 1 = inr raw
    /\ series "ID" groups = inr ids
    /\ forall i r0,
         In (i, r0) (rows (strip_columns raw)) ->
         isna (get "Create Time" r0) = false ->
         isna (get "Collector" r0) = false ->
         isna (get "Aging" r0) = false ->
         In (str_strip (str_split_first "-"
               (Str (PyStr.strip (str (get "Collector" r0)))))) ids ->
         PyStr.strip (str (get "Neg Pos Unit" r0)) <> "CancelRepossession" ->
         to_datetime (get "Create Time" r0) <> NaN ->
         exists r,
           In (i, r) (rows visit)
           /\ get "Collector" r = Str (PyStr.strip (str (get "Collector" r0)))
           /\ get "Contact Summary" r = get "Contact Summary" r0
           /\ get "Customer Name" r = get "Customer Name" r0.
Proof.
  intros H.
  apply load_success_rows in H
    as (vurl & raw & ids & ci & gm & Hv & Hraw & Hids & _ & _ & Hrows).
  exists vurl, raw, ids. repeat (split; [assumption|]).
  intros i r0 Hin H1 H2 H3 H4 H5 H6.
  apply isin_unique in H4.
  destruct (normalized_row_some (unique ids) ci gm r0 H1 H2 H3 H4 H5 H6)
    as (r & Hr & Hc & _ & _ & Hs & Hn & _).
  exists r. split; [|now repeat split].
  rewrite Hrows. apply in_flat_map_indexed. now exists r0.
Qed.

Lemma load_visit_mixed :
  exists visit,
    load_data_from_gdrive (drive (inr visit_mixed) (inr roster_101))
                          visit_link group_link
    = inr ((Some visit, Some roster_101), [])
    /\ map fst (rows visit) = [0; 3].
Proof. eexists. split; [vm_compute; reflexivity | reflexivity]. Qed.

Lemma passing_rows_are_kept_witness :
  exists visit r,
    load_data_from_gdrive (drive (inr visit_mixed) (inr roster_101))
                          visit_link group_link
    = inr ((Some visit, Some roster_101), [])
    /\ In (3, r) (rows visit)
    /\ get "Customer Name" r = Str "Cust4".
Proof.
  destruct load_visit_mixed as (visit & Hload & _).
  destruct (passing_rows_are_kept _ _ _ _ _ _ Hload)
    as (vurl & raw & ids & Hv & Hraw & Hids & Hkept).
  vm_compute in Hv. injection Hv as <-.
  vm_compute in Hraw. injection Hraw as <-.
  vm_compute in Hids. injection Hids as <-.
  destruct (Hkept 3 (visit_row (Str "101-A-Smith") (Str "03/06/2024 09:00:00")
                               (Str "Call") (Str "m6+") (Str "ok")
                               (Str "Cust4")))
    as (r & Hin & _ & _ & Hn); try reflexivity; try discriminate.
  - simpl. tauto.
  - left. reflexivity.
  - exists visit, r. split; [exact Hload|]. split; [exact Hin | exact Hn].
Defined.

(** X4.  An empty unit type cell does not cost the row: with the other
    tests passed it is kept, and its unit type reads as the text
    [nan]. *)
Theorem missing_unit_reads_nan
  (read_excel : string -> nat -> Exc DataFrame) (visit_url group_url : string)
  (visit groups : DataFrame) (shown : list message) :
  load_data_from_gdrive read_excel visit_url group_url
  = inr ((Some visit, Some groups), shown) ->
  exists vurl raw ids,
    get_gdrive_download_url visit_url = inr (Some vurl, [])
    /\ read_excel vurl 1 = inr raw
    /\ series "ID" groups = inr ids
    /\ forall i r0,
         In (i, r0) (rows (strip_columns raw)) ->
         get "Neg Pos Unit" r0 = NaN ->
         isna (get "Create Time" r0) = false ->
         isna (get "Collector" r0) = false ->
         isna (get "Aging" r0) = false ->
         In (str_strip (str_split_first "-"
               (Str (PyStr.strip (str (get "Collector" r0)))))) ids ->
         to_datetime (get "Create Time" r0) <> NaN ->
         exists r,
           In (i, r) (rows visit) /\ get "Neg Pos Unit" r = Str "nan".
Proof.
  intros H.
  apply load_success_rows in H
    as (vurl & raw & ids & ci & gm & Hv & Hraw & Hids & _ & _ & Hrows).
  exists vurl, raw, ids. repeat (split; [assumption|]).
  intros i r0 Hin Hunit H1 H2 H3 H4 H6.
  apply isin_unique in H4.
  destruct (normalized_row_some (unique ids) ci gm r0 H1 H2 H3 H4)
    as (r & Hr & _ & _ & Hu & _); [rewrite Hunit; discriminate | exact H6|].
  exists r. split.
  - rewrite Hrows. apply in_flat_map_indexed. now exists r0.
  - now rewrite Hu, Hunit.
Qed.

Lemma missing_unit_reads_nan_witness :
  exists visit r,
    load_data_from_gdrive (drive (inr visit_no_unit) (inr roster_101))
                          visit_link group_link
    = inr ((Some visit, Some roster_101), [])
    /\ In (0, r) (rows visit)
    /\ get "Neg Pos Unit" r = Str "nan".
Proof.
  assert (Hload : exists visit,
            load_data_from_gdrive (drive (inr visit_no_unit) (inr roster_101))
                                  visit_link group_link
            = inr ((Some visit, Some roster_101), [])).
  { eexists. vm_compute. reflexivity. }
  destruct Hload as [visit Hload].
  destruct (missing_unit_reads_nan _ _ _ _ _ _ Hload)
    as (vurl & raw & ids & Hv & Hraw & Hids & Hkept).
  vm_compute in Hv. injection Hv as <-.
  vm_compute in Hraw. injection Hraw as <-.
  vm_compute in Hids. injection Hids as <-.
  destruct (Hkept 0 (visit_row (Str "101-A-Smith") (Str "01/06/2024 09:00:00")
                               NaN (Str "m3") NaN (Str "Cust1")))
    as (r & Hin & Hu); try reflexivity; try discriminate.
  - left. reflexivity.
  - left. reflexivity.
  - exists visit, r. split; [exact Hload|]. split; [exact Hin | exact Hu].
Defined.

Lemma flat_map_indexed_labels (f : row -> option row) (l : list (nat * row)) :
  incl (map fst (flat_map (on_indexed f) l)) (map fst l).
Proof.
  intros i Hi. apply in_map_iff in Hi as ([j r] & <- & Hin).
  apply in_flat_map_indexed in Hin as (r0 & Hin & _).
  apply in_map_iff. now exists (j, r0).
Qed.

Lemma flat_map_indexed_sorted (R : nat -> nat -> Prop)
  (f : row -> option row) (l : list (nat * row)) :
  StronglySorted R (map fst l) ->
  StronglySorted R (map fst (flat_map (on_indexed f) l)).
Proof.
  induction l as [|[i r] l IH]; simpl; intros H; [constructor|].
  inversion H as [|? ? Hs Hall]; subst.
  unfold on_indexed at 1. cbn [fst snd].
  destruct (f r) as [r'|]; cbn [app map fst]; [|now apply IH].
  constructor; [now apply IH|].
  apply Forall_forall. intros j Hj.
  rewrite Forall_forall in Hall. apply Hall.
  now apply (flat_map_indexed_labels f l).
Qed.

Lemma flat_map_indexed_NoDup (f : row -> option row) (l : list (nat * row)) :
  NoDup (map fst l) -> NoDup (map fst (flat_map (on_indexed f) l)).
Proof.
  induction l as [|[i r] l IH]; simpl; intros H; [constructor|].
  inversion H as [|? ? Hi Hnd]; subst.
  unfold on_indexed at 1. cbn [fst snd].
  destruct (f r) as [r'|]; cbn [app map fst]; [|now apply IH].
  constructor; [|now apply IH].
  intros Hin. apply Hi. now apply (flat_map_indexed_labels f l).
Qed.

(** X5.  The loaded table keeps the index labels of the raw visit log:
    every label in it is a label of the raw table, labels that were
    distinct stay distinct, and labels that were ascending, as those
    that [read_excel] gives, stay ascending: rows are never reordered or
    repeated. *)
Theorem labels_keep_their_order
  (read_excel : string -> nat -> Exc DataFrame) (visit_url group_url : string)
  (visit groups : DataFrame) (shown : list message) :
  load_data_from_gdrive read_excel visit_url group_url
  = inr ((Some visit, Some groups), shown) ->
  exists vurl raw,
    get_gdrive_download_url visit_url = inr (Some vurl, [])
    /\ read_excel vurl 1 = inr raw
    /\ incl (map fst (rows visit)) (map fst (rows raw))
    /\ (NoDup (map fst (rows raw)) -> NoDup (map fst (rows visit)))
    /\ (StronglySorted lt (map fst (rows raw)) ->
        StronglySorted lt (map fst (rows visit))).
Proof.
  intros H.
  apply load_success_rows in H
    as (vurl & raw & ids & ci & gm & Hv & Hraw & _ & _ & _ & Hrows).
  exists vurl, raw. repeat (split; [assumption|]).
  rewrite Hrows, <- (strip_columns_index raw). split; [|split].
  - apply flat_map_indexed_labels.
  - apply flat_map_indexed_NoDup.
  - apply flat_map_indexed_sorted.
Qed.

Lemma labels_keep_their_order_witness :
  exists visit,
    load_data_from_gdrive (drive (inr visit_mixed) (inr roster_101))
                          visit_link group_link
    = inr ((Some visit, Some roster_101), [])
    /\ StronglySorted lt (map fst (rows visit)).
Proof.
  destruct load_visit_mixed as (visit & Hload & _).
  destruct (labels_keep_their_order _ _ _ _ _ _ Hload)
    as (vurl & raw & Hv & Hraw & _ & _ & Hsorted).
  vm_compute in Hv. injection Hv as <-.
  vm_compute in Hraw. injection Hraw as <-.
  exists visit. split; [exact Hload|]. apply Hsorted.
  simpl. repeat constructor.
Defined.

(** ** The join with the roster *)

Lemma fold_dict_set_other (key value : row -> cell) (l : list (nat * row))
  (d : dict) (k : cell) :
  (forall ir, In ir l -> key (snd ir) <> k) ->
  dict_get k (fold_left (fun d ir => dict_set (key (snd ir))
                                              (value (snd ir)) d) l d)
  = dict_get k d.
Proof.
  revert d. induction l as [|ir l IH]; intros d H; simpl; [reflexivity|].
  rewrite IH; [|intros x Hx; apply H; now right].
  apply dict_get_set_other.
  destruct (cell_eqb (key (snd ir)) k) eqn:E; [|reflexivity].
  apply cell_eqb_eq in E. exfalso. apply (H ir); [now left | exact E].
Qed.

(** A lookup gives the value of the last row that carries the key. *)
Lemma to_dict_last (key value : string) (df : DataFrame) (d : dict)
  (pre post : list (nat * row)) (j : nat) (g : row) :
  to_dict key value df = inr d ->
  rows df = (pre ++ (j, g) :: post)%list ->
  (forall ir, In ir post -> get key (snd ir) <> get key g) ->
  dict_get (get key g) d = Some (get value g).
Proof.
  unfold to_dict. intros Hd Hrows Hpost.
  destruct (has_column key df); [|discriminate]. cbn [negb] in Hd.
  destruct (has_column value df); [|discriminate]. cbn [negb ret] in Hd.
  injection Hd as <-. rewrite Hrows, fold_left_app. cbn [fold_left snd].
  rewrite (fold_dict_set_other (get key) (get value)); [|exact Hpost].
  apply dict_get_set_same.
Qed.

(** The last row of a list that carries a given key. *)
Lemma last_with_key (key : row -> cell) (l : list (nat * row)) (k : cell) :
  In k (map (fun ir => key (snd ir)) l) ->
  exists pre j g post,
    l = (pre ++ (j, g) :: post)%list
    /\ key g = k
    /\ forall ir, In ir post -> key (snd ir) <> key g.
Proof.
  induction l as [|[i r] l IH]; simpl; [contradiction|].
  intros H.
  destruct (in_dec (fun a b => match Bool.bool_dec (cell_eqb a b) true with
                               | left E => left (proj1 (cell_eqb_eq a b) E)
                               | right E =>
                                   right (fun H => E (proj2 (cell_eqb_eq a b) H))
                               end)
                   k (map (fun ir => key (snd ir)) l)) as [Hin|Hout].
  - destruct (IH Hin) as (pre & j & g & post & -> & Hk & Hpost).
    exists ((i, r) :: pre), j, g, post. now repeat split.
  - destruct H as [H|H]; [|contradiction].
    exists [], i, r, l. repeat split; [exact H|].
    intros ir Hir E. apply Hout. apply in_map_iff. exists ir.
    split; [now rewrite E | exact Hir].
Qed.

Lemma NoDup_key_unique (key : row -> cell) (l : list (nat * row))
  (a b : nat * row) :
  NoDup (map (fun ir => key (snd ir)) l) ->
  In a l -> In b l -> key (snd a) = key (snd b) -> a = b.
Proof.
  induction l as [|x l IH]; simpl; [contradiction|].
  intros Hnd Ha Hb E. inversion Hnd as [|? ? Hx Hnd']; subst.
  destruct Ha as [->|Ha], Hb as [->|Hb].
  - reflexivity.
  - exfalso. apply Hx. apply in_map_iff. exists b. now split.
  - exfalso. apply Hx. apply in_map_iff. exists a. now split.
  - now apply IH.
Qed.

(** X6.  In the loaded table, a record's name and team are those of a
    roster row with the record's agent id: of the last such row of the
    roster, hence of the only one when the roster's ids are distinct. *)
Theorem join_reads_the_roster
  (read_excel : string -> nat -> Exc DataFrame) (visit_url group_url : string)
  (visit groups : DataFrame) (shown : list message) :
  load_data_from_gdrive read_excel visit_url group_url
  = inr ((Some visit, Some groups), shown) ->
  forall i r, In (i, r) (rows visit) ->
    (exists pre j g post,
       rows groups = (pre ++ (j, g) :: post)%list
       /\ get "ID" g = get "Collector ID" r
       /\ (forall ir, In ir post -> get "ID" (snd ir) <> get "ID" g)
       /\ get "Collector Name" r = get "Agent Name" g
       /\ get "Group" r = get "Group" g)
    /\ (NoDup (map (fun ir => get "ID" (snd ir)) (rows groups)) ->
        forall j g,
          In (j, g) (rows groups) ->
          get "ID" g = get "Collector ID" r ->
          get "Collector Name" r = get "Agent Name" g
          /\ get "Group" r = get "Group" g).
Proof.
  intros H i r Hin.
  apply load_success_rows in H
    as (vurl & raw & ids & ci & gm & _ & _ & Hids & Hci & Hgm & Hrows).
  rewrite Hrows in Hin.
  apply in_flat_map_indexed in Hin as (r0 & _ & Hrow).
  apply normalized_row_inv in Hrow
    as (_ & _ & _ & Hid & _ & _ & _ & _ & _ & _ & _ & _ & Hname & Hgroup).
  apply isin_unique in Hid.
  assert (Hseries : ids = map (fun ir => get "ID" (snd ir)) (rows groups)).
  { unfold series in Hids. destruct (has_column "ID" groups);
      [|discriminate]. now injection Hids as <-. }
  rewrite Hseries in Hid.
  destruct (last_with_key (get "ID") _ _ Hid)
    as (pre & j & g & post & Hsplit & Hk & Hpost).
  assert (Hlast : get "Collector Name" r = get "Agent Name" g
                  /\ get "Group" r = get "Group" g).
  { rewrite Hname, Hgroup. unfold map_dict. rewrite <- Hk.
    rewrite (to_dict_last _ _ _ _ _ _ _ _ Hci Hsplit Hpost).
    now rewrite (to_dict_last _ _ _ _ _ _ _ _ Hgm Hsplit Hpost). }
  split.
  - exists pre, j, g, post. now repeat split.
  - intros Hnd j' g' Hin' Hk'.
    assert (E : (j', g') = (j, g)).
    { apply (NoDup_key_unique (get "ID") (rows groups)); try assumption.
      - rewrite Hsplit. apply in_elt.
      - cbn [snd]. congruence. }
    injection E as -> ->. exact Hlast.
Qed.

Lemma join_reads_the_roster_witness :
  get "Collector Name" (snd (hd (0, []) (rows normalized_101)))
  = Str "A-Smith"
  /\ get "Group" (snd (hd (0, []) (rows normalized_101))) = Str "T1".
Proof.
  assert (Hload : load_data_from_gdrive
                    (drive (inr visit_101) (inr roster_101))
                    visit_link group_link
                  = inr ((Some normalized_101, Some roster_101), [])).
  { vm_compute. reflexivity. }
  destruct (join_reads_the_roster _ _ _ _ _ _ Hload 0
              (snd (hd (0, []) (rows normalized_101)))
              (or_introl eq_refl)) as [_ Hunique].
  apply (Hunique (ltac:(simpl; repeat constructor; simpl; tauto)) 0
                 [("ID", Str "101"); ("Agent Name", Str "A-Smith");
                  ("Group", Str "T1")]).
  - left. reflexivity.
  - reflexivity.
Defined.

(** ** Links that do not resolve *)

Lemma no_marker_no_address (share_link : string) :
  PyStr.contains "spreadsheets/d/" share_link = false ->
  PyStr.contains "file/d/" share_link = false ->
  get_gdrive_download_url share_link = inr (None, [WarnBadLink share_link]).
Proof.
  intros H1 H2. unfold get_gdrive_download_url. now rewrite H1, H2.
Qed.

Lemma marked_link_resolves (share_link : string) :
  PyStr.contains "spreadsheets/d/" share_link
  || PyStr.contains "file/d/" share_link = true ->
  exists url, get_gdrive_download_url share_link = inr (Some url, [])
              /\ falsy (Some url) = false.
Proof.
  intros H.
  destruct (get_gdrive_download_url_total share_link) as [Hu|Hn];
    [exact Hu|].
  unfold get_gdrive_download_url in Hn.
  destruct (PyStr.contains "spreadsheets/d/" share_link) eqn:H1.
  - apply (contains_suffix "spreadsheets" "/d/") in H1.
    destruct (file_id_of_total _ H1) as (file_id & E).
    rewrite E in Hn. discriminate Hn.
  - cbn [orb] in H. rewrite H in Hn.
    apply (contains_suffix "file" "/d/") in H.
    destruct (file_id_of_total _ H) as (file_id & E).
    rewrite E in Hn. discriminate Hn.
Qed.

(** X7.  When one of the two links has neither marker, the loader reads
    no workbook at all: its result is the same whatever the drive holds,
    it is [(None, None)], and what it shows is the warning of every link
    without a marker, the visit link's first, and nothing else. *)
Theorem bad_link_reads_nothing
  (read_excel read_excel' : string -> nat -> Exc DataFrame)
  (visit_url group_url : string) :
  (PyStr.contains "spreadsheets/d/" visit_url = false
   /\ PyStr.contains "file/d/" visit_url = false)
  \/ (PyStr.contains "spreadsheets/d/" group_url = false
      /\ PyStr.contains "file/d/" group_url = false) ->
  load_data_from_gdrive read_excel visit_url group_url
  = load_data_from_gdrive read_excel' visit_url group_url
  /\ load_data_from_gdrive read_excel visit_url group_url
     = inr ((None, None),
            ((if PyStr.contains "spreadsheets/d/" visit_url
                 || PyStr.contains "file/d/" visit_url
              then [] else [WarnBadLink visit_url])
             ++ (if PyStr.contains "spreadsheets/d/" group_url
                    || PyStr.contains "file/d/" group_url
                 then [] else [WarnBadLink group_url]))%list).
Proof.
  intros H. unfold load_data_from_gdrive.
  destruct (PyStr.contains "spreadsheets/d/" visit_url
            || PyStr.contains "file/d/" visit_url) eqn:Mv;
    destruct (PyStr.contains "spreadsheets/d/" group_url
              || PyStr.contains "file/d/" group_url) eqn:Mg.
  - exfalso. destruct H as [[H1 H2]|[H1 H2]].
    + rewrite H1, H2 in Mv. discriminate Mv.
    + rewrite H1, H2 in Mg. discriminate Mg.
  - apply orb_false_iff in Mg as [G1 G2].
    destruct (marked_link_resolves _ Mv) as (u & Ev & Fv).
    rewrite Ev, (no_marker_no_address _ G1 G2).
    cbn [bind fst snd app]. rewrite Fv. cbn [falsy orb ret].
    split; reflexivity.
  - apply orb_false_iff in Mv as [V1 V2].
    destruct (marked_link_resolves _ Mg) as (w & Eg & Fg).
    rewrite Eg, (no_marker_no_address _ V1 V2).
    cbn [bind fst snd app falsy orb ret]. split; reflexivity.
  - apply orb_false_iff in Mv as [V1 V2].
    apply orb_false_iff in Mg as [G1 G2].
    rewrite (no_marker_no_address _ V1 V2), (no_marker_no_address _ G1 G2).
    cbn [bind fst snd app falsy orb ret]. split; reflexivity.
Qed.

Lemma bad_link_reads_nothing_witness :
  load_data_from_gdrive (drive (inr visit_101) (inr roster_101))
                        "https://example.com/visits.xlsx" group_link
  = load_data_from_gdrive (drive (inl IndexError) (inl IndexError))
                          "https://example.com/visits.xlsx" group_link
  /\ load_data_from_gdrive (drive (inr visit_101) (inr roster_101))
                           "https://example.com/visits.xlsx" group_link
     = inr ((None, None), [WarnBadLink "https://example.com/visits.xlsx"]).
Proof.
  apply (bad_link_reads_nothing
           (drive (inr visit_101) (inr roster_101))
           (drive (inl IndexError) (inl IndexError))
           "https://example.com/visits.xlsx" group_link).
  left. split; reflexivity.
Defined.

(** ** The addresses the resolver builds *)

Lemma prefix_empty (s : string) : String.prefix "" s = true.
Proof. now destruct s. Qed.

Lemma prefix_char (x c : ascii) (s : string) :
  String.prefix (String x "") (String c s) = Ascii.eqb x c.
Proof.
  simpl. destruct (Ascii.ascii_dec x c) as [->|Hne].
  - now rewrite prefix_empty, Ascii.eqb_refl.
  - symmetry. now apply Ascii.eqb_neq.
Qed.

Lemma contains_char_app (x : ascii) (a b : string) :
  PyStr.contains (String x "") (a ++ b)
  = PyStr.contains (String x "") a || PyStr.contains (String x "") b.
Proof.
  induction a as [|c a IH].
  - cbn [append PyStr.contains]. destruct b; reflexivity.
  - cbn [append PyStr.contains]. rewrite !prefix_char, IH.
    now rewrite orb_assoc.
Qed.

(** The first piece of a split at a character does not hold it. *)
Lemma split_char_first (x : ascii) (s cur piece : string)
  (pieces : list string) :
  PyStr.contains (String x "") cur = false ->
  PyStr.split_go (String x "") 0 cur s = piece :: pieces ->
  PyStr.contains (String x "") piece = false.
Proof.
  revert cur. induction s as [|c s IH]; intros cur Hcur H.
  - cbn [PyStr.split_go] in H. now injection H as <- _.
  - cbn [PyStr.split_go] in H. rewrite prefix_char in H.
    destruct (Ascii.eqb x c) eqn:E.
    + now injection H as <- _.
    + apply (IH (cur ++ String c "")); [|exact H].
      rewrite contains_char_app, Hcur. cbn [PyStr.contains orb].
      now rewrite prefix_char, E.
Qed.

Lemma file_id_of_clean (share_link file_id : string) :
  file_id_of share_link = inr file_id ->
  PyStr.contains "/" file_id = false.
Proof.
  unfold file_id_of, item.
  destruct (nth_error (PyStr.split "/d/" share_link) 1) as [after|];
    [|discriminate]. cbn [bind ret].
  unfold PyStr.split.
  destruct (PyStr.split_go "/" 0 "" after) as [|piece pieces] eqn:E;
    [discriminate|].
  cbn [nth_error]. intros H. injection H as <-.
  apply (split_char_first "/" after "" piece pieces); [reflexivity | exact E].
Qed.

(** X8.  The resolver raises nothing on any text.  What it returns is
    either no address, with the warning about the link, or, without any
    message, an address of one of the two download patterns, written
    around a file id that has no slash in it. *)
Theorem resolver_never_raises (share_link : string) :
  get_gdrive_download_url share_link = inr (None, [WarnBadLink share_link])
  \/ exists file_id,
       PyStr.contains "/" file_id = false
       /\ (get_gdrive_download_url share_link
           = inr (Some ("https://docs.google.com/spreadsheets/d/"
                        ++ file_id ++ "/export?format=xlsx"), [])
           \/ get_gdrive_download_url share_link
              = inr (Some ("https://drive.google.com/uc?export=download&id="
                           ++ file_id), [])).
Proof.
  unfold get_gdrive_download_url.
  destruct (PyStr.contains "spreadsheets/d/" share_link) eqn:H1.
  - right. apply (contains_suffix "spreadsheets" "/d/") in H1.
    destruct (file_id_of_total _ H1) as (file_id & E).
    exists file_id. split; [exact (file_id_of_clean _ _ E)|].
    left. now rewrite E.
  - destruct (PyStr.contains "file/d/" share_link) eqn:H2.
    + right. apply (contains_suffix "file" "/d/") in H2.
      destruct (file_id_of_total _ H2) as (file_id & E).
      exists file_id. split; [exact (file_id_of_clean _ _ E)|].
      right. now rewrite E.
    + now left.
Qed.

Lemma length_append_text (a b : string) :
  String.length (a ++ b) = String.length a + String.length b.
Proof. induction a as [|c a IH]; simpl; [reflexivity | now rewrite IH]. Qed.

Lemma prefix_shorter (a x w : string) :
  String.prefix a (x ++ w) = true ->
  String.length a <= String.length x ->
  String.prefix a x = true.
Proof.
  revert x. induction a as [|c a IH]; intros x H Hlen.
  - apply prefix_empty.
  - destruct x as [|d x]; [simpl in Hlen; lia|].
    cbn [append] in H. simpl in H. simpl.
    destruct (Ascii.ascii_dec c d); [|discriminate].
    apply IH; [exact H | simpl in Hlen; lia].
Qed.

(** Splitting at [/d/] a text whose first [/d/] comes right after [p]. *)
Lemma split_at_first_marker (p u cur : string) :
  PyStr.contains "/d/" (p ++ "/d") = false ->
  PyStr.split_go "/d/" 0 cur (p ++ "/d/" ++ u)
  = (cur ++ p) :: PyStr.split_go "/d/" 0 "" u.
Proof.
  revert cur. induction p as [|c p IH]; intros cur H.
  - cbn [append]. rewrite append_empty_r.
    cbn [PyStr.split_go]. 
    replace (String.prefix "/d/" (String "/" (String "d" (String "/" u))))
      with true by (simpl; now rewrite prefix_empty).
    reflexivity.
  - cbn [append PyStr.contains] in H.
    apply orb_false_iff in H as [Hp Hc].
    assert (Hp' : String.prefix "/d/" (String c (p ++ "/d/" ++ u)) = false).
    { destruct (String.prefix "/d/" (String c (p ++ "/d/" ++ u))) eqn:E;
        [|reflexivity].
      rewrite <- Hp. symmetry.
      apply (prefix_shorter "/d/" (String c (p ++ "/d")) ("/" ++ u)).
      - cbn [append]. rewrite append_assoc. exact E.
      - simpl. rewrite length_append_text. simpl. lia. }
    specialize (IH (cur ++ String c "") Hc).
    set (tail := "/d/" ++ u) in *.
    cbn [append PyStr.split_go].
    rewrite Hp', IH, append_assoc. reflexivity.
Qed.

(** The first piece of a split starts with what was collected and goes
    on with a prefix of the text. *)
Lemma split_go_first_prefix (sep s cur piece : string)
  (pieces : list string) :
  PyStr.split_go sep 0 cur s = piece :: pieces ->
  exists w v, piece = cur ++ w /\ s = w ++ v.
Proof.
  revert cur. induction s as [|c s IH]; intros cur H.
  - cbn [PyStr.split_go] in H. injection H as <- _.
    exists "", "". now rewrite append_empty_r.
  - cbn [PyStr.split_go] in H.
    destruct (String.prefix sep (String c s)).
    + injection H as <- _. exists "", (String c s).
      now rewrite append_empty_r.
    + destruct (IH _ H) as (w & v & -> & ->).
      exists (String c w), v. now rewrite append_assoc.
Qed.

(** The first piece of a split at [/], for a text that is [id] or [id]
    and then a slash. *)
Lemma split_slash_first (id w cur : string) :
  PyStr.contains "/" id = false ->
  w = "" \/ (exists w', w = String "/" w') ->
  exists pieces,
    PyStr.split_go "/" 0 cur (id ++ w) = (cur ++ id) :: pieces.
Proof.
  revert cur. induction id as [|c id IH]; intros cur Hid Hw.
  - cbn [append]. rewrite append_empty_r.
    destruct Hw as [->|[w' ->]].
    + now exists [].
    + cbn [PyStr.split_go]. rewrite prefix_char. cbn [Ascii.eqb Bool.eqb].
      eexists. reflexivity.
  - cbn [PyStr.contains] in Hid. rewrite prefix_char in Hid.
    apply orb_false_iff in Hid as [Hc Hid].
    cbn [append PyStr.split_go]. rewrite prefix_char, Hc.
    destruct (IH (cur ++ String c "") Hid Hw) as [pieces E].
    exists pieces. now rewrite E, append_assoc.
Qed.

Lemma string_app_slash (id t w v : string) :
  PyStr.contains "/" id = false ->
  t = "" \/ (exists t', t = String "/" t') ->
  id ++ t = w ++ v ->
  (exists w', w' <> "" /\ id = w ++ w')
  \/ exists w', w = id ++ w' /\ (w' = "" \/ exists w'', w' = String "/" w'').
Proof.
  revert w. induction id as [|c id IH]; intros w Hid Ht E.
  - right. exists w. split; [reflexivity|].
    cbn [append] in E. destruct w as [|d w]; [now left|].
    right. destruct Ht as [->|[t' ->]]; [discriminate|].
    cbn [append] in E. injection E as <- _. now exists w.
  - cbn [PyStr.contains] in Hid. rewrite prefix_char in Hid.
    apply orb_false_iff in Hid as [Hc Hid].
    destruct w as [|d w].
    + left. exists (String c id). split; [discriminate | reflexivity].
    + cbn [append] in E. injection E as <- E.
      destruct (IH w Hid Ht E) as [(w' & Hne & ->)|(w' & -> & Hw')].
      * left. now exists w'.
      * right. now exists w'.
Qed.

Lemma prefix_split (a s : string) :
  String.prefix a s = true -> exists v, s = a ++ v.
Proof.
  revert s. induction a as [|c a IH]; intros s H.
  - now exists s.
  - destruct s as [|d s]; simpl in H; [discriminate|].
    destruct (Ascii.ascii_dec c d) as [->|]; [|discriminate].
    destruct (IH _ H) as [v ->]. now exists v.
Qed.

Lemma prefix_append (a v : string) : String.prefix a (a ++ v) = true.
Proof.
  induction a as [|c a IH]; [apply prefix_empty|].
  simpl. destruct (Ascii.ascii_dec c c); [exact IH | contradiction].
Qed.

Lemma contains_middle (q x r : string) :
  PyStr.contains x (q ++ x ++ r) = true.
Proof.
  induction q as [|c q IH].
  - cbn [append]. destruct (x ++ r) eqn:E.
    + cbn [PyStr.contains]. rewrite <- E. now rewrite prefix_append.
    + cbn [PyStr.contains]. rewrite <- E. now rewrite prefix_append.
  - cbn [append PyStr.contains]. rewrite IH. apply orb_true_r.
Qed.

Lemma append_cancel_l (w a b : string) : w ++ a = w ++ b -> a = b.
Proof.
  induction w as [|c w IH]; cbn [append]; [trivial|].
  intros H. injection H as H. now apply IH.
Qed.

(** The first piece of a split: the whole text, or the text up to an
    occurrence of the separator. *)
Lemma split_go_first (sep s cur piece : string) (pieces : list string) :
  PyStr.split_go sep 0 cur s = piece :: pieces ->
  exists w, piece = cur ++ w /\ (s = w \/ exists v, s = w ++ sep ++ v).
Proof.
  revert cur. induction s as [|c s IH]; intros cur H.
  - cbn [PyStr.split_go] in H. injection H as <- _.
    exists "". rewrite append_empty_r. split; [reflexivity | now left].
  - cbn [PyStr.split_go] in H.
    destruct (String.prefix sep (String c s)) eqn:Hp.
    + injection H as <- _. exists "". rewrite append_empty_r.
      split; [reflexivity|]. right. now apply prefix_split.
    + destruct (IH _ H) as (w & -> & Hs).
      exists (String c w). rewrite append_assoc. split; [reflexivity|].
      destruct Hs as [->|[v ->]]; [now left | right; now exists v].
Qed.

(** The file id of a link that has [id] between its first [/d/] and the
    next slash, or the end. *)
Lemma file_id_of_link (p id t : string) :
  PyStr.contains "/d/" (p ++ "/d") = false ->
  PyStr.contains "/" id = false ->
  t = "" \/ (exists t', t = String "/" t') ->
  file_id_of (p ++ "/d/" ++ id ++ t) = inr id.
Proof.
  intros Hp Hid Ht. unfold file_id_of, PyStr.split.
  rewrite (split_at_first_marker p (id ++ t) "" Hp).
  destruct (PyStr.split_go "/d/" 0 "" (id ++ t)) as [|piece pieces] eqn:E;
    [now apply split_go_nonempty in E|].
  cbn [item nth_error bind ret].
  assert (Hpiece : exists w', piece = id ++ w'
                              /\ (w' = "" \/ exists w'', w' = String "/" w'')).
  { apply split_go_first in E as (w & -> & Hs). cbn [append].
    destruct Hs as [<-|[v Hs]]; [now exists t|].
    destruct (string_app_slash id t w ("/d/" ++ v) Hid Ht Hs)
      as [(w' & Hne & Hw)|Hw]; [|exact Hw].
    exfalso. rewrite Hw, append_assoc in Hs.
    apply append_cancel_l in Hs.
    destruct w' as [|c w']; [contradiction|].
    cbn [append] in Hs. injection Hs as -> _.
    rewrite Hw, contains_char_app in Hid.
    cbn [PyStr.contains] in Hid. rewrite prefix_char in Hid.
    cbn [Ascii.eqb Bool.eqb orb] in Hid.
    rewrite orb_true_r in Hid. discriminate. }
  destruct Hpiece as (w' & -> & Hw').
  destruct (split_slash_first id w' "" Hid Hw') as [ps ->].
  reflexivity.
Qed.

(** X9.  A sharing link written as some text, the marker, a file id with
    no slash in it and then nothing or a slash and more, resolves to the
    download address with that very id, provided the marker's [/d/] is
    the first [/d/] of the link: the export address for a spreadsheet
    link, the download address for a file link that has no spreadsheet
    marker. *)
Theorem sharing_link_round_trip (q id t : string) :
  PyStr.contains "/" id = false ->
  t = "" \/ (exists t', t = String "/" t') ->
  (PyStr.contains "/d/" (q ++ "spreadsheets/d") = false ->
   get_gdrive_download_url (q ++ "spreadsheets/d/" ++ id ++ t)
   = inr (Some ("https://docs.google.com/spreadsheets/d/" ++ id
                ++ "/export?format=xlsx"), []))
  /\ (PyStr.contains "/d/" (q ++ "file/d") = false ->
      PyStr.contains "spreadsheets/d/" (q ++ "file/d/" ++ id ++ t) = false ->
      get_gdrive_download_url (q ++ "file/d/" ++ id ++ t)
      = inr (Some ("https://drive.google.com/uc?export=download&id=" ++ id),
             [])).
Proof.
  intros Hid Ht. split.
  - intros Hq. unfold get_gdrive_download_url.
    rewrite (contains_middle q "spreadsheets/d/" (id ++ t)).
    change (q ++ "spreadsheets/d/" ++ id ++ t)
      with (q ++ "spreadsheets" ++ "/d/" ++ id ++ t).
    rewrite <- (append_assoc q "spreadsheets").
    rewrite file_id_of_link; [reflexivity | | exact Hid | exact Ht].
    rewrite append_assoc. exact Hq.
  - intros Hq Hsheet. unfold get_gdrive_download_url.
    rewrite Hsheet, (contains_middle q "file/d/" (id ++ t)).
    change (q ++ "file/d/" ++ id ++ t)
      with (q ++ "file" ++ "/d/" ++ id ++ t).
    rewrite <- (append_assoc q "file").
    rewrite file_id_of_link; [reflexivity | | exact Hid | exact Ht].
    rewrite append_assoc. exact Hq.
Qed.

Lemma sharing_link_round_trip_witness :
  get_gdrive_download_url
    "https://docs.google.com/spreadsheets/d/1AbC_x-9/edit?usp=sharing"
  = inr (Some "https://docs.google.com/spreadsheets/d/1AbC_x-9/export?format=xlsx",
         [])
  /\ get_gdrive_download_url "https://drive.google.com/file/d/1AbC_x-9"
     = inr (Some "https://drive.google.com/uc?export=download&id=1AbC_x-9",
            []).
Proof.
  split.
  - apply (proj1 (sharing_link_round_trip "https://docs.google.com/"
                    "1AbC_x-9" "/edit?usp=sharing" eq_refl
                    (or_intror (ex_intro _ "edit?usp=sharing" eq_refl)))).
    reflexivity.
  - apply (proj2 (sharing_link_round_trip "https://drive.google.com/"
                    "1AbC_x-9" "" eq_refl (or_introl eq_refl)));
      reflexivity.
Defined.

(** ** The colours of the aging buckets *)

(** X10.  The colours of a label do not depend on its letter case or on
    whitespace around it: the raw text of an aging cell and the bucket
    that the loader makes of it, trimmed and upper-cased, get the same
    colours. *)
Theorem colors_ignore_case_and_blanks (text : string) :
  get_aging_colors (str_upper (str_strip (astype_str (Str text))))
  = get_aging_colors (Str text).
Proof.
  cbn [astype_str str str_strip str_upper get_aging_colors].
  now rewrite strip_upper_strip, upper_idem.
Qed.

Lemma lstrip_app_clean (a x : string) :
  x <> "" -> starts_clean x ->
  PyStr.lstrip (a ++ x) = PyStr.lstrip a ++ x.
Proof.
  intros Hne Hx. induction a as [|c a IH]; cbn [append PyStr.lstrip].
  - now apply lstrip_clean.
  - destruct (PyStr.isspace c); [exact IH | reflexivity].
Qed.

Lemma rstrip_app_nonempty (y b : string) :
  PyStr.rstrip b <> "" -> PyStr.rstrip (y ++ b) = y ++ PyStr.rstrip b.
Proof.
  intros Hb. induction y as [|c y IH]; cbn [append PyStr.rstrip];
    [reflexivity|].
  rewrite IH. destruct (y ++ PyStr.rstrip b) eqn:E; [|reflexivity].
  destruct y; cbn [append] in E; [contradiction | discriminate].
Qed.

Lemma rstrip_keeps_marker (c d : ascii) (b : string) :
  PyStr.isspace d = false ->
  exists b', PyStr.rstrip (String c (String d b)) = String c (String d b').
Proof.
  intros Hd. cbn [PyStr.rstrip].
  destruct (PyStr.is_empty (PyStr.rstrip b) && PyStr.isspace d) eqn:E.
  - rewrite Hd, andb_false_r in E. discriminate.
  - cbn [PyStr.is_empty andb]. now eexists.
Qed.

Lemma upper_app (a b : string) :
  PyStr.upper (a ++ b) = PyStr.upper a ++ PyStr.upper b.
Proof. induction a as [|c a IH]; simpl; [reflexivity | now rewrite IH]. Qed.

(** X11.  A label with [M6] in it, in either letter case and with
    anything before or after, gets the colours of the top tier: suffixed
    and prefixed variants of the label are all read as [M6]. *)
Theorem m6_anywhere_is_top_tier (a b : string) :
  get_aging_colors (Str (a ++ "M6" ++ b))
  = mk_colors "#86198F" "rgba(134, 25, 143, 0.15)"
  /\ get_aging_colors (Str (a ++ "m6" ++ b))
     = mk_colors "#86198F" "rgba(134, 25, 143, 0.15)".
Proof.
  assert (H : forall c, PyStr.upper_char c = "M"%char ->
              PyStr.isspace c = false ->
              get_aging_colors (Str (a ++ String c (String "6" b)))
              = mk_colors "#86198F" "rgba(134, 25, 143, 0.15)").
  { intros c Hc Hs. cbn [get_aging_colors]. unfold PyStr.strip.
    rewrite lstrip_app_clean; [|discriminate | exact Hs].
    destruct (rstrip_keeps_marker c "6" b eq_refl) as [b' Hb'].
    rewrite rstrip_app_nonempty; [|rewrite Hb'; discriminate].
    rewrite Hb', upper_app. cbn [PyStr.upper]. rewrite Hc.
    change (String "M" (String (PyStr.upper_char "6") (PyStr.upper b')))
      with ("M6" ++ PyStr.upper b').
    now rewrite contains_middle. }
  split; apply H; reflexivity.
Qed.

(** ** The colours of the month view *)

Lemma ratio_le (a b m : Z) :
  (a <= b)%Z -> (0 < m)%Z ->
  (inject_Z a / inject_Z m <= inject_Z b / inject_Z m)%Q.
Proof.
  intros Hab Hm. unfold Qdiv. apply Qmult_le_compat_r.
  - now rewrite <- Zle_Qle.
  - apply Qinv_le_0_compat. unfold Qle, inject_Z. simpl. lia.
Qed.

Lemma ratio_lt (a b m : Z) :
  (a < b)%Z -> (0 < m)%Z ->
  (inject_Z a / inject_Z m < inject_Z b / inject_Z m)%Q.
Proof.
  intros Hab Hm. unfold Qdiv. apply Qmult_lt_compat_r.
  - apply Qinv_lt_0_compat. unfold Qlt, inject_Z. simpl. lia.
  - now rewrite <- Zlt_Qlt.
Qed.

Lemma ratio_pos (a m : Z) :
  (0 < a)%Z -> (0 < m)%Z -> (0 < inject_Z a / inject_Z m)%Q.
Proof.
  intros Ha Hm. apply Qlt_shift_div_l.
  - unfold Qlt, inject_Z. simpl. lia.
  - rewrite Qmult_0_l. unfold Qlt, inject_Z. simpl. lia.
Qed.

Lemma heatmap_lightness (count max_count : Z) :
  (1 <= count)%Z -> (1 <= max_count)%Z ->
  get_heatmap_color count max_count
  = Hsl 220 80
        (95 - (inject_Z count / inject_Z max_count * 0.9 + 0.1) * 55)%Q.
Proof.
  intros Hc Hm. unfold get_heatmap_color, or_one.
  destruct (Z.eqb_spec count 0); [lia|].
  destruct (Z.eqb_spec max_count 0); [lia | reflexivity].
Qed.

(** X12.  With a maximum of at least 1, the colour of a day gets darker
    as its count grows: of two counts between 1 and the maximum the
    larger has the lower lightness, strictly so when the counts differ,
    and every such lightness lies from 40 up to, but not reaching,
    89.5. *)
Theorem heatmap_darkens_with_count (max_count c1 c2 : Z) :
  (1 <= c1)%Z -> (c1 <= c2)%Z -> (c2 <= max_count)%Z ->
  exists l1 l2,
    get_heatmap_color c1 max_count = Hsl 220 80 l1
    /\ get_heatmap_color c2 max_count = Hsl 220 80 l2
    /\ (l2 <= l1)%Q
    /\ ((c1 < c2)%Z -> (l2 < l1)%Q)
    /\ (40 <= l2)%Q
    /\ (l1 < 89.5)%Q.
Proof.
  intros H1 H12 H2.
  rewrite (heatmap_lightness c1 max_count), (heatmap_lightness c2 max_count);
    try lia.
  eexists. eexists. split; [reflexivity|]. split; [reflexivity|].
  assert (Hle : (inject_Z c1 / inject_Z max_count
                 <= inject_Z c2 / inject_Z max_count)%Q)
    by (apply ratio_le; lia).
  assert (Hpos : (0 < inject_Z c1 / inject_Z max_count)%Q)
    by (apply ratio_pos; lia).
  assert (Hone : (inject_Z c2 / inject_Z max_count <= 1)%Q).
  { apply Qle_shift_div_r.
    - unfold Qlt, inject_Z. simpl. lia.
    - rewrite Qmult_1_l. now rewrite <- Zle_Qle. }
  set (x1 := (inject_Z c1 / inject_Z max_count)%Q) in *.
  set (x2 := (inject_Z c2 / inject_Z max_count)%Q) in *.
  split; [lra|]. split; [|split; lra].
  intros Hlt.
  assert (Hlt' : (x1 < x2)%Q) by (apply ratio_lt; lia).
  lra.
Qed.

Lemma heatmap_darkens_with_count_witness :
  exists l1 l2,
    get_heatmap_color 1 4 = Hsl 220 80 l1
    /\ get_heatmap_color 3 4 = Hsl 220 80 l2
    /\ (l2 < l1)%Q.
Proof.
  destruct (heatmap_darkens_with_count 4 1 3)
    as (l1 & l2 & E1 & E2 & _ & Hlt & _); try discriminate.
  exists l1, l2. split; [exact E1|]. split; [exact E2|].
  apply Hlt. reflexivity.
Defined.

Lemma in_groupby_size (l : list cell) (c : cell) (n : Z) :
  In (c, n) (groupby_size l)
  <-> In c l /\ isna c = false /\ n = count_cell c l.
Proof.
  unfold groupby_size. rewrite in_sort_values, in_map_iff. split.
  - intros (x & E & Hin). injection E as -> <-.
    apply unique_In, filter_In in Hin as [Hin Hna].
    apply negb_true_iff in Hna.
    unfold count_cell. now rewrite filter_eqb_present.
  - intros (Hin & Hna & ->). exists c. split.
    + unfold count_cell. now rewrite filter_eqb_present.
    + apply unique_In, filter_In. split; [exact Hin|]. now rewrite Hna.
Qed.

Lemma count_cell_pos (c : cell) (l : list cell) :
  In c l -> (1 <= count_cell c l)%Z.
Proof.
  intros H. unfold count_cell.
  assert (Hin : In c (filter (cell_eqb c) l)).
  { apply filter_In. split; [exact H | apply cell_eqb_refl]. }
  destruct (filter (cell_eqb c) l); [contradiction | simpl; lia].
Qed.

Lemma count_cell_absent (c : cell) (l : list cell) :
  ~ In c l -> count_cell c l = 0%Z.
Proof.
  intros H. unfold count_cell.
  destruct (filter (cell_eqb c) l) as [|x xs] eqn:E; [reflexivity|].
  exfalso. apply H.
  assert (Hx : In x (filter (cell_eqb c) l)) by (rewrite E; now left).
  apply filter_In in Hx as [Hx Heq]. apply cell_eqb_eq in Heq. now subst.
Qed.

(** Reading a count off a table whose every row holds the count of its
    key. *)
Lemma count_on_spec (f : cell -> Z) (counts : list (cell * Z)) (day : cell) :
  (forall k n, In (k, n) counts -> n = f k) ->
  (In day (map fst counts) /\ count_on counts day = f day)
  \/ (~ In day (map fst counts) /\ count_on counts day = 0%Z).
Proof.
  induction counts as [|[k n] counts IH]; intros H; simpl.
  - right. tauto.
  - destruct (cell_eqb k day) eqn:E.
    + apply cell_eqb_eq in E. subst k. left. split; [now left|].
      apply H. now left.
    + destruct IH as [[Hin Hc]|[Hout Hc]].
      * intros k' n' Hk. apply H. now right.
      * left. split; [now right | exact Hc].
      * right. split; [|exact Hc]. intros [->|Hin]; [|contradiction].
        now rewrite cell_eqb_refl in E.
Qed.

Lemma fold_max_ge (l : list Z) (n : Z) :
  (n <= fold_left Z.max l n)%Z
  /\ forall x, In x l -> (x <= fold_left Z.max l n)%Z.
Proof.
  revert n. induction l as [|y l IH]; intros n; simpl.
  - split; [lia | contradiction].
  - destruct (IH (Z.max n y)) as [H1 H2]. split; [lia|].
    intros x [<-|Hx]; [lia | now apply H2].
Qed.

Lemma fold_max_in (l : list Z) (n : Z) :
  fold_left Z.max l n = n \/ In (fold_left Z.max l n) l.
Proof.
  revert n. induction l as [|y l IH]; intros n; simpl; [now left|].
  destruct (IH (Z.max n y)) as [H|H]; [|right; now right].
  rewrite H. destruct (Z.max_spec n y) as [[_ ->]|[_ ->]];
    [right; now left | now left].
Qed.

Lemma max_count_of_ge (counts : list (cell * Z)) (k : cell) (n : Z) :
  In (k, n) counts -> (n <= max_count_of counts)%Z.
Proof.
  destruct counts as [|[k0 n0] rest]; [contradiction|].
  cbn [max_count_of]. destruct (fold_max_ge (map snd rest) n0) as [H1 H2].
  intros [E|Hin].
  - injection E as _ <-. exact H1.
  - apply H2. apply in_map_iff. now exists (k, n).
Qed.

Lemma max_count_of_in (counts : list (cell * Z)) :
  counts <> [] -> exists k, In (k, max_count_of counts) counts.
Proof.
  destruct counts as [|[k0 n0] rest]; [contradiction|]. intros _.
  cbn [max_count_of].
  destruct (fold_max_in (map snd rest) n0) as [->|Hin].
  - exists k0. now left.
  - apply in_map_iff in Hin as ([k n] & E & Hin). cbn [snd] in E.
    exists k. right. now rewrite <- E.
Qed.

(** X13.  In the month view, the count read for a day is the number of
    the month's records of that day; it never exceeds the maximum used
    for scaling, which is at least 1.  So a day without records gets the
    empty colour and every other day a lightness from 40 up to, but not
    reaching, 89.5, with 40 for a day that holds the maximum. *)
Theorem month_view_colors (base_filtered_data : DataFrame) (y m : Z)
  (counts : list (cell * Z)) (d : date) :
  daily_counts base_filtered_data y m = inr counts ->
  let of_month :=
    filter (fun ir =>
              cell_eqb (dt_year (get "Create Time" (snd ir))) (Int y)
              && cell_eqb (dt_month (get "Create Time" (snd ir))) (Int m))
           (rows base_filtered_data) in
  let n :=
    Z.of_nat (List.length
                (filter (fun ir => cell_eqb (Date d) (get "Date" (snd ir)))
                        of_month)) in
  count_on counts (Date d) = n
  /\ (n <= max_count_of counts)%Z
  /\ (1 <= max_count_of counts)%Z
  /\ (n = 0%Z -> day_color counts (Date d) = Hex "#F3F4F6")
  /\ (n <> 0%Z ->
      exists l,
        day_color counts (Date d) = Hsl 220 80 l
        /\ (40 <= l)%Q /\ (l < 89.5)%Q
        /\ (n = max_count_of counts -> (l == 40)%Q)).
Proof.
  intros H of_month n. unfold daily_counts in H.
  destruct (series "Create Time" base_filtered_data) as [e|times];
    [discriminate|]. cbn [bind] in H.
  unfold series in H. destruct (has_column "Date" _); [|discriminate].
  cbn [bind ret] in H. injection H as <-.
  unfold keep. cbn [rows]. fold of_month.
  set (dates := map (fun ir => get "Date" (snd ir)) of_month).
  assert (Hn : count_cell (Date d) dates = n).
  { unfold count_cell, dates, n. now rewrite length_filter_map. }
  assert (Hcounts : forall k c, In (k, c) (groupby_size dates) ->
                      c = count_cell k dates).
  { intros k c Hk. now apply in_groupby_size in Hk as (_ & _ & ->). }
  assert (Hmax : (1 <= max_count_of (groupby_size dates))%Z).
  { destruct (groupby_size dates) as [|[k0 n0] rest] eqn:E; [simpl; lia|].
    assert (H0 : In (k0, n0) (groupby_size dates)) by (rewrite E; now left).
    pose proof H0 as H0'. apply in_groupby_size in H0' as (Hin & _ & ->).
    rewrite <- E.
    pose proof (max_count_of_ge _ _ _ H0). pose proof (count_cell_pos _ _ Hin).
    lia. }
  assert (Hread : count_on (groupby_size dates) (Date d) = n
                  /\ (n <= max_count_of (groupby_size dates))%Z
                  /\ (0 <= n)%Z).
  { destruct (count_on_spec (fun k => count_cell k dates) _ (Date d) Hcounts)
      as [[Hin Hc]|[Hout Hc]]; rewrite Hc.
    - rewrite Hn. split; [reflexivity|]. split; [|unfold n; lia].
      apply in_map_iff in Hin as ([k c] & E & Hin). cbn [fst] in E. subst k.
      rewrite <- Hn, <- (Hcounts _ _ Hin).
      exact (max_count_of_ge _ _ _ Hin).
    - assert (Hzero : n = 0%Z).
      { rewrite <- Hn. apply count_cell_absent. intros Hin. apply Hout.
        apply in_map_iff. exists (Date d, count_cell (Date d) dates).
        split; [reflexivity|]. now apply in_groupby_size. }
      rewrite Hzero. split; [reflexivity|]. split; lia. }
  destruct Hread as (Hread & Hle & Hge).
  split; [exact Hread|]. split; [exact Hle|]. split; [exact Hmax|].
  unfold day_color. rewrite Hread. split.
  - intros Hz. now rewrite Hz.
  - intros Hnz. rewrite heatmap_lightness; [|lia|exact Hmax].
    eexists. split; [reflexivity|].
    set (mx := max_count_of (groupby_size dates)) in *.
    assert (Hpos : (0 < inject_Z n / inject_Z mx)%Q)
      by (apply ratio_pos; lia).
    assert (Hone : (inject_Z n / inject_Z mx <= 1)%Q).
    { apply Qle_shift_div_r.
      - unfold Qlt, inject_Z. simpl. lia.
      - rewrite Qmult_1_l. now rewrite <- Zle_Qle. }
    split; [|split].
    + set (x := (inject_Z n / inject_Z mx)%Q) in *. lra.
    + set (x := (inject_Z n / inject_Z mx)%Q) in *. lra.
    + intros ->. field. unfold Qeq, inject_Z. simpl. lia.
Qed.

Lemma month_view_colors_witness :
  exists counts,
    daily_counts sample_week 2024 6 = inr counts
    /\ count_on counts (Date (mk_date 2024 6 3)) = 3%Z
    /\ (1 <= max_count_of counts)%Z
    /\ day_color counts (Date (mk_date 2024 6 5)) = Hex "#F3F4F6".
Proof.
  eexists. split; [reflexivity|].
  destruct (month_view_colors sample_week 2024 6 _ (mk_date 2024 6 3) eq_refl)
    as (Hcount & _ & Hmax & _).
  destruct (month_view_colors sample_week 2024 6 _ (mk_date 2024 6 5) eq_refl)
    as (_ & _ & _ & Hempty & _).
  split; [exact Hcount|]. split; [exact Hmax|].
  exact (Hempty eq_refl).
Defined.

(** ** The tables of counts as partitions of the records *)

Lemma count_cell_cons (c x : cell) (l : list cell) :
  count_cell c (x :: l)
  = ((if cell_eqb c x then 1 else 0) + count_cell c l)%Z.
Proof.
  unfold count_cell. cbn [filter].
  destruct (cell_eqb c x); cbn [List.length]; lia.
Qed.

Lemma count_unseen (x : cell) (seen l : list cell) :
  ~ In x seen ->
  (count_cell x l
   + Z.of_nat (List.length (filter (fun y => negb (isin (x :: seen) y)) l))
   = Z.of_nat (List.length (filter (fun y => negb (isin seen y)) l)))%Z.
Proof.
  intros Hx. unfold isin. induction l as [|y l IH].
  - reflexivity.
  - rewrite count_cell_cons. cbn [filter existsb].
    destruct (cell_eqb x y) eqn:E.
    + apply cell_eqb_eq in E. subst y. rewrite cell_eqb_refl. cbn [orb negb].
      assert (Hs : existsb (cell_eqb x) seen = false).
      { destruct (existsb (cell_eqb x) seen) eqn:Es; [|reflexivity].
        exfalso. apply Hx. now apply isin_In. }
      rewrite Hs. cbn [negb List.length]. cbn [existsb] in IH. lia.
    + rewrite cell_eqb_sym, E. cbn [orb]. cbn [existsb] in IH.
      destruct (existsb (cell_eqb y) seen); cbn [negb List.length]; lia.
Qed.

Lemma sum_counts_unique_go (l seen : list cell) :
  fold_right Z.add 0%Z (map (fun c => count_cell c l) (unique_go seen l))
  = Z.of_nat (List.length (filter (fun y => negb (isin seen y)) l)).
Proof.
  revert seen. induction l as [|x l IH]; intros seen; [reflexivity|].
  cbn [unique_go filter].
  assert (Hother : forall seen', In x seen' ->
            map (fun c => count_cell c (x :: l)) (unique_go seen' l)
            = map (fun c => count_cell c l) (unique_go seen' l)).
  { intros seen' Hx. apply map_ext_in. intros c Hc.
    apply unique_go_In in Hc as [_ Hc].
    rewrite count_cell_cons.
    destruct (cell_eqb c x) eqn:E; [|lia].
    apply cell_eqb_eq in E. subst c. contradiction. }
  destruct (isin seen x) eqn:Es.
  - cbn [negb]. rewrite Hother; [apply IH | now apply isin_In].
  - cbn [negb map fold_right List.length].
    rewrite Hother; [|now left]. rewrite IH, count_cell_cons, cell_eqb_refl.
    assert (Hx : ~ In x seen).
    { intros H. apply isin_In in H. congruence. }
    pose proof (count_unseen x seen l Hx). lia.
Qed.

Lemma NoDup_unique_go (l seen : list cell) : NoDup (unique_go seen l).
Proof.
  revert seen. induction l as [|x l IH]; intros seen; cbn [unique_go];
    [constructor|].
  destruct (isin seen x); [apply IH|].
  constructor; [|apply IH].
  intros H. apply unique_go_In in H as [_ H]. apply H. now left.
Qed.

Lemma sum_perm (l l' : list Z) :
  Permutation l l' ->
  fold_right Z.add 0%Z l = fold_right Z.add 0%Z l'.
Proof. induction 1; simpl; lia. Qed.

Lemma filter_unseen_nil (l : list cell) :
  filter (fun y => negb (isin [] y)) l = l.
Proof.
  unfold isin. induction l as [|x xs IH]; [reflexivity|].
  simpl in *. now rewrite IH.
Qed.

(** The keys of [value_counts] are distinct and its counts add up to the
    number of values that are not missing. *)
Lemma value_counts_partition (l : list cell) :
  NoDup (map fst (value_counts l))
  /\ fold_right Z.add 0%Z (map snd (value_counts l))
     = Z.of_nat (List.length (filter (fun c => negb (isna c)) l)).
Proof.
  unfold value_counts.
  set (present := filter (fun c => negb (isna c)) l).
  set (counted := map (fun c => (c, count_cell c present)) (unique present)).
  pose proof (sort_values_perm (fun vc : cell * Z => (- snd vc)%Z) counted)
    as Hperm.
  split.
  - apply (Permutation_NoDup (l := map fst counted)).
    + symmetry. now apply Permutation_map.
    + unfold counted. rewrite map_map. cbn [fst]. rewrite map_id.
      apply NoDup_unique_go.
  - rewrite (sum_perm _ (map snd counted)); [|now apply Permutation_map].
    unfold counted. rewrite map_map. cbn [snd]. unfold unique.
    now rewrite sum_counts_unique_go, filter_unseen_nil.
Qed.



(** X15.  The table of averages of the comparison view also has one row
    for every label.  The average of a row is the binary64 quotient, by
    the size of the group, of the number of the group's records with
    that label; this number is at least 1, and over the rows these
    numbers add up to the number of the group's records whose aging cell
    is not missing: no record is counted twice or lost before the
    division. *)
Theorem aging_averages_partition (comp_data : DataFrame) (group : list cell)
  (table : list (aging_row PrimFloat.float)) (shown : list message) :
  aging_counts_comp comp_data group = inr (Some table, shown) ->
  let members :=
    filter (fun ir => isin group (get "Collector Name" (snd ir)))
           (rows comp_data) in
  let records_of (label : cell) :=
    Z.of_nat
      (List.length
         (filter (fun ir => cell_eqb label (get "Aging" (snd ir)))
                 members)) in
  NoDup (map Aging table)
  /\ (forall row, In row table ->
        (1 <= records_of (Aging row))%Z
        /\ Count row
           = PrimFloat.div (float_of_int (records_of (Aging row)))
                           (float_of_int (Z.of_nat (List.length group))))
  /\ fold_right Z.add 0%Z (map (fun row => records_of (Aging row)) table)
     = Z.of_nat
         (List.length
            (filter (fun ir => negb (isna (get "Aging" (snd ir))))
                    members)).
Proof.
  intros H members records_of.
  apply aging_counts_comp_inv in H as [_ ->].
  fold members.
  set (aging := map (fun ir => get "Aging" (snd ir)) members).
  set (N := Z.of_nat (List.length group)).
  assert (Hrec : forall c, records_of c = count_cell c aging).
  { intros c. unfold records_of, count_cell, aging.
    now rewrite length_filter_map. }
  set (counted := map (fun vc : cell * Z =>
                         mk_aging_row (fst vc) (true_divide (snd vc) N)
                                      (aging_sort (fst vc)))
                      (value_counts aging)).
  assert (Hperm : Permutation
                    (by_aging_bucket (fun n => true_divide n N) aging)
                    counted)
    by apply sort_values_perm.
  destruct (value_counts_partition aging) as [Hnd Hsum].
  split; [|split].
  - apply (Permutation_NoDup (l := map Aging counted)).
    + symmetry. now apply Permutation_map.
    + unfold counted. rewrite map_map. exact Hnd.
  - intros row Hin. apply in_by_aging_bucket in Hin as (c & Hc & _ & ->).
    cbn [Aging Count]. rewrite Hrec. split; [|reflexivity].
    now apply count_cell_pos.
  - rewrite (sum_perm _ (map (fun row => records_of (Aging row)) counted));
      [|now apply Permutation_map].
    unfold counted. rewrite map_map. cbn [Aging].
    rewrite (map_ext_in _ snd).
    + rewrite Hsum. unfold aging. f_equal.
      rewrite <- (length_filter_map
                    (fun ir : nat * row => get "Aging" (snd ir))
                    (fun c => negb (isna c))).
      reflexivity.
    + intros [c n] Hin. cbn [fst snd]. rewrite Hrec.
      now apply in_value_counts in Hin as (_ & _ & ->).
Qed.

Lemma aging_averages_partition_witness :
  exists table,
    aging_counts_comp sample_records [Str "A-Smith"; Str "B-Jones"]
    = inr (Some table, [])
    /\ map Aging table = [Str "LEGAL"; Str "M2"; Str "M3"]
    /\ NoDup (map Aging table)
    /\ fold_right Z.add 0%Z
         (map (fun row =>
                 Z.of_nat
                   (List.length
                      (filter (fun ir => cell_eqb (Aging row)
                                                  (get "Aging" (snd ir)))
                              (filter (fun ir =>
                                         isin [Str "A-Smith"; Str "B-Jones"]
                                              (get "Collector Name" (snd ir)))
                                      (rows sample_records)))))
              table)
       = 4%Z.
Proof.
  assert (H : exists table,
             aging_counts_comp sample_records [Str "A-Smith"; Str "B-Jones"]
             = inr (Some table, [])
             /\ map Aging table = [Str "LEGAL"; Str "M2"; Str "M3"])
    by (vm_compute; eexists; split; reflexivity).
  destruct H as (table & Ht & Hlabels).
  pose proof (aging_averages_partition sample_records
                [Str "A-Smith"; Str "B-Jones"] table [] Ht)
    as (Hnd & _ & Hsum).
  exists table. split; [exact Ht|]. split; [exact Hlabels|].
  split; [exact Hnd | exact Hsum].
Defined.

(** ** The cards of a day *)





(** ** The calendar: days, ordinals and weekdays *)

Lemma days_in_month_bounds y m :
  (28 <= Strptime.days_in_month y m <= 31)%Z.
Proof.
  unfold Strptime.days_in_month.
  destruct (m =? 2)%Z; [destruct (Strptime.is_leap y); lia|].
  destruct ((m =? 4) || (m =? 6) || (m =? 9) || (m =? 11))%Z; lia.
Qed.

Lemma on_calendar_spec d :
  on_calendar d = true <->
  (1 <= d_month d <= 12
   /\ 1 <= d_day d <= Strptime.days_in_month (d_year d) (d_month d))%Z.
Proof.
  unfold on_calendar. rewrite !andb_true_iff, !Z.leb_le. lia.
Qed.

Lemma in_range_spec d :
  in_range d = true <-> (1 <= d_year d <= 9999)%Z.
Proof.
  unfold in_range. rewrite andb_true_iff, !Z.leb_le. lia.
Qed.

Lemma next_day_on_calendar d :
  on_calendar d = true -> on_calendar (next_day d) = true.
Proof.
  rewrite !on_calendar_spec. intros H. unfold next_day.
  destruct (Z.ltb_spec (d_day d)
              (Strptime.days_in_month (d_year d) (d_month d))).
  - cbn [d_year d_month d_day]. lia.
  - destruct (Z.ltb_spec (d_month d) 12); cbn [d_year d_month d_day].
    + pose proof (days_in_month_bounds (d_year d) (d_month d + 1)). lia.
    + pose proof (days_in_month_bounds (d_year d + 1) 1). lia.
Qed.

Lemma prev_day_on_calendar d :
  on_calendar d = true -> on_calendar (prev_day d) = true.
Proof.
  rewrite !on_calendar_spec. intros H. unfold prev_day.
  destruct (Z.ltb_spec 1 (d_day d)).
  - cbn [d_year d_month d_day]. lia.
  - destruct (Z.ltb_spec 1 (d_month d)); cbn [d_year d_month d_day].
    + pose proof (days_in_month_bounds (d_year d) (d_month d - 1)). lia.
    + change (Strptime.days_in_month (d_year d - 1) 12) with 31%Z. lia.
Qed.

Lemma prev_next_day d :
  on_calendar d = true -> prev_day (next_day d) = d.
Proof.
  rewrite on_calendar_spec. intros H. destruct d as [y m k].
  unfold next_day, prev_day. cbn [d_year d_month d_day] in *.
  destruct (Z.ltb_spec k (Strptime.days_in_month y m)).
  - cbn [d_year d_month d_day].
    destruct (Z.ltb_spec 1 (k + 1)); [|lia]. f_equal. lia.
  - destruct (Z.ltb_spec m 12); cbn [d_year d_month d_day].
    + destruct (Z.ltb_spec 1 1); [lia|].
      destruct (Z.ltb_spec 1 (m + 1)); [|lia].
      replace (m + 1 - 1)%Z with m by lia. f_equal. lia.
    + destruct (Z.ltb_spec 1 1); [lia|].
      assert (m = 12%Z) by lia. subst m.
      change (Strptime.days_in_month y 12) with 31%Z in *.
      replace (y + 1 - 1)%Z with y by lia. f_equal. lia.
Qed.

Lemma next_prev_day d :
  on_calendar d = true -> next_day (prev_day d) = d.
Proof.
  rewrite on_calendar_spec. intros H. destruct d as [y m k].
  unfold next_day, prev_day. cbn [d_year d_month d_day] in *.
  destruct (Z.ltb_spec 1 k).
  - cbn [d_year d_month d_day].
    destruct (Z.ltb_spec (k - 1) (Strptime.days_in_month y m)); [|lia].
    f_equal. lia.
  - destruct (Z.ltb_spec 1 m); cbn [d_year d_month d_day].
    + destruct (Z.ltb_spec (Strptime.days_in_month y (m - 1))
                  (Strptime.days_in_month y (m - 1))); [lia|].
      destruct (Z.ltb_spec (m - 1) 12); [|lia].
      replace (m - 1 + 1)%Z with m by lia. f_equal. lia.
    + change (Strptime.days_in_month (y - 1) 12) with 31%Z.
      destruct (Z.ltb_spec 31 31); [lia|].
      destruct (Z.ltb_spec 12 12); [lia|].
      replace (y - 1 + 1)%Z with y by lia. f_equal; lia.
Qed.

Lemma is_leap_spec y :
  Strptime.is_leap y = true <->
  ((y mod 4 = 0 /\ y mod 100 <> 0) \/ y mod 400 = 0)%Z.
Proof.
  unfold Strptime.is_leap.
  rewrite orb_true_iff, andb_true_iff, negb_true_iff, !Z.eqb_eq, Z.eqb_neq.
  reflexivity.
Qed.

Lemma days_before_next_year y :
  days_before_year (y + 1) = (days_before_year y + year_length y)%Z.
Proof.
  unfold days_before_year, year_length.
  replace (y + 1 - 1)%Z with y by lia.
  destruct (Strptime.is_leap y) eqn:E.
  - apply is_leap_spec in E. Z.div_mod_to_equations. lia.
  - assert (E' : ~ ((y mod 4 = 0 /\ y mod 100 <> 0) \/ y mod 400 = 0)%Z).
    { rewrite <- is_leap_spec, E. discriminate. }
    Z.div_mod_to_equations. lia.
Qed.

Lemma days_before_next_month y m :
  (1 <= m < 12)%Z ->
  days_before_month y (m + 1)
  = (days_before_month y m + Strptime.days_in_month y m)%Z.
Proof.
  intros H.
  assert (Hm : (m = 1 \/ m = 2 \/ m = 3 \/ m = 4 \/ m = 5 \/ m = 6
                \/ m = 7 \/ m = 8 \/ m = 9 \/ m = 10 \/ m = 11)%Z) by lia.
  unfold days_before_month, Strptime.days_in_month.
  destruct (Strptime.is_leap y);
    repeat (destruct Hm as [-> | Hm]; [reflexivity|]); subst m; reflexivity.
Qed.

Lemma days_before_december y :
  (days_before_month y 12 + 31)%Z = year_length y.
Proof.
  unfold days_before_month, year_length.
  destruct (Strptime.is_leap y); reflexivity.
Qed.

Lemma toordinal_next_day d :
  on_calendar d = true -> toordinal (next_day d) = (toordinal d + 1)%Z.
Proof.
  rewrite on_calendar_spec. intros H. unfold next_day, toordinal.
  destruct (Z.ltb_spec (d_day d)
              (Strptime.days_in_month (d_year d) (d_month d))).
  - cbn [d_year d_month d_day]. lia.
  - destruct (Z.ltb_spec (d_month d) 12); cbn [d_year d_month d_day].
    + rewrite days_before_next_month by lia. lia.
    + assert (Hm : d_month d = 12%Z) by lia. rewrite Hm in *.
      change (Strptime.days_in_month (d_year d) 12) with 31%Z in *.
      rewrite days_before_next_year, <- days_before_december.
      change (days_before_month (d_year d + 1) 1) with 0%Z. lia.
Qed.

Lemma toordinal_prev_day d :
  on_calendar d = true -> toordinal (prev_day d) = (toordinal d - 1)%Z.
Proof.
  intros H. pose proof (prev_day_on_calendar d H) as Hp.
  pose proof (toordinal_next_day _ Hp) as E.
  rewrite next_prev_day in E by assumption. lia.
Qed.

Lemma iter_next_day n d :
  on_calendar d = true ->
  on_calendar (Nat.iter n next_day d) = true
  /\ toordinal (Nat.iter n next_day d) = (toordinal d + Z.of_nat n)%Z
  /\ Nat.iter n prev_day (Nat.iter n next_day d) = d.
Proof.
  intros H. induction n as [|n IH].
  - cbn. repeat split; [assumption | lia].
  - destruct IH as (H1 & H2 & H3). rewrite Nat.iter_succ.
    repeat split.
    + now apply next_day_on_calendar.
    + rewrite toordinal_next_day by assumption. lia.
    + rewrite Nat.iter_succ_r, prev_next_day by assumption. exact H3.
Qed.

Lemma iter_prev_day n d :
  on_calendar d = true ->
  on_calendar (Nat.iter n prev_day d) = true
  /\ toordinal (Nat.iter n prev_day d) = (toordinal d - Z.of_nat n)%Z
  /\ Nat.iter n next_day (Nat.iter n prev_day d) = d.
Proof.
  intros H. induction n as [|n IH].
  - cbn. repeat split; [assumption | lia].
  - destruct IH as (H1 & H2 & H3). rewrite Nat.iter_succ.
    repeat split.
    + now apply prev_day_on_calendar.
    + rewrite toordinal_prev_day by assumption. lia.
    + rewrite Nat.iter_succ_r, next_prev_day by assumption. exact H3.
Qed.

Lemma shift_on_calendar d n :
  on_calendar d = true -> on_calendar (shift d n) = true.
Proof.
  intros H. unfold shift. destruct (0 <=? n)%Z.
  - apply iter_next_day, H.
  - apply iter_prev_day, H.
Qed.

Lemma toordinal_shift d n :
  on_calendar d = true -> toordinal (shift d n) = (toordinal d + n)%Z.
Proof.
  intros H. unfold shift. destruct (Z.leb_spec 0 n).
  - destruct (iter_next_day (Z.to_nat n) d H) as (_ & E & _). rewrite E. lia.
  - destruct (iter_prev_day (Z.to_nat (- n)) d H) as (_ & E & _).
    rewrite E. lia.
Qed.

Lemma shift_back d n :
  on_calendar d = true -> shift (shift d n) (- n) = d.
Proof.
  intros H. unfold shift. destruct (Z.leb_spec 0 n) as [Hn|Hn].
  - destruct (Z.leb_spec 0 (- n)) as [Hn'|Hn'].
    + assert (n = 0%Z) by lia. subst n. reflexivity.
    + rewrite Z.opp_involutive. apply iter_next_day, H.
  - destruct (Z.leb_spec 0 (- n)) as [Hn'|Hn']; [|lia].
    apply iter_prev_day, H.
Qed.

Lemma days_before_month_end y m :
  (1 <= m <= 12)%Z ->
  (0 <= days_before_month y m
   /\ days_before_month y m + Strptime.days_in_month y m <= year_length y)%Z.
Proof.
  intros Hm.
  assert (Hc : (m = 1 \/ m = 2 \/ m = 3 \/ m = 4 \/ m = 5 \/ m = 6
                \/ m = 7 \/ m = 8 \/ m = 9 \/ m = 10 \/ m = 11
                \/ m = 12)%Z) by lia.
  unfold days_before_month, Strptime.days_in_month, year_length.
  destruct (Strptime.is_leap y);
    repeat (destruct Hc as [-> | Hc];
            [split; apply Z.leb_le; reflexivity|]);
    subst m; split; apply Z.leb_le; reflexivity.
Qed.

Lemma days_before_month_bound y m k :
  on_calendar (mk_date y m k) = true ->
  (1 <= days_before_month y m + k <= year_length y)%Z.
Proof.
  rewrite on_calendar_spec. cbn [d_year d_month d_day]. intros [Hm Hk].
  pose proof (days_before_month_end y m Hm). lia.
Qed.

Lemma days_before_year_mono y1 y2 :
  (y1 <= y2)%Z -> (days_before_year y1 <= days_before_year y2)%Z.
Proof.
  intros H. unfold days_before_year. Z.div_mod_to_equations. lia.
Qed.

Lemma year_length_bounds y : (365 <= year_length y <= 366)%Z.
Proof. unfold year_length. destruct (Strptime.is_leap y); lia. Qed.

Lemma toordinal_year_lt a b :
  on_calendar a = true -> on_calendar b = true ->
  (d_year a < d_year b)%Z -> (toordinal a < toordinal b)%Z.
Proof.
  intros Ha Hb Hy. destruct a as [y1 m1 k1], b as [y2 m2 k2].
  apply days_before_month_bound in Ha, Hb.
  unfold toordinal. cbn [d_year d_month d_day] in *.
  pose proof (days_before_year_mono (y1 + 1) y2 ltac:(lia)) as Hmono.
  rewrite days_before_next_year in Hmono. lia.
Qed.

(** ** Days within a month and across its ends *)

Lemma iter_next_within n : forall y m k,
  (k + Z.of_nat n <= Strptime.days_in_month y m)%Z ->
  Nat.iter n next_day (mk_date y m k) = mk_date y m (k + Z.of_nat n).
Proof.
  induction n as [|n IH]; intros y m k H.
  - change (Nat.iter 0 next_day (mk_date y m k)) with (mk_date y m k).
    f_equal. lia.
  - rewrite Nat.iter_succ_r. unfold next_day at 2.
    cbn [d_year d_month d_day].
    destruct (Z.ltb_spec k (Strptime.days_in_month y m)); [|lia].
    rewrite IH by lia. f_equal. lia.
Qed.

Lemma next_day_month_end y m :
  next_day (mk_date y m (Strptime.days_in_month y m))
  = month_after (mk_date y m 1).
Proof.
  unfold next_day, month_after. cbn [d_year d_month d_day].
  rewrite Z.ltb_irrefl. reflexivity.
Qed.

Lemma month_after_spec d :
  (1 <= d_month d <= 12)%Z ->
  on_calendar (month_after d) = true
  /\ d_day (month_after d) = 1%Z
  /\ d_month (month_after d) <> d_month d
  /\ (d_year d <= d_year (month_after d) <= d_year d + 1)%Z
  /\ (d_year (month_after d) = d_year d + 1
      <-> d_month d = 12)%Z.
Proof.
  intros H. unfold month_after.
  destruct (Z.ltb_spec (d_month d) 12); rewrite on_calendar_spec;
    cbn [d_year d_month d_day].
  - pose proof (days_in_month_bounds (d_year d) (d_month d + 1)). lia.
  - pose proof (days_in_month_bounds (d_year d + 1) 1). lia.
Qed.

(** From a day of a month on: still in the month, or in the next one. *)
Lemma shift_forward y m k n :
  (1 <= k <= Strptime.days_in_month y m)%Z -> (0 <= n)%Z ->
  (k + n <= Strptime.days_in_month y m
            + Strptime.days_in_month (d_year (month_after (mk_date y m 1)))
                                     (d_month (month_after (mk_date y m 1))))%Z ->
  shift (mk_date y m k) n
  = if (k + n <=? Strptime.days_in_month y m)%Z
    then mk_date y m (k + n)
    else let first := month_after (mk_date y m 1) in
         mk_date (d_year first) (d_month first)
                 (k + n - Strptime.days_in_month y m).
Proof.
  intros Hk Hn Hover. unfold shift.
  destruct (Z.leb_spec 0 n); [|lia].
  destruct (Z.leb_spec (k + n) (Strptime.days_in_month y m)).
  - rewrite iter_next_within by lia. f_equal. lia.
  - set (dim := Strptime.days_in_month y m) in *.
    replace (Z.to_nat n)
      with (Z.to_nat (k + n - dim - 1) + S (Z.to_nat (dim - k)))%nat by lia.
    rewrite Nat.iter_add, Nat.iter_succ, iter_next_within by (fold dim; lia).
    replace (k + Z.of_nat (Z.to_nat (dim - k)))%Z with dim by lia.
    unfold dim at 1. rewrite next_day_month_end.
    cbn zeta. revert Hover. unfold month_after.
    cbn [d_year d_month d_day].
    destruct (m <? 12)%Z; cbn [d_year d_month d_day]; intros Hover.
    + rewrite iter_next_within by lia. f_equal. lia.
    + rewrite iter_next_within by lia. f_equal. lia.
Qed.

Lemma month_before_spec d :
  (1 <= d_month d <= 12)%Z ->
  on_calendar (month_before d) = true
  /\ d_day (month_before d)
     = Strptime.days_in_month (d_year (month_before d))
                              (d_month (month_before d))
  /\ d_month (month_before d) <> d_month d
  /\ (d_year d - 1 <= d_year (month_before d) <= d_year d)%Z
  /\ (d_year (month_before d) = d_year d - 1 <-> d_month d = 1)%Z
  /\ month_after (mk_date (d_year (month_before d))
                          (d_month (month_before d)) 1)
     = mk_date (d_year d) (d_month d) 1.
Proof.
  intros H. unfold month_before, month_after.
  destruct (Z.ltb_spec 1 (d_month d)); rewrite on_calendar_spec;
    cbn [d_year d_month d_day].
  - pose proof (days_in_month_bounds (d_year d) (d_month d - 1)).
    destruct (Z.ltb_spec (d_month d - 1) 12); [|lia].
    replace (d_month d - 1 + 1)%Z with (d_month d) by lia.
    repeat split; try lia; reflexivity.
  - change (Strptime.days_in_month (d_year d - 1) 12) with 31%Z.
    destruct (Z.ltb_spec 12 12); [lia|].
    replace (d_year d - 1 + 1)%Z with (d_year d) by lia.
    assert (d_month d = 1%Z) as -> by lia.
    repeat split; try lia; reflexivity.
Qed.

Lemma shift_inverse d e n :
  on_calendar e = true -> d = shift e (- n) -> shift d n = e.
Proof.
  intros H ->. pose proof (shift_back e (- n) H) as B.
  rewrite Z.opp_involutive in B. exact B.
Qed.

(** From a day of a month back: still in the month, or in the one
    before. *)
Lemma shift_backward y m k n :
  (1 <= m <= 12)%Z ->
  (1 <= k <= Strptime.days_in_month y m)%Z -> (n <= 0)%Z ->
  (- 28 < k + n)%Z ->
  shift (mk_date y m k) n
  = if (1 <=? k + n)%Z
    then mk_date y m (k + n)
    else let last := month_before (mk_date y m 1) in
         mk_date (d_year last) (d_month last) (d_day last + k + n).
Proof.
  intros Hm Hk Hn Hover.
  destruct (Z.leb_spec 1 (k + n)).
  - apply shift_inverse.
    + apply on_calendar_spec. cbn [d_year d_month d_day]. lia.
    + pose proof (days_in_month_bounds
                    (d_year (month_after (mk_date y m 1)))
                    (d_month (month_after (mk_date y m 1)))).
      rewrite shift_forward by lia.
      destruct (Z.leb_spec (k + n + - n) (Strptime.days_in_month y m));
        [|lia].
      f_equal. lia.
  - cbn zeta.
    destruct (month_before_spec (mk_date y m 1) Hm)
      as (Hon & Hday & _ & _ & _ & Hafter).
    destruct (month_before (mk_date y m 1)) as [y' m' k'] eqn:Eb.
    cbn [d_year d_month d_day] in *.
    apply on_calendar_spec in Hon. cbn [d_year d_month d_day] in Hon.
    pose proof (days_in_month_bounds y' m').
    apply shift_inverse.
    + apply on_calendar_spec. cbn [d_year d_month d_day]. lia.
    + rewrite shift_forward;
        [| lia | lia
         | rewrite <- Hday, Hafter; cbn [d_year d_month]; lia].
      destruct (Z.leb_spec (k' + k + n + - n)
                           (Strptime.days_in_month y' m')); [lia|].
      cbn zeta. rewrite <- Hday, Hafter. cbn [d_year d_month].
      f_equal. lia.
Qed.

(** ** Ordinals and the range of years *)

Lemma toordinal_year_bounds d :
  on_calendar d = true ->
  (days_before_year (d_year d) < toordinal d
   <= days_before_year (d_year d + 1))%Z.
Proof.
  intros H. destruct d as [y m k].
  apply days_before_month_bound in H.
  unfold toordinal. cbn [d_year d_month d_day].
  rewrite days_before_next_year. lia.
Qed.

Lemma in_range_ordinal d :
  on_calendar d = true ->
  in_range d = true <-> (1 <= toordinal d <= 3652059)%Z.
Proof.
  intros H. pose proof (toordinal_year_bounds d H) as B.
  rewrite in_range_spec.
  change 3652059%Z with (days_before_year 10000).
  change 1%Z with (days_before_year 1 + 1)%Z at 2.
  split.
  - intros Hy.
    pose proof (days_before_year_mono 1 (d_year d) ltac:(lia)).
    pose proof (days_before_year_mono (d_year d + 1) 10000 ltac:(lia)).
    lia.
  - intros Ho.
    destruct (Z_lt_le_dec (d_year d) 1) as [Hlo|Hlo].
    { pose proof (days_before_year_mono (d_year d + 1) 1 ltac:(lia)). lia. }
    destruct (Z_lt_le_dec 9999 (d_year d)) as [Hhi|Hhi]; [|lia].
    pose proof (days_before_year_mono 10000 (d_year d) ltac:(lia)). lia.
Qed.

(** The library's own rule for [date + timedelta]: the ordinal of the
    result has to be one of a date. *)
Lemma add_days_spec d n :
  on_calendar d = true ->
  add_days d n
  = if ((1 <=? toordinal d + n) && (toordinal d + n <=? 3652059))%Z
    then Some (shift d n) else None.
Proof.
  intros H. unfold add_days. cbn zeta.
  pose proof (in_range_ordinal (shift d n) (shift_on_calendar d n H)) as R.
  rewrite toordinal_shift in R by assumption.
  destruct (in_range (shift d n)).
  - destruct (proj1 R eq_refl) as [R1 R2].
    apply Z.leb_le in R1, R2. now rewrite R1, R2.
  - destruct ((1 <=? toordinal d + n) && (toordinal d + n <=? 3652059))%Z
      eqn:E; [|reflexivity].
    apply andb_true_iff in E. rewrite !Z.leb_le in E.
    now apply R in E.
Qed.

Lemma shift_succ d j :
  on_calendar d = true -> shift (shift d j) 1 = shift d (j + 1).
Proof.
  intros H. change (shift (shift d j) 1) with (next_day (shift d j)).
  unfold shift. destruct (Z.leb_spec 0 j) as [Hj|Hj].
  - destruct (Z.leb_spec 0 (j + 1)); [|lia].
    replace (Z.to_nat (j + 1)) with (S (Z.to_nat j)) by lia. reflexivity.
  - replace (Z.to_nat (- j)) with (S (Z.to_nat (- (j + 1)))) by lia.
    rewrite Nat.iter_succ, next_prev_day
      by (apply iter_prev_day, H).
    destruct (Z.leb_spec 0 (j + 1)) as [Hj'|Hj']; [|reflexivity].
    replace (j + 1)%Z with 0%Z by lia. reflexivity.
Qed.

Lemma replace_day_ok d k :
  on_calendar (mk_date (d_year d) (d_month d) k) = true ->
  replace_day d k = Some (mk_date (d_year d) (d_month d) k).
Proof. intros H. unfold replace_day. cbn zeta. now rewrite H. Qed.

Lemma next_month_eq d :
  on_calendar d = true -> in_range d = true ->
  next_month d
  = if ((d_year d =? 9999) && (d_month d =? 12))%Z then None
    else Some (month_after d).
Proof.
  intros Hon Hin. apply on_calendar_spec in Hon. apply in_range_spec in Hin.
  destruct d as [y m k]. cbn [d_year d_month d_day] in *.
  pose proof (days_in_month_bounds y m) as Hdim.
  unfold next_month.
  rewrite replace_day_ok
    by (apply on_calendar_spec; cbn [d_year d_month d_day]; lia).
  cbn [option_bind d_year d_month].
  rewrite replace_day_ok
    by (apply on_calendar_spec; cbn [d_year d_month d_day]; lia).
  cbn [option_bind d_year d_month].
  destruct (month_after_spec (mk_date y m 1)) as (Hon' & _ & _ & Hy & Hy');
    [cbn [d_month]; lia|].
  assert (E : month_after (mk_date y m k) = month_after (mk_date y m 1))
    by reflexivity.
  rewrite E. unfold add_days. cbn zeta.
  rewrite shift_forward;
    [ | lia | lia
      | pose proof (days_in_month_bounds
                      (d_year (month_after (mk_date y m 1)))
                      (d_month (month_after (mk_date y m 1)))); lia ].
  destruct (Z.leb_spec (28 + 4) (Strptime.days_in_month y m)); [lia|].
  cbn zeta.
  destruct (month_after (mk_date y m 1)) as [y' m' k'] eqn:Ea.
  cbn [d_year d_month d_day] in *.
  assert (Hk' : k' = 1%Z).
  { pose proof (month_after_spec (mk_date y m 1)) as S.
    rewrite Ea in S. cbn [d_year d_month d_day] in S. apply S. lia. }
  subst k'.
  unfold in_range. cbn [d_year].
  destruct (Z.eqb_spec y 9999) as [Ey|Ey];
    destruct (Z.eqb_spec m 12) as [Em|Em]; cbn [andb].
  - assert (Hbad : (y' <=? 9999)%Z = false) by (apply Z.leb_gt; lia).
    rewrite Hbad, andb_false_r. reflexivity.
  - assert (H1 : (1 <=? y')%Z = true) by (apply Z.leb_le; lia).
    assert (H2 : (y' <=? 9999)%Z = true) by (apply Z.leb_le; lia).
    rewrite H1, H2. cbn [andb option_bind].
    rewrite replace_day_ok by (cbn [d_year d_month]; exact Hon').
    reflexivity.
  - assert (H1 : (1 <=? y')%Z = true) by (apply Z.leb_le; lia).
    assert (H2 : (y' <=? 9999)%Z = true) by (apply Z.leb_le; lia).
    rewrite H1, H2. cbn [andb option_bind].
    rewrite replace_day_ok by (cbn [d_year d_month]; exact Hon').
    reflexivity.
  - assert (H1 : (1 <=? y')%Z = true) by (apply Z.leb_le; lia).
    assert (H2 : (y' <=? 9999)%Z = true) by (apply Z.leb_le; lia).
    rewrite H1, H2. cbn [andb option_bind].
    rewrite replace_day_ok by (cbn [d_year d_month]; exact Hon').
    reflexivity.
Qed.

Lemma previous_month_eq d :
  on_calendar d = true -> in_range d = true ->
  previous_month d
  = if ((d_year d =? 1) && (d_month d =? 1))%Z then None
    else Some (month_before d).
Proof.
  intros Hon Hin. apply on_calendar_spec in Hon. apply in_range_spec in Hin.
  destruct d as [y m k]. cbn [d_year d_month d_day] in *.
  pose proof (days_in_month_bounds y m) as Hdim.
  unfold previous_month.
  rewrite replace_day_ok
    by (apply on_calendar_spec; cbn [d_year d_month d_day]; lia).
  cbn [option_bind d_year d_month].
  destruct (month_before_spec (mk_date y m 1)) as (Hon' & _ & _ & Hy & Hy' & _);
    [cbn [d_month]; lia|].
  assert (E : month_before (mk_date y m k) = month_before (mk_date y m 1))
    by reflexivity.
  rewrite E. unfold add_days. cbn zeta.
  rewrite shift_backward by lia.
  change (1 <=? 1 + -1)%Z with false. cbv iota zeta.
  destruct (month_before (mk_date y m 1)) as [y' m' k'] eqn:Eb.
  cbn [d_year d_month d_day] in *.
  replace (k' + 1 + -1)%Z with k' by lia.
  unfold in_range. cbn [d_year].
  destruct (Z.eqb_spec y 1) as [Ey|Ey];
    destruct (Z.eqb_spec m 1) as [Em|Em]; cbn [andb].
  - assert (Hbad : (1 <=? y')%Z = false) by (apply Z.leb_gt; lia).
    rewrite Hbad. reflexivity.
  - assert (H1 : (1 <=? y')%Z = true) by (apply Z.leb_le; lia).
    assert (H2 : (y' <=? 9999)%Z = true) by (apply Z.leb_le; lia).
    rewrite H1, H2. reflexivity.
  - assert (H1 : (1 <=? y')%Z = true) by (apply Z.leb_le; lia).
    assert (H2 : (y' <=? 9999)%Z = true) by (apply Z.leb_le; lia).
    rewrite H1, H2. reflexivity.
  - assert (H1 : (1 <=? y')%Z = true) by (apply Z.leb_le; lia).
    assert (H2 : (y' <=? 9999)%Z = true) by (apply Z.leb_le; lia).
    rewrite H1, H2. reflexivity.
Qed.

(** X17.  The "next month" button leads to the first day of the month
    after the one on display, whatever the day on display, and the
    "previous month" button to the last day of the month before it.  At
    the ends of the calendar they raise instead: "next month" in December
    9999 and "previous month" in January of the year 1. *)
Theorem month_buttons d :
  on_calendar d = true -> in_range d = true ->
  next_month d
  = (if ((d_year d =? 9999) && (d_month d =? 12))%Z then None
     else Some (if (d_month d <? 12)%Z
                then mk_date (d_year d) (d_month d + 1) 1
                else mk_date (d_year d + 1) 1 1))
  /\ previous_month d
     = (if ((d_year d =? 1) && (d_month d =? 1))%Z then None
        else Some (if (1 <? d_month d)%Z
                   then mk_date (d_year d) (d_month d - 1)
                          (Strptime.days_in_month (d_year d) (d_month d - 1))
                   else mk_date (d_year d - 1) 12 31)).
Proof.
  intros Hon Hin. split.
  - exact (next_month_eq d Hon Hin).
  - exact (previous_month_eq d Hon Hin).
Qed.

Lemma month_buttons_witness :
  next_month (mk_date 2024 1 31) = Some (mk_date 2024 2 1)
  /\ previous_month (mk_date 2024 3 15) = Some (mk_date 2024 2 29)
  /\ next_month (mk_date 9999 12 25) = None
  /\ previous_month (mk_date 1 1 1) = None.
Proof.
  split; [exact (proj1 (month_buttons (mk_date 2024 1 31) eq_refl eq_refl))|].
  split; [exact (proj2 (month_buttons (mk_date 2024 3 15) eq_refl eq_refl))|].
  split; [exact (proj1 (month_buttons (mk_date 9999 12 25) eq_refl eq_refl))|].
  exact (proj2 (month_buttons (mk_date 1 1 1) eq_refl eq_refl)).
Defined.

(** X18.  The two month buttons do not undo each other.  "Next month"
    and then "previous month" ends on the last day of the month that was
    on display, and "previous month" and then "next month" on its first
    day; in both cases the month is the one that was on display. *)
Theorem month_buttons_do_not_cancel d :
  on_calendar d = true -> in_range d = true ->
  (forall n, next_month d = Some n ->
     previous_month n
     = Some (mk_date (d_year d) (d_month d)
                     (Strptime.days_in_month (d_year d) (d_month d))))
  /\ (forall p, previous_month d = Some p ->
        next_month p = Some (mk_date (d_year d) (d_month d) 1)).
Proof.
  intros Hon Hin.
  pose proof (proj1 (on_calendar_spec d) Hon) as [Hm _].
  pose proof (proj1 (in_range_spec d) Hin) as Hy.
  split.
  - intros n Hn. rewrite next_month_eq in Hn by assumption.
    destruct ((d_year d =? 9999) && (d_month d =? 12))%Z eqn:E;
      [discriminate|].
    injection Hn as <-.
    destruct (month_after_spec d Hm) as (Hon' & _ & _ & Hy1 & Hy2).
    assert (Hin' : in_range (month_after d) = true).
    { apply in_range_spec. apply andb_false_iff in E.
      rewrite !Z.eqb_neq in E. lia. }
    rewrite previous_month_eq by assumption.
    unfold month_after, month_before.
    destruct (Z.ltb_spec (d_month d) 12) as [H12|H12];
      cbn [d_year d_month d_day].
    + destruct (Z.eqb_spec (d_month d + 1) 1); [lia|].
      rewrite andb_false_r.
      destruct (Z.ltb_spec 1 (d_month d + 1)); [|lia].
      replace (d_month d + 1 - 1)%Z with (d_month d) by lia. reflexivity.
    + destruct (Z.eqb_spec (d_year d + 1) 1); [lia|].
      cbn [andb]. change (1 <? 1)%Z with false. cbv iota.
      replace (d_year d + 1 - 1)%Z with (d_year d) by lia.
      replace (d_month d) with 12%Z by lia. reflexivity.
  - intros p Hp. rewrite previous_month_eq in Hp by assumption.
    destruct ((d_year d =? 1) && (d_month d =? 1))%Z eqn:E;
      [discriminate|].
    injection Hp as <-.
    destruct (month_before_spec d Hm) as (Hon' & _ & _ & Hy1 & Hy2 & Ha).
    assert (Hin' : in_range (month_before d) = true).
    { apply in_range_spec. apply andb_false_iff in E.
      rewrite !Z.eqb_neq in E. lia. }
    rewrite next_month_eq by assumption.
    assert (Hnot : ((d_year (month_before d) =? 9999)
                    && (d_month (month_before d) =? 12))%Z = false).
    { apply andb_false_iff. rewrite !Z.eqb_neq.
      destruct (Z.eq_dec (d_year (month_before d)) 9999) as [E9|E9];
        [right | now left].
      revert E9. unfold month_before.
      destruct (Z.ltb_spec 1 (d_month d)); cbn [d_year d_month]; lia. }
    rewrite Hnot. f_equal. exact Ha.
Qed.

Lemma month_buttons_do_not_cancel_witness :
  previous_month (mk_date 2024 3 1) = Some (mk_date 2024 2 29)
  /\ next_month (mk_date 2024 1 31) = Some (mk_date 2024 2 1).
Proof.
  pose proof (month_buttons_do_not_cancel (mk_date 2024 2 10)
                eq_refl eq_refl) as [A B].
  split.
  - exact (A (mk_date 2024 3 1) eq_refl).
  - exact (B (mk_date 2024 1 31) eq_refl).
Defined.

Lemma weekday_bounds d : (0 <= weekday d <= 6)%Z.
Proof. unfold weekday. pose proof (Z.mod_pos_bound (toordinal d + 6) 7). lia. Qed.

Lemma start_of_week_eq d :
  on_calendar d = true -> in_range d = true ->
  start_of_week d = Some (shift d (- weekday d)).
Proof.
  intros Hon Hin. unfold start_of_week.
  rewrite add_days_spec by assumption.
  apply in_range_ordinal in Hin; [|assumption].
  assert (H1 : (1 <= toordinal d + - weekday d)%Z).
  { unfold weekday. Z.div_mod_to_equations. lia. }
  pose proof (weekday_bounds d).
  destruct (Z.leb_spec 1 (toordinal d + - weekday d)); [|lia].
  destruct (Z.leb_spec (toordinal d + - weekday d) 3652059); [|lia].
  reflexivity.
Qed.

(** X19.  The start of the week view never raises.  It is a Monday, at
    most six days before the day on display, and the day on display is
    the day of the week that its weekday number says. *)
Theorem week_starts_on_monday d :
  on_calendar d = true -> in_range d = true ->
  exists start,
    start_of_week d = Some start
    /\ on_calendar start = true
    /\ weekday start = 0%Z
    /\ toordinal start = (toordinal d - weekday d)%Z
    /\ (0 <= weekday d <= 6)%Z
    /\ shift start (weekday d) = d.
Proof.
  intros Hon Hin. exists (shift d (- weekday d)).
  split; [now apply start_of_week_eq|].
  split; [now apply shift_on_calendar|].
  split.
  { unfold weekday at 1. rewrite toordinal_shift by assumption.
    unfold weekday. Z.div_mod_to_equations. lia. }
  split; [rewrite toordinal_shift by assumption; lia|].
  split; [apply weekday_bounds|].
  now apply shift_inverse.
Qed.

Lemma week_starts_on_monday_witness :
  exists start,
    start_of_week (mk_date 2024 6 6) = Some start
    /\ start = mk_date 2024 6 3
    /\ weekday start = 0%Z.
Proof.
  destruct (week_starts_on_monday (mk_date 2024 6 6) eq_refl eq_refl)
    as (start & Hs & _ & Hw & _).
  exists start. split; [exact Hs|]. split; [|exact Hw].
  vm_compute in Hs. now injection Hs as <-.
Defined.

Lemma shift_shift_forward d a b :
  on_calendar d = true -> (0 <= b)%Z ->
  shift (shift d a) b = shift d (a + b).
Proof.
  intros H Hb. rewrite <- (Z2Nat.id b Hb).
  induction (Z.to_nat b) as [|n IH].
  - rewrite Z.add_0_r. reflexivity.
  - rewrite Nat2Z.inj_succ. unfold Z.succ.
    rewrite <- (shift_succ (shift d a)) by now apply shift_on_calendar.
    rewrite IH, shift_succ by assumption. f_equal. lia.
Qed.

Lemma days_from_eq start offsets :
  on_calendar start = true ->
  Forall (fun i => 1 <= toordinal start + i <= 3652059)%Z offsets ->
  days_from start offsets = Some (map (shift start) offsets).
Proof.
  intros Hon Hall. induction Hall as [|i rest Hi _ IH]; [reflexivity|].
  cbn [days_from map]. rewrite add_days_spec by assumption.
  destruct (Z.leb_spec 1 (toordinal start + i)); [|lia].
  destruct (Z.leb_spec (toordinal start + i) 3652059); [|lia].
  cbn [andb option_bind]. rewrite IH. reflexivity.
Qed.

Lemma days_of_week_eq d :
  on_calendar d = true -> in_range d = true -> (d_year d < 9999)%Z ->
  days_of_week d
  = Some (map (shift (shift d (- weekday d))) [0; 1; 2; 3; 4; 5; 6]%Z).
Proof.
  intros Hon Hin Hy.
  pose proof (weekday_bounds d) as Hw.
  pose proof (proj1 (in_range_ordinal d Hon) Hin) as Ho.
  pose proof (toordinal_year_bounds d Hon) as B.
  pose proof (days_before_year_mono (d_year d + 1) 9999 ltac:(lia)) as M.
  assert (E9 : days_before_year 9999 = 3651694%Z) by reflexivity.
  assert (Hlo : (1 <= toordinal d - weekday d)%Z).
  { unfold weekday. Z.div_mod_to_equations. lia. }
  unfold days_of_week. rewrite start_of_week_eq by assumption.
  cbn [option_bind]. apply days_from_eq; [now apply shift_on_calendar|].
  rewrite toordinal_shift by assumption.
  repeat constructor; lia.
Qed.

(** X20.  Before the year 9999 the week view has seven days, Monday to
    Sunday in this order, each one day after the one before, and the day
    on display is one of them. *)
Theorem week_is_monday_to_sunday d :
  on_calendar d = true -> in_range d = true -> (d_year d < 9999)%Z ->
  exists days,
    days_of_week d = Some days
    /\ length days = 7
    /\ In d days
    /\ forall i day, nth_error days i = Some day ->
         weekday day = Z.of_nat i
         /\ (toordinal day - toordinal d = Z.of_nat i - weekday d)%Z.
Proof.
  intros Hon Hin Hy.
  pose proof (weekday_bounds d) as Hw.
  exists (map (shift (shift d (- weekday d))) [0; 1; 2; 3; 4; 5; 6]%Z).
  split; [now apply days_of_week_eq|].
  split; [reflexivity|].
  split.
  { apply in_map_iff. exists (weekday d).
    split; [now apply shift_inverse|].
    assert (Hc : (weekday d = 0 \/ weekday d = 1 \/ weekday d = 2
                  \/ weekday d = 3 \/ weekday d = 4 \/ weekday d = 5
                  \/ weekday d = 6)%Z) by lia.
    exact Hc || (cbn [In]; intuition congruence). }
  intros i day Hnth.
  rewrite nth_error_map in Hnth.
  destruct (nth_error [0; 1; 2; 3; 4; 5; 6]%Z i) as [z|] eqn:Ez;
    [|discriminate].
  injection Hnth as <-.
  assert (Hz : z = Z.of_nat i /\ (0 <= z <= 6)%Z).
  { do 7 (destruct i as [|i]; [injection Ez as <-; split; [reflexivity|lia]|]).
    destruct i; discriminate. }
  destruct Hz as [-> Hi]. unfold weekday at 1.
  rewrite !toordinal_shift by (assumption || now apply shift_on_calendar).
  split.
  - unfold weekday. Z.div_mod_to_equations. lia.
  - lia.
Qed.

Lemma week_is_monday_to_sunday_witness :
  exists days,
    days_of_week (mk_date 2024 6 6) = Some days
    /\ length days = 7
    /\ In (mk_date 2024 6 6) days.
Proof.
  destruct (week_is_monday_to_sunday (mk_date 2024 6 6)
              eq_refl eq_refl eq_refl) as (days & H1 & H2 & H3 & _).
  exists days. split; [exact H1|]. split; [exact H2 | exact H3].
Defined.

(** X21.  The two week buttons undo each other: when "next week" does
    not raise, "previous week" leads back to the same day, and the other
    way round.  The day reached is seven days away and has the same
    weekday. *)
Theorem week_buttons_cancel d :
  on_calendar d = true -> in_range d = true ->
  (forall n, next_week d = Some n ->
     previous_week n = Some d
     /\ weekday n = weekday d
     /\ toordinal n = (toordinal d + 7)%Z)
  /\ (forall p, previous_week d = Some p ->
        next_week p = Some d
        /\ weekday p = weekday d
        /\ toordinal p = (toordinal d - 7)%Z).
Proof.
  intros Hon Hin.
  pose proof (proj1 (in_range_ordinal d Hon) Hin) as Ho.
  unfold next_week, previous_week. split.
  - intros n Hn. rewrite add_days_spec in Hn by assumption.
    destruct ((1 <=? toordinal d + 7) && (toordinal d + 7 <=? 3652059))%Z;
      [|discriminate].
    injection Hn as <-.
    assert (Hn : on_calendar (shift d 7) = true)
      by now apply shift_on_calendar.
    rewrite add_days_spec, toordinal_shift by assumption.
    destruct (Z.leb_spec 1 (toordinal d + 7 + -7)); [|lia].
    destruct (Z.leb_spec (toordinal d + 7 + -7) 3652059); [|lia].
    cbn [andb]. split; [f_equal; exact (shift_back d 7 Hon)|].
    split; [|reflexivity].
    unfold weekday. rewrite toordinal_shift by assumption.
    Z.div_mod_to_equations. lia.
  - intros p Hp. rewrite add_days_spec in Hp by assumption.
    destruct ((1 <=? toordinal d + -7) && (toordinal d + -7 <=? 3652059))%Z;
      [|discriminate].
    injection Hp as <-.
    assert (Hp : on_calendar (shift d (-7)) = true)
      by now apply shift_on_calendar.
    rewrite add_days_spec, toordinal_shift by assumption.
    destruct (Z.leb_spec 1 (toordinal d + -7 + 7)); [|lia].
    destruct (Z.leb_spec (toordinal d + -7 + 7) 3652059); [|lia].
    cbn [andb].
    split; [f_equal; apply shift_inverse; [exact Hon | reflexivity]|].
    split; [|lia].
    unfold weekday. rewrite toordinal_shift by assumption.
    Z.div_mod_to_equations. lia.
Qed.

Lemma week_buttons_cancel_witness :
  previous_week (mk_date 2024 3 4) = Some (mk_date 2024 2 26)
  /\ next_week (mk_date 2024 2 19) = Some (mk_date 2024 2 26).
Proof.
  pose proof (week_buttons_cancel (mk_date 2024 2 26) eq_refl eq_refl)
    as [A B].
  split.
  - exact (proj1 (A (mk_date 2024 3 4) eq_refl)).
  - exact (proj1 (B (mk_date 2024 2 19) eq_refl)).
Defined.

(** ** The grid of the month view *)

Lemma month_of_shift y m j :
  (1 <= m <= 12)%Z -> (- 28 <= j)%Z ->
  (j < Strptime.days_in_month y m + 28)%Z ->
  (d_month (shift (mk_date y m 1) j) =? m)%Z
  = ((0 <=? j) && (j <? Strptime.days_in_month y m))%Z.
Proof.
  intros Hm Hlo Hhi. pose proof (days_in_month_bounds y m) as Hdim.
  destruct (Z.leb_spec 0 j) as [Hj|Hj].
  - destruct (month_after_spec (mk_date y m 1) Hm) as (_ & _ & Hne & _).
    pose proof (days_in_month_bounds
                  (d_year (month_after (mk_date y m 1)))
                  (d_month (month_after (mk_date y m 1)))).
    rewrite shift_forward by lia.
    destruct (Z.leb_spec (1 + j) (Strptime.days_in_month y m));
      destruct (Z.ltb_spec j (Strptime.days_in_month y m));
      try lia; cbn [andb d_month].
    + apply Z.eqb_refl.
    + apply Z.eqb_neq. exact Hne.
  - destruct (month_before_spec (mk_date y m 1) Hm) as (_ & _ & Hne & _).
    rewrite shift_backward by lia.
    destruct (Z.leb_spec 1 (1 + j)); [lia|].
    cbn [andb d_month]. apply Z.eqb_neq. exact Hne.
Qed.

Lemma day_of_shift y m j :
  (0 <= j < Strptime.days_in_month y m)%Z ->
  shift (mk_date y m 1) j = mk_date y m (1 + j).
Proof.
  intros Hj.
  pose proof (days_in_month_bounds
                (d_year (month_after (mk_date y m 1)))
                (d_month (month_after (mk_date y m 1)))).
  rewrite shift_forward by lia.
  destruct (Z.leb_spec (1 + j) (Strptime.days_in_month y m)); [|lia].
  reflexivity.
Qed.

Lemma first_before_shift y m j :
  (1 <= m <= 12)%Z ->
  (1 <= j < Strptime.days_in_month y m + 28)%Z ->
  date_ltb (mk_date y m 1) (shift (mk_date y m 1) j) = true.
Proof.
  intros Hm Hj. pose proof (days_in_month_bounds y m).
  pose proof (days_in_month_bounds
                (d_year (month_after (mk_date y m 1)))
                (d_month (month_after (mk_date y m 1)))).
  rewrite shift_forward by lia.
  unfold date_ltb.
  destruct (Z.leb_spec (1 + j) (Strptime.days_in_month y m)).
  - cbn [d_year d_month d_day].
    rewrite !Z.ltb_irrefl, !Z.eqb_refl.
    destruct (Z.ltb_spec 1 (1 + j)); [|lia]. reflexivity.
  - cbn zeta. unfold month_after. cbn [d_year d_month d_day].
    destruct (Z.ltb_spec m 12); cbn [d_year d_month d_day].
    + rewrite Z.ltb_irrefl, Z.eqb_refl.
      destruct (Z.ltb_spec m (m + 1)); [|lia]. reflexivity.
    + destruct (Z.ltb_spec y (y + 1)); [|lia]. reflexivity.
Qed.

Lemma draw_week_eq counts m first n : forall j,
  on_calendar first = true ->
  (1 <= toordinal first + j)%Z ->
  (toordinal first + j + Z.of_nat n <= 3652059)%Z ->
  draw_week n counts m (shift first j)
  = Some (map (fun t => draw_cell counts m (shift first (j + Z.of_nat t)))
              (seq 0 n),
          shift first (j + Z.of_nat n)).
Proof.
  induction n as [|n IH]; intros j Hon Hlo Hhi.
  - cbn [draw_week seq map]. rewrite Z.add_0_r. reflexivity.
  - cbn [draw_week].
    rewrite add_days_spec, toordinal_shift
      by (assumption || now apply shift_on_calendar).
    destruct (Z.leb_spec 1 (toordinal first + j + 1)); [|lia].
    destruct (Z.leb_spec (toordinal first + j + 1) 3652059); [|lia].
    cbn [andb option_bind]. rewrite shift_succ by assumption.
    rewrite IH by (assumption || lia). cbn [option_bind fst snd].
    f_equal. f_equal.
    + cbn [seq map]. rewrite Z.add_0_r. f_equal.
      rewrite <- seq_shift, map_map. apply map_ext. intros t.
      do 2 f_equal. lia.
    + f_equal. lia.
Qed.

Lemma draw_week_seven counts first j :
  on_calendar first = true ->
  (1 <= toordinal first + j)%Z ->
  (toordinal first + j + 7 <= 3652059)%Z ->
  draw_week 7 counts (d_month first) (shift first j)
  = Some (week_at counts first j, shift first (j + 7)).
Proof.
  intros Hon Hlo Hhi. now rewrite draw_week_eq by (assumption || lia).
Qed.

Lemma draw_weeks_eq counts y m r : forall fuel j,
  (1 <= m <= 12)%Z ->
  (S r <= fuel)%nat ->
  (- 6 <= j)%Z ->
  (j + 7 * Z.of_nat r < Strptime.days_in_month y m)%Z ->
  (Strptime.days_in_month y m <= j + 7 * Z.of_nat (S r))%Z ->
  (1 <= toordinal (mk_date y m 1) + j)%Z ->
  (toordinal (mk_date y m 1) + j + 7 * Z.of_nat (S r) <= 3652059)%Z ->
  draw_weeks fuel counts (mk_date y m 1) (shift (mk_date y m 1) j)
  = Grid (map (fun i => week_at counts (mk_date y m 1)
                                (j + 7 * Z.of_nat i))
              (seq 0 (S r))).
Proof.
  pose proof (days_in_month_bounds y m) as Hdim.
  induction r as [|r IH]; intros fuel j Hm Hfuel Hj Hlt Hge Hlo Hhi.
  - destruct fuel as [|fuel]; [lia|]. cbn [draw_weeks].
    assert (Hon : on_calendar (mk_date y m 1) = true)
      by (apply on_calendar_spec; cbn [d_year d_month d_day]; lia).
    rewrite draw_week_seven by (assumption || lia).
    cbn [d_month].
    rewrite month_of_shift by lia.
    destruct (Z.ltb_spec (j + 7) (Strptime.days_in_month y m)); [lia|].
    rewrite andb_false_r, first_before_shift by lia.
    cbn [negb andb]. change (seq 0 1) with [0%nat].
    rewrite map_cons. change (map _ []) with (@nil (list month_cell)).
    do 3 f_equal. lia.
  - destruct fuel as [|fuel]; [lia|]. cbn [draw_weeks].
    assert (Hon : on_calendar (mk_date y m 1) = true)
      by (apply on_calendar_spec; cbn [d_year d_month d_day]; lia).
    rewrite draw_week_seven by (assumption || lia).
    cbn [d_month].
    rewrite month_of_shift by lia.
    destruct (Z.leb_spec 0 (j + 7)); [|lia].
    destruct (Z.ltb_spec (j + 7) (Strptime.days_in_month y m)); [|lia].
    cbn [negb andb].
    rewrite IH by lia.
    cbv iota. f_equal.
    change (seq 0 (S (S r))) with (0%nat :: seq 1 (S r)).
    rewrite <- (seq_shift (S r) 0), map_cons, map_map. f_equal.
    + f_equal. lia.
    + apply map_ext. intros i. f_equal. lia.
Qed.

Lemma weeks_of_bounds y m :
  4 <= weeks_of y m <= 6
  /\ (Strptime.days_in_month y m
      <= 7 * Z.of_nat (weeks_of y m) - weekday (mk_date y m 1)
      < Strptime.days_in_month y m + 7)%Z.
Proof.
  unfold weeks_of.
  pose proof (weekday_bounds (mk_date y m 1)).
  pose proof (days_in_month_bounds y m).
  set (w := weekday (mk_date y m 1)) in *.
  set (dim := Strptime.days_in_month y m) in *.
  assert (Hq : (4 <= (w + dim + 6) / 7 <= 6)%Z)
    by (Z.div_mod_to_equations; lia).
  rewrite Z2Nat.id by lia. split; [lia|].
  Z.div_mod_to_equations. lia.
Qed.

Lemma week_after_month_in_range y m :
  (1 <= m <= 12)%Z -> (1 <= y <= 9999)%Z ->
  ((y =? 9999) && (m =? 12))%Z = false ->
  (toordinal (mk_date y m 1) + Strptime.days_in_month y m + 6
   <= 3652059)%Z.
Proof.
  intros Hm Hy Hnot. pose proof (days_in_month_bounds y m) as Hdim.
  assert (Hon : on_calendar (mk_date y m 1) = true)
    by (apply on_calendar_spec; cbn [d_year d_month d_day]; lia).
  destruct (month_after_spec (mk_date y m 1) Hm)
    as (_ & _ & _ & Hy1 & Hy2).
  pose proof (days_in_month_bounds
                (d_year (month_after (mk_date y m 1)))
                (d_month (month_after (mk_date y m 1)))) as Hdim'.
  pose proof (shift_forward y m 1 (Strptime.days_in_month y m + 6)
                ltac:(lia) ltac:(lia) ltac:(lia)) as E.
  destruct (Z.leb_spec (1 + (Strptime.days_in_month y m + 6))
                       (Strptime.days_in_month y m)); [lia|].
  cbn zeta in E.
  pose proof (toordinal_shift (mk_date y m 1)
                (Strptime.days_in_month y m + 6) Hon) as T.
  pose proof (shift_on_calendar (mk_date y m 1)
                (Strptime.days_in_month y m + 6) Hon) as C.
  assert (R : in_range (shift (mk_date y m 1)
                              (Strptime.days_in_month y m + 6)) = true).
  { rewrite E. apply in_range_spec. cbn [d_year d_month] in *.
    apply andb_false_iff in Hnot. rewrite !Z.eqb_neq in Hnot. lia. }
  apply in_range_ordinal in R; [|assumption]. lia.
Qed.

Lemma month_grid_eq counts fuel d :
  on_calendar d = true -> in_range d = true ->
  ((d_year d =? 9999) && (d_month d =? 12))%Z = false ->
  6 <= fuel ->
  month_grid fuel counts d
  = Grid (map (fun i => week_at counts (mk_date (d_year d) (d_month d) 1)
                          (7 * Z.of_nat i
                           - weekday (mk_date (d_year d) (d_month d) 1)))
              (seq 0 (weeks_of (d_year d) (d_month d)))).
Proof.
  intros Hon Hin Hnot Hfuel.
  apply on_calendar_spec in Hon. apply in_range_spec in Hin.
  destruct d as [y m k]. cbn [d_year d_month d_day] in *.
  pose proof (days_in_month_bounds y m) as Hdim.
  pose proof (weeks_of_bounds y m) as [HR Hw].
  pose proof (weekday_bounds (mk_date y m 1)) as Hwd.
  pose proof (week_after_month_in_range y m ltac:(lia) Hin Hnot) as Hend.
  assert (Hon1 : on_calendar (mk_date y m 1) = true)
    by (apply on_calendar_spec; cbn [d_year d_month d_day]; lia).
  assert (Hin1 : in_range (mk_date y m 1) = true)
    by (apply in_range_spec; exact Hin).
  pose proof (proj1 (in_range_ordinal _ Hon1) Hin1) as Ho.
  assert (Hlo : (1 <= toordinal (mk_date y m 1)
                      - weekday (mk_date y m 1))%Z).
  { unfold weekday. Z.div_mod_to_equations. lia. }
  unfold month_grid. rewrite replace_day_ok by exact Hon1.
  cbn [d_year d_month].
  change (add_days (mk_date y m 1) (- weekday (mk_date y m 1)))
    with (start_of_week (mk_date y m 1)).
  rewrite start_of_week_eq by assumption.
  destruct (weeks_of y m) as [|r] eqn:Er; [lia|].
  rewrite (draw_weeks_eq counts y m r) by lia.
  f_equal. apply map_ext. intros i. f_equal. lia.
Qed.

Lemma cell_day_draw counts m x : cell_day (draw_cell counts m x) = x.
Proof. unfold draw_cell. now destruct (d_month x =? m)%Z. Qed.

Lemma of_month_draw counts m x :
  of_month (draw_cell counts m x) = (d_month x =? m)%Z.
Proof. unfold draw_cell. now destruct (d_month x =? m)%Z. Qed.

Lemma concat_weeks {A : Type} (g : Z -> A) R :
  concat (map (fun i => map (fun t => g (7 * Z.of_nat i + Z.of_nat t)%Z)
                            (seq 0 7))
              (seq 0 R))
  = map (fun q => g (Z.of_nat q)) (seq 0 (7 * R)).
Proof.
  induction R as [|R IH]; [reflexivity|].
  rewrite (seq_S R 0), map_app, concat_app, IH.
  replace (7 * S R)%nat with (7 * R + 7)%nat by lia.
  rewrite (seq_app (7 * R) 7 0), map_app. f_equal.
  cbn [map concat seq Nat.add]. rewrite app_nil_r.
  repeat (f_equal; try (f_equal; lia)).
Qed.

Lemma grid_cells counts first w R :
  concat (map (fun i => week_at counts first (7 * Z.of_nat i - w))
              (seq 0 R))
  = map (fun q => draw_cell counts (d_month first)
                            (shift first (Z.of_nat q - w)))
        (seq 0 (7 * R)).
Proof.
  rewrite <- (concat_weeks
                (fun z => draw_cell counts (d_month first)
                                    (shift first (z - w)))).
  f_equal. apply map_ext. intros i. unfold week_at.
  apply map_ext. intros t. do 2 f_equal. lia.
Qed.

Lemma filter_map_swap {A B : Type} (p : B -> bool) (f : A -> B) l :
  filter p (map f l) = map f (filter (fun x => p (f x)) l).
Proof.
  induction l as [|x l IH]; [reflexivity|].
  cbn [map filter]. destruct (p (f x)); cbn [map]; now rewrite IH.
Qed.

Lemma filter_none {A : Type} (p : A -> bool) l :
  (forall x, In x l -> p x = false) -> filter p l = [].
Proof.
  induction l as [|x l IH]; intros H; [reflexivity|].
  cbn [filter]. rewrite (H x (or_introl eq_refl)).
  apply IH. intros z Hz. apply H. now right.
Qed.

Lemma filter_all {A : Type} (p : A -> bool) l :
  (forall x, In x l -> p x = true) -> filter p l = l.
Proof.
  induction l as [|x l IH]; intros H; [reflexivity|].
  cbn [filter]. rewrite (H x (or_introl eq_refl)). f_equal.
  apply IH. intros z Hz. apply H. now right.
Qed.

Lemma filter_seq_window a n N :
  a + n <= N ->
  filter (fun q => ((a <=? q) && (q <? a + n))%nat) (seq 0 N) = seq a n.
Proof.
  intros H. replace N with (a + (n + (N - a - n))) by lia.
  rewrite !seq_app, !filter_app, Nat.add_0_l.
  rewrite filter_none, filter_all, filter_none, app_nil_r; [reflexivity|..];
    intros q Hq; apply in_seq in Hq.
  - destruct (Nat.ltb_spec q (a + n)); [lia|]. apply andb_false_r.
  - destruct (Nat.leb_spec a q); [|lia].
    destruct (Nat.ltb_spec q (a + n)); [|lia]. reflexivity.
  - destruct (Nat.leb_spec a q); [lia|]. reflexivity.
Qed.

Lemma seq_from a n : seq a n = map (Nat.add a) (seq 0 n).
Proof.
  induction a as [|a IH].
  - now rewrite map_id.
  - rewrite <- seq_shift, IH, map_map. reflexivity.
Qed.

Lemma december_9999 counts fuel k :
  5 <= fuel -> month_grid fuel counts (mk_date 9999 12 k) = Overflow.
Proof.
  intros H. do 5 (destruct fuel as [|fuel]; [lia|]). reflexivity.
Qed.

(** X22.  Drawing the month view ends: for every month but December
    9999 the loop stops after four to six weeks of seven cells.  The cells
    are consecutive days, the first one the Monday on or before the first
    of the month.  For December 9999 the step past the last day raises
    [OverflowError]. *)
Theorem month_grid_is_whole_weeks counts fuel d :
  on_calendar d = true -> in_range d = true -> 6 <= fuel ->
  if ((d_year d =? 9999) && (d_month d =? 12))%Z
  then month_grid fuel counts d = Overflow
  else
    exists weeks start,
      month_grid fuel counts d = Grid weeks
      /\ 4 <= length weeks <= 6
      /\ (forall week, In week weeks -> length week = 7)
      /\ start_of_week (mk_date (d_year d) (d_month d) 1) = Some start
      /\ weekday start = 0%Z
      /\ map cell_day (concat weeks)
         = map (fun q => shift start (Z.of_nat q))
               (seq 0 (7 * length weeks)).
Proof.
  intros Hon Hin Hfuel.
  destruct ((d_year d =? 9999) && (d_month d =? 12))%Z eqn:Hnot.
  { apply andb_true_iff in Hnot. rewrite !Z.eqb_eq in Hnot.
    destruct d as [y m k]. cbn [d_year d_month] in Hnot.
    destruct Hnot as [-> ->]. apply december_9999. lia. }
  pose proof (proj1 (on_calendar_spec d) Hon) as [Hm _].
  pose proof (proj1 (in_range_spec d) Hin) as Hy.
  pose proof (days_in_month_bounds (d_year d) (d_month d)) as Hdim.
  pose proof (weeks_of_bounds (d_year d) (d_month d)) as [HR _].
  assert (Hon1 : on_calendar (mk_date (d_year d) (d_month d) 1) = true)
    by (apply on_calendar_spec; cbn [d_year d_month d_day]; lia).
  assert (Hin1 : in_range (mk_date (d_year d) (d_month d) 1) = true)
    by (apply in_range_spec; exact Hy).
  eexists. eexists.
  split; [now apply month_grid_eq|].
  rewrite length_map, length_seq.
  split; [exact HR|].
  split.
  { intros week Hweek. apply in_map_iff in Hweek.
    destruct Hweek as (i & <- & _). reflexivity. }
  split; [now apply start_of_week_eq|].
  split.
  { unfold weekday at 1. rewrite toordinal_shift by assumption.
    unfold weekday. Z.div_mod_to_equations. lia. }
  rewrite grid_cells, map_map. apply map_ext. intros q.
  rewrite cell_day_draw, shift_shift_forward by (assumption || lia).
  f_equal. lia.
Qed.

Lemma month_grid_is_whole_weeks_witness :
  (exists weeks start,
     month_grid 6 [] (mk_date 2024 6 15) = Grid weeks
     /\ 4 <= length weeks <= 6
     /\ (forall week, In week weeks -> length week = 7)
     /\ start_of_week (mk_date 2024 6 1) = Some start
     /\ weekday start = 0%Z
     /\ map cell_day (concat weeks)
        = map (fun q => shift start (Z.of_nat q))
              (seq 0 (7 * length weeks)))
  /\ month_grid 6 [] (mk_date 9999 12 25) = Overflow.
Proof.
  split.
  - exact (month_grid_is_whole_weeks [] 6 (mk_date 2024 6 15)
             eq_refl eq_refl (le_n 6)).
  - exact (month_grid_is_whole_weeks [] 6 (mk_date 9999 12 25)
             eq_refl eq_refl (le_n 6)).
Defined.

(** X23.  When the month view is drawn, the cells of the month on
    display are its days from the first to the last, each one once and in
    order.  Such a cell carries the count read for its day and the colour
    of that count against the maximum; the greyed cells are days of other
    months. *)
Theorem month_days_shown_once counts fuel d weeks :
  on_calendar d = true -> in_range d = true ->
  month_grid fuel counts d = Grid weeks ->
  6 <= fuel ->
  map cell_day (filter of_month (concat weeks))
  = map (fun k => mk_date (d_year d) (d_month d) (Z.of_nat k))
        (seq 1 (Z.to_nat (Strptime.days_in_month (d_year d) (d_month d))))
  /\ forall c, In c (concat weeks) ->
       match c with
       | OfMonth day n background =>
           d_month day = d_month d
           /\ n = count_on counts (Date day)
           /\ background
              = get_heatmap_color (count_on counts (Date day))
                                  (max_count_of counts)
       | Greyed day => d_month day <> d_month d
       end.
Proof.
  intros Hon Hin Hgrid Hfuel.
  destruct ((d_year d =? 9999) && (d_month d =? 12))%Z eqn:Hnot.
  { apply andb_true_iff in Hnot. rewrite !Z.eqb_eq in Hnot.
    destruct d as [y m k]. cbn [d_year d_month] in Hnot.
    destruct Hnot as [-> ->].
    rewrite december_9999 in Hgrid by lia. discriminate. }
  rewrite month_grid_eq in Hgrid by assumption.
  injection Hgrid as <-.
  pose proof (proj1 (on_calendar_spec d) Hon) as [Hm _].
  pose proof (days_in_month_bounds (d_year d) (d_month d)) as Hdim.
  pose proof (weeks_of_bounds (d_year d) (d_month d)) as [HR Hw].
  pose proof (weekday_bounds (mk_date (d_year d) (d_month d) 1)) as Hwd.
  set (y := d_year d) in *. set (m := d_month d) in *.
  set (w := weekday (mk_date y m 1)) in *.
  set (dim := Strptime.days_in_month y m) in *.
  rewrite grid_cells. cbn [d_month]. split.
  - rewrite filter_map_swap, map_map.
    rewrite (filter_ext_in _
               (fun q => ((Z.to_nat w <=? q)
                          && (q <? Z.to_nat w + Z.to_nat dim))%nat)).
    2:{ intros q Hq. apply in_seq in Hq.
        rewrite of_month_draw, month_of_shift by (fold dim; lia).
        fold dim.
        destruct (Z.leb_spec 0 (Z.of_nat q - w));
          destruct (Z.ltb_spec (Z.of_nat q - w) dim);
          destruct (Nat.leb_spec (Z.to_nat w) q);
          destruct (Nat.ltb_spec q (Z.to_nat w + Z.to_nat dim));
          cbn [andb]; lia || reflexivity. }
    rewrite filter_seq_window by lia.
    rewrite (seq_from (Z.to_nat w)), (seq_from 1), !map_map.
    apply map_ext_in. intros t Ht. apply in_seq in Ht.
    rewrite cell_day_draw.
    replace (Z.of_nat (Z.to_nat w + t) - w)%Z with (Z.of_nat t) by lia.
    rewrite day_of_shift by (fold dim; lia). f_equal. lia.
  - intros c Hc. apply in_map_iff in Hc. destruct Hc as (q & <- & _).
    unfold draw_cell.
    destruct (Z.eqb_spec (d_month (shift (mk_date y m 1) (Z.of_nat q - w)))
                         m) as [E|E].
    + repeat split. exact E.
    + exact E.
Qed.

Lemma month_days_shown_once_witness :
  exists weeks,
    month_grid 6 [(Date (mk_date 2024 2 5), 3%Z)] (mk_date 2024 2 10)
    = Grid weeks
    /\ map cell_day (filter of_month (concat weeks))
       = map (fun k => mk_date 2024 2 (Z.of_nat k)) (seq 1 29).
Proof.
  assert (H : exists weeks,
             month_grid 6 [(Date (mk_date 2024 2 5), 3%Z)]
                        (mk_date 2024 2 10) = Grid weeks)
    by (vm_compute; eexists; reflexivity).
  destruct H as [weeks H]. exists weeks. split; [exact H|].
  exact (proj1 (month_days_shown_once
                  [(Date (mk_date 2024 2 5), 3%Z)] 6 (mk_date 2024 2 10)
                  weeks eq_refl eq_refl H (le_n 6))).
Defined.

(** ** From a cell of the month to its week *)

Lemma week_view_of_grid_cell counts y m i t :
  (1 <= m <= 12)%Z -> (1 <= y <= 9999)%Z ->
  ((y =? 9999) && (m =? 12))%Z = false ->
  i < weeks_of y m -> t < 7 ->
  days_of_week (shift (mk_date y m 1)
                  (7 * Z.of_nat i - weekday (mk_date y m 1) + Z.of_nat t))
  = Some (map cell_day
              (week_at counts (mk_date y m 1)
                 (7 * Z.of_nat i - weekday (mk_date y m 1)))).
Proof.
  intros Hm Hy Hnot Hi Ht.
  pose proof (days_in_month_bounds y m) as Hdim.
  pose proof (weeks_of_bounds y m) as [HR Hw].
  pose proof (weekday_bounds (mk_date y m 1)) as Hwd.
  pose proof (week_after_month_in_range y m Hm Hy Hnot) as Hend.
  assert (Hon : on_calendar (mk_date y m 1) = true)
    by (apply on_calendar_spec; cbn [d_year d_month d_day]; lia).
  assert (Hin : in_range (mk_date y m 1) = true)
    by (apply in_range_spec; exact Hy).
  pose proof (proj1 (in_range_ordinal _ Hon) Hin) as Ho.
  assert (Hlo : (1 <= toordinal (mk_date y m 1)
                      - weekday (mk_date y m 1))%Z).
  { unfold weekday. Z.div_mod_to_equations. lia. }
  set (first := mk_date y m 1) in *.
  set (w := weekday first) in *.
  set (j := (7 * Z.of_nat i - w)%Z).
  assert (Hx : on_calendar (shift first (j + Z.of_nat t)) = true)
    by now apply shift_on_calendar.
  assert (Hs : on_calendar (shift first j) = true)
    by now apply shift_on_calendar.
  assert (Hwx : weekday (shift first (j + Z.of_nat t)) = Z.of_nat t).
  { unfold weekday at 1. rewrite toordinal_shift by assumption.
    unfold j. unfold w, weekday in *. Z.div_mod_to_equations. lia. }
  assert (Hstart : shift (shift first (j + Z.of_nat t)) (- Z.of_nat t)
                   = shift first j).
  { apply shift_inverse; [assumption|].
    rewrite Z.opp_involutive, shift_shift_forward by (assumption || lia).
    reflexivity. }
  unfold days_of_week, start_of_week.
  rewrite Hwx, add_days_spec, toordinal_shift by assumption.
  destruct (Z.leb_spec 1 (toordinal first + (j + Z.of_nat t) + - Z.of_nat t));
    [|lia].
  destruct (Z.leb_spec (toordinal first + (j + Z.of_nat t) + - Z.of_nat t)
                       3652059); [|lia].
  cbn [andb option_bind]. rewrite Hstart.
  rewrite days_from_eq;
    [ | assumption
      | rewrite toordinal_shift by assumption; repeat constructor; lia ].
  f_equal. unfold week_at. rewrite map_map.
  change [0; 1; 2; 3; 4; 5; 6]%Z with (map Z.of_nat (seq 0 7)).
  rewrite map_map. apply map_ext. intros q.
  rewrite cell_day_draw, shift_shift_forward by (assumption || lia).
  reflexivity.
Qed.

(** X24.  The button under a cell of the month view leads to the week
    view of the row the cell is in: after the callback the view is the
    week view, and the seven days it shows are the days of the seven
    cells of that row, in the same order.  Once the grid is drawn, this
    week view raises nothing. *)
Theorem week_view_is_the_row counts fuel d weeks week c st :
  on_calendar d = true -> in_range d = true -> 6 <= fuel ->
  month_grid fuel counts d = Grid weeks ->
  In week weeks -> In c week ->
  view_mode (switch_to_week_view (cell_day c) st) = WeekView
  /\ days_of_week (current_date (switch_to_week_view (cell_day c) st))
     = Some (map cell_day week).
Proof.
  intros Hon Hin Hfuel Hgrid Hweek Hc.
  split; [reflexivity|]. cbn [switch_to_week_view current_date].
  destruct ((d_year d =? 9999) && (d_month d =? 12))%Z eqn:Hnot.
  { apply andb_true_iff in Hnot. rewrite !Z.eqb_eq in Hnot.
    destruct d as [y m k]. cbn [d_year d_month] in Hnot.
    destruct Hnot as [-> ->].
    rewrite december_9999 in Hgrid by lia. discriminate. }
  rewrite month_grid_eq in Hgrid by assumption.
  injection Hgrid as <-.
  pose proof (proj1 (on_calendar_spec d) Hon) as [Hm _].
  pose proof (proj1 (in_range_spec d) Hin) as Hy.
  apply in_map_iff in Hweek. destruct Hweek as (i & <- & Hi).
  apply in_seq in Hi.
  unfold week_at in Hc. apply in_map_iff in Hc.
  destruct Hc as (t & <- & Ht). apply in_seq in Ht.
  rewrite cell_day_draw.
  apply week_view_of_grid_cell; assumption || lia.
Qed.

Lemma week_view_is_the_row_witness :
  exists weeks week c,
    month_grid 6 [] (mk_date 2024 6 15) = Grid weeks
    /\ In week weeks /\ In c week
    /\ cell_day c = mk_date 2024 6 5
    /\ days_of_week (cell_day c) = Some (map cell_day week).
Proof.
  pose (weeks := match month_grid 6 [] (mk_date 2024 6 15) with
                 | Grid w => w
                 | _ => []
                 end).
  pose (week := nth 1 weeks []).
  pose (c := nth 2 week (Greyed (mk_date 2024 6 15))).
  assert (Hg : month_grid 6 [] (mk_date 2024 6 15) = Grid weeks)
    by (vm_compute; reflexivity).
  assert (Hw : In week weeks) by (vm_compute; right; left; reflexivity).
  assert (Hc : In c week)
    by (vm_compute; right; right; left; reflexivity).
  exists weeks, week, c.
  split; [exact Hg|]. split; [exact Hw|]. split; [exact Hc|].
  split; [vm_compute; reflexivity|].
  exact (proj2 (week_view_is_the_row
                  [] 6 (mk_date 2024 6 15) weeks week c
                  (mk_session MonthView (mk_date 2024 6 15))
                  eq_refl eq_refl (le_n 6) Hg Hw Hc)).
Defined.

(** ** The sidebar and the main panel *)

Lemma to_dict_columns (key value : string) (df : DataFrame) (d : dict) :
  to_dict key value df = inr d ->
  has_column key df = true /\ has_column value df = true.
Proof.
  unfold to_dict. intros H.
  destruct (has_column key df); [|discriminate]. cbn [negb] in H.
  destruct (has_column value df); [|discriminate]. now split.
Qed.

Lemma normalize_columns (groups_df : DataFrame) (collectors_info : dict)
  (visit_logs_df out : DataFrame) :
  normalize groups_df collectors_info visit_logs_df = inr out ->
  columns out
  = (required_cols ++ ["Collector ID"; "Date"; "Collector Name"; "Group"])%list.
Proof.
  unfold normalize. intros H.
  destruct (series "ID" groups_df) as [e|ids]; [discriminate|].
  cbn [bind] in H.
  destruct (to_dict "ID" "Group" groups_df) as [e|group_map]; [discriminate|].
  cbn [bind ret] in H. injection H as <-. reflexivity.
Qed.

Section Sidebar.

Variable read_excel : string -> nat -> Exc DataFrame.

Lemma loaded_columns (visit_url group_url : string)
  (visit groups : DataFrame) (shown : list message) :
  load_data_from_gdrive read_excel visit_url group_url
  = inr ((Some visit, Some groups), shown) ->
  has_column "ID" groups = true
  /\ has_column "Group" groups = true
  /\ has_column "Collector ID" visit = true
  /\ has_column "Collector Name" visit = true
  /\ has_column "Group" visit = true.
Proof.
  intros H.
  apply load_success_inv in H
    as (vurl & gurl & ci & raw & _ & _ & _ & _ & Hnorm & _).
  pose proof (normalize_columns _ _ _ _ Hnorm) as Hc.
  apply normalize_rows in Hnorm as (ids & gm & _ & Hgm & _).
  apply to_dict_columns in Hgm as [H1 H2].
  unfold has_column. rewrite Hc. now repeat split.
Qed.

(** A loaded record and the roster row it was joined with. *)
Lemma loaded_row_join (visit_url group_url : string)
  (visit groups : DataFrame) (shown : list message) :
  load_data_from_gdrive read_excel visit_url group_url
  = inr ((Some visit, Some groups), shown) ->
  forall i r, In (i, r) (rows visit) ->
    exists j g,
      In (j, g) (rows groups)
      /\ get "ID" g = get "Collector ID" r
      /\ get "Collector Name" r = get "Agent Name" g
      /\ get "Group" r = get "Group" g.
Proof.
  intros H i r Hin.
  apply load_success_rows in H
    as (vurl & raw & ids & ci & gm & _ & _ & Hids & Hci & Hgm & Hrows).
  rewrite Hrows in Hin.
  apply in_flat_map_indexed in Hin as (r0 & _ & Hrow).
  apply normalized_row_inv in Hrow
    as (_ & _ & _ & Hid & _ & _ & _ & _ & _ & _ & _ & _ & Hname & Hgroup).
  apply isin_unique in Hid.
  assert (Hseries : ids = map (fun ir => get "ID" (snd ir)) (rows groups)).
  { unfold series in Hids. destruct (has_column "ID" groups);
      [|discriminate]. now injection Hids as <-. }
  rewrite Hseries in Hid.
  destruct (last_with_key (get "ID") _ _ Hid)
    as (pre & j & g & post & Hsplit & Hk & Hpost).
  exists j, g. split; [rewrite Hsplit; apply in_elt|].
  split; [exact Hk|].
  rewrite Hname, Hgroup. unfold map_dict. rewrite <- Hk.
  rewrite (to_dict_last _ _ _ _ _ _ _ _ Hci Hsplit Hpost).
  now rewrite (to_dict_last _ _ _ _ _ _ _ _ Hgm Hsplit Hpost).
Qed.

Lemma group_mask_agrees (visit_url group_url : string)
  (visit groups : DataFrame) (shown : list message) (selected_group : cell) :
  load_data_from_gdrive read_excel visit_url group_url
  = inr ((Some visit, Some groups), shown) ->
  NoDup (map (fun ir => get "ID" (snd ir)) (rows groups)) ->
  forall ir, In ir (rows visit) ->
    isin (map (fun ir => get "ID" (snd ir))
              (rows (keep (fun r => eq_value selected_group (get "Group" r))
                          groups)))
         (get "Collector ID" (snd ir))
    = eq_value selected_group (get "Group" (snd ir)).
Proof.
  intros H Hnd [i r] Hin. cbn [snd].
  destruct (loaded_row_join _ _ _ _ _ H i r Hin)
    as (j & g & Hg & Hid & _ & Hgroup).
  rewrite Hgroup. apply Bool.eq_iff_eq_true. rewrite isin_In, in_map_iff.
  split.
  - intros ([j' g'] & Hid' & Hin'). cbn [snd] in Hid'.
    apply in_rows_keep in Hin' as [Hin' Hmask].
    assert (E : (j', g') = (j, g)).
    { apply (NoDup_key_unique (get "ID") (rows groups)); try assumption.
      cbn [snd]. congruence. }
    injection E as -> ->. exact Hmask.
  - intros Hmask. exists (j, g). split; [exact Hid|].
    apply in_rows_keep. now split.
Qed.

(** X25.  When the ids of the roster are distinct, the sidebar and the
    main panel agree on a team: the records from which the sidebar takes
    the collectors of the team, found through the roster's ids, are the
    records that the main panel shows for the team, found through the
    team column of the log.  So every collector offered for the team has
    at least one record on display when selected, all records shown then
    are records of the team, and, unless the name is that of the "all
    collectors" entry, they carry the selected name. *)
Theorem sidebar_agrees_with_panel (visit_url group_url : string)
  (visit groups : DataFrame) (shown : list message) (selected_group : cell) :
  load_data_from_gdrive read_excel visit_url group_url
  = inr ((Some visit, Some groups), shown) ->
  NoDup (map (fun ir => get "ID" (snd ir)) (rows groups)) ->
  selected_group <> Str all_groups ->
  exists team names,
    filtered_collectors visit groups selected_group = inr team
    /\ base_filtered_data visit selected_group (Str all_collectors)
       = inr team
    /\ collector_names visit groups selected_group = inr names
    /\ forall name, In name names ->
         exists data,
           base_filtered_data visit selected_group name = inr data
           /\ empty data = false
           /\ (forall ir, In ir (rows data) -> In ir (rows team))
           /\ (name <> Str all_collectors ->
               forall ir, In ir (rows data) ->
                 get "Collector Name" (snd ir) = name).
Proof.
  intros H Hnd Hsel.
  destruct (loaded_columns _ _ _ _ _ H) as (HgI & HgG & HvI & HvN & HvG).
  assert (Hne : cell_eqb selected_group (Str all_groups) = false).
  { destruct (cell_eqb selected_group (Str all_groups)) eqn:E;
      [|reflexivity].
    apply cell_eqb_eq in E. contradiction. }
  set (team := keep (fun r => eq_value selected_group (get "Group" r)) visit).
  assert (Hteam : filtered_collectors visit groups selected_group = inr team).
  { unfold filtered_collectors, collector_ids_in_group, series.
    rewrite HgG. cbn [bind ret].
    assert (Hk : has_column "ID"
                   (keep (fun r => eq_value selected_group (get "Group" r))
                         groups) = true) by exact HgI.
    rewrite Hk, HvI. unfold ret. cbn [bind]. unfold team, keep.
    cbn [rows columns]. do 2 f_equal. apply filter_ext_in. intros ir Hir.
    exact (group_mask_agrees _ _ _ _ _ selected_group H Hnd ir Hir). }
  assert (Hbase : forall name,
             base_filtered_data visit selected_group name
             = if negb (cell_eqb name (Str all_collectors))
               then inr (keep (fun r => eq_value name
                                          (get "Collector Name" r)) team)
               else inr team).
  { intros name. unfold base_filtered_data, series.
    rewrite Hne, HvG. cbn [negb bind ret]. fold team.
    destruct (negb (cell_eqb name (Str all_collectors))); [|reflexivity].
    assert (Hk : has_column "Collector Name" team = true) by exact HvN.
    rewrite Hk. reflexivity. }
  exists team.
  eexists. split; [exact Hteam|].
  split; [rewrite Hbase, cell_eqb_refl; reflexivity|].
  split.
  { unfold collector_names. rewrite Hteam. cbn [bind]. unfold series.
    assert (Hk : has_column "Collector Name" team = true) by exact HvN.
    rewrite Hk. cbn [bind ret]. reflexivity. }
  intros name Hname. apply (proj1 (unique_In _ _)) in Hname.
  apply filter_In in Hname as [Hname Hna].
  apply in_map_iff in Hname as ([i r] & Hr & Hin). cbn [snd] in Hr.
  rewrite Hbase.
  destruct (negb (cell_eqb name (Str all_collectors))) eqn:Eall.
  - eexists. split; [reflexivity|]. split.
    + assert (Hrow : In (i, r)
                        (rows (keep (fun r => eq_value name
                                                (get "Collector Name" r))
                                    team))).
      { apply in_rows_keep. split; [exact Hin|].
        unfold eq_value. rewrite Hr, Hna. apply cell_eqb_refl. }
      unfold empty.
      destruct (rows (keep (fun r0 => eq_value name (get "Collector Name" r0))
                           team)); [contradiction | reflexivity].
    + split.
      * intros [i' r'] Hin'. now apply in_rows_keep in Hin' as [Hin' _].
      * intros _ [i' r'] Hin'. apply in_rows_keep in Hin' as [_ Hmask].
        cbn [snd]. unfold eq_value in Hmask.
        apply andb_true_iff in Hmask as [_ Hmask].
        now apply cell_eqb_eq in Hmask.
  - eexists. split; [reflexivity|]. split.
    + unfold empty. destruct (rows team); [contradiction | reflexivity].
    + split; [now intros ir Hir|].
      intros Hn. apply negb_false_iff, cell_eqb_eq in Eall. contradiction.
Qed.

End Sidebar.

Lemma sidebar_agrees_with_panel_witness :
  exists team names,
    filtered_collectors normalized_101 roster_101 (Str "T1") = inr team
    /\ base_filtered_data normalized_101 (Str "T1") (Str all_collectors)
       = inr team
    /\ collector_names normalized_101 roster_101 (Str "T1") = inr names
    /\ names = [Str "A-Smith"].
Proof.
  assert (Hload : load_data_from_gdrive
                    (drive (inr visit_101) (inr roster_101))
                    visit_link group_link
                  = inr ((Some normalized_101, Some roster_101), [])).
  { vm_compute. reflexivity. }
  assert (Hnd : NoDup (map (fun ir => get "ID" (snd ir)) (rows roster_101))).
  { simpl. repeat constructor; simpl; tauto. }
  assert (Hsel : Str "T1" <> Str all_groups).
  { intros E. vm_compute in E. discriminate E. }
  destruct (sidebar_agrees_with_panel _ _ _ _ _ _ (Str "T1")
              Hload Hnd Hsel) as (team & names & H1 & H2 & H3 & _).
  exists team, names. split; [exact H1|]. split; [exact H2|].
  split; [exact H3|].
  vm_compute in H3. now injection H3 as <-.
Defined.


(** ** The short name on a card *)

Lemma item_last_cons {A : Type} (a : A) (l : list A) :
  l <> [] -> item_last (a :: l) = item_last l.
Proof. destruct l; [contradiction | reflexivity]. Qed.

Lemma contains_char_single (x c : ascii) :
  PyStr.contains (String x "") (String c "") = Ascii.eqb x c.
Proof.
  cbn [PyStr.contains]. rewrite prefix_char. apply orb_false_r.
Qed.

Lemma split_go_last (s : string) : forall cur,
  PyStr.contains "-" cur = false ->
  exists label before,
    item_last (PyStr.split_go "-" 0 cur s) = inr label
    /\ PyStr.contains "-" label = false
    /\ cur ++ s = before ++ label
    /\ (before = "" \/ exists b, before = b ++ "-").
Proof.
  induction s as [|c s IH]; intros cur Hcur.
  - exists cur, "". cbn [PyStr.split_go item_last].
    rewrite append_empty_r. repeat split; [exact Hcur | now left].
  - cbn [PyStr.split_go]. rewrite prefix_char.
    destruct (Ascii.eqb "-" c) eqn:E.
    + apply Ascii.eqb_eq in E. subst c.
      rewrite item_last_cons by apply split_go_nonempty.
      cbn [String.length Nat.sub].
      destruct (IH "" eq_refl) as (label & before & H1 & H2 & H3 & H4).
      exists label, (cur ++ "-" ++ before).
      split; [exact H1|]. split; [exact H2|]. split.
      * cbn [append] in H3. rewrite H3.
        rewrite !append_assoc. reflexivity.
      * right. destruct H4 as [->|[b ->]].
        -- exists cur. reflexivity.
        -- exists (cur ++ "-" ++ b). now rewrite !append_assoc.
    + destruct (IH (cur ++ String c ""))
        as (label & before & H1 & H2 & H3 & H4).
      { rewrite contains_char_app, Hcur, contains_char_single, E.
        reflexivity. }
      exists label, before. split; [exact H1|]. split; [exact H2|].
      split; [|exact H4].
      rewrite <- H3, append_assoc. reflexivity.
Qed.

(** X26.  The short name of a collector is never missing: for every
    text, taking the last piece after splitting at the dashes raises
    nothing.  The piece has no dash in it and is the end of the name,
    right after the name's last dash; a name without a dash is its own
    short name. *)
Theorem short_name_is_after_last_dash (name : string) :
  exists label before,
    short_name name = inr label
    /\ PyStr.contains "-" label = false
    /\ name = before ++ label
    /\ (before = "" \/ exists b, before = b ++ "-")
    /\ (PyStr.contains "-" name = false -> label = name).
Proof.
  destruct (split_go_last name "" eq_refl)
    as (label & before & H1 & H2 & H3 & H4).
  exists label, before. split; [exact H1|]. split; [exact H2|].
  split; [exact H3|]. split; [exact H4|].
  intros Hno. unfold short_name in *.
  change (PyStr.split_go "-" 0 "" name) with (PyStr.split "-" name) in H1.
  rewrite split_absent in H1 by exact Hno.
  cbn [item_last ret] in H1. now injection H1 as <-.
Qed.
